(** * A precision platformer: level queries, player controller, session machine

    Shallow embedding of [level.js], [player.js] and [game.js].

    JavaScript numbers are modelled as exact rationals ([Q]): every
    arithmetic operation of the source is kept, its rounding is not.  Tile
    coordinates, tile counts and tile values are integers ([Z]);
    [Math.floor] is [Qfloor].  Mutation of [this] is explicit state
    passing: a method takes the object and returns the updated one. *)

From Stdlib Require Import ZArith QArith Qround Qabs Bool List Lia Lqa String.
From Stdlib Require Import DecimalString.
Import ListNotations.
Open Scope Q_scope.

(** ** Numbers *)

Module Num.

(** [a < b] on JavaScript numbers, as a boolean. *)
Definition ltb (a b : Q) : bool :=
  match a ?= b with Lt => true | _ => false end.

(** [a > b]. *)
Definition gtb (a b : Q) : bool := ltb b a.

(** [a <= b]. *)
Definition leb (a b : Q) : bool := negb (ltb b a).

(** [a !== 0] / truthiness of a number. *)
Definition nonzero (a : Q) : bool := negb (Qeq_bool a 0).

(** [v || d] where [v] is a possibly missing JSON number: a missing value
    and the number zero are both falsy. *)
Definition orQ (v : option Q) (d : Q) : Q :=
  match v with
  | Some q => if nonzero q then q else d
  | None => d
  end.

Definition orZ (v : option Z) (d : Z) : Z :=
  match v with
  | Some z => if (z =? 0)%Z then d else z
  | None => d
  end.

(** [Math.max] and [Math.min] on two numbers. *)
Definition max (a b : Q) : Q := if ltb a b then b else a.
Definition min (a b : Q) : Q := if ltb b a then b else a.

(** Decimal rendering of an integer, as template strings do. *)
Definition showZ (z : Z) : string := NilZero.string_of_int (Z.to_int z).

End Num.

(** ** level.js *)

Module Rect.
Record t : Type := mk { x : Q; y : Q; width : Q; height : Q }.
End Rect.

Definition TILE_SIZE : Q := 16.

Module TileType.
Definition EMPTY : Z := 0.
Definition SOLID : Z := 1.
Definition PLATFORM : Z := 2.
End TileType.

Module Level.

Record t : Type := mk {
  width : Z;
  height : Z;
  tiles : list Z;
  hazards : list Rect.t;
  spawnX : Q;
  spawnY : Q;
  goalRect : Rect.t;
  backgroundColor : Z * Z * Z;
  name : string;
  parTime : Q
}.

(** [new Level()] *)
Definition new : t :=
  {| width := 0; height := 0; tiles := []; hazards := [];
     spawnX := 0; spawnY := 0;
     goalRect := Rect.mk 0 0 0 0;
     backgroundColor := (25, 25, 40)%Z;
     name := "Unnamed Level"; parTime := 30 |}.

(** [tiles[index]]: [None] is JavaScript's [undefined]. *)
Definition tileAt (ts : list Z) (index : Z) : option Z :=
  if (index <? 0)%Z then None else nth_error ts (Z.to_nat index).

(** [tiles[index] = tile] for an index inside the allocated array. *)
Fixpoint setNth (ts : list Z) (n : nat) (tile : Z) : list Z :=
  match ts, n with
  | [], _ => []
  | _ :: rest, O => tile :: rest
  | t0 :: rest, S k => t0 :: setNth rest k tile
  end.

Definition with_tiles (l : t) (ts : list Z) : t :=
  {| width := width l; height := height l; tiles := ts;
     hazards := hazards l; spawnX := spawnX l; spawnY := spawnY l;
     goalRect := goalRect l; backgroundColor := backgroundColor l;
     name := name l; parTime := parTime l |}.

(** [Level.prototype.setTile] *)
Definition setTile (l : t) (x y tile : Z) : t :=
  if ((x <? 0) || (x >=? width l))%Z then l
  else if ((y <? 0) || (y >=? height l))%Z then l
  else with_tiles l (setNth (tiles l) (Z.to_nat (y * width l + x)) tile).

End Level.

(** [isSolidTile(level, x, y)] *)
Definition isSolidTile (level : Level.t) (x y : Z) : bool :=
  if ((x <? 0) || (x >=? Level.width level))%Z then true
  else if (y <? 0)%Z then true
  else if (y >=? Level.height level)%Z then false
  else
    match Level.tileAt (Level.tiles level) (y * Level.width level + x) with
    | Some v => (v =? TileType.SOLID)%Z
    | None => false
    end.

(** [getTile(level, x, y)]; [tiles[index] || TileType.EMPTY] maps both a
    missing cell and the value 0 to [EMPTY]. *)
Definition getTile (level : Level.t) (x y : Z) : Z :=
  if ((x <? 0) || (x >=? Level.width level))%Z then TileType.SOLID
  else if ((y <? 0) || (y >=? Level.height level))%Z then TileType.EMPTY
  else Num.orZ (Level.tileAt (Level.tiles level) (y * Level.width level + x))
               TileType.EMPTY.

(** *** JSON level loading *)

(** The value [JSON.parse] returns, seen through the fields [loadLevel]
    reads.  [None] is a missing (or [null]) field.  A row of [tiles] that is
    not an array is the empty row: the loader writes nothing for either. *)

Module JsonPoint.
Record t : Type := mk { x : option Q; y : option Q }.
End JsonPoint.

Module JsonRect.
Record t : Type :=
  mk { x : option Q; y : option Q; width : option Q; height : option Q }.
End JsonRect.

Module LevelData.
Record t : Type := mk {
  name : option string;
  par_time : option Q;
  width : option Z;
  height : option Z;
  tiles : option (list (list Z));
  spawn : option JsonPoint.t;
  goal : option JsonRect.t;
  hazards : option (list JsonRect.t);
  background_color : option (list Z)
}.
End LevelData.

(** Inner loop of the tile parser:
    [for (x = 0; x < row.length && x < level.width; x++)]. *)
Fixpoint parseRow (w y x : Z) (row : list Z) (ts : list Z) : list Z :=
  match row with
  | [] => ts
  | v :: rest =>
      if (x <? w)%Z
      then parseRow w y (x + 1)%Z rest (Level.setNth ts (Z.to_nat (y * w + x)) v)
      else ts
  end.

(** Outer loop:
    [for (y = 0; y < data.tiles.length && y < level.height; y++)]. *)
Fixpoint parseRows (w h y : Z) (rows : list (list Z)) (ts : list Z) : list Z :=
  match rows with
  | [] => ts
  | row :: rest =>
      if (y <? h)%Z
      then parseRows w h (y + 1)%Z rest (parseRow w y 0 row ts)
      else ts
  end.

Definition parseHazard (hz : JsonRect.t) : Rect.t :=
  {| Rect.x := Num.orQ (JsonRect.x hz) 0 * TILE_SIZE;
     Rect.y := Num.orQ (JsonRect.y hz) 0 * TILE_SIZE;
     Rect.width := Num.orQ (JsonRect.width hz) 1 * TILE_SIZE;
     Rect.height := Num.orQ (JsonRect.height hz) 1 * TILE_SIZE |}.

(** The body of [loadLevel]'s [try] block, after [JSON.parse] succeeded.
    [new Array(tileCount)] throws for a negative length or one of 2^32 and
    more, and the [catch] turns that into [null]. *)
Definition loadLevelData (data : LevelData.t) : option Level.t :=
  let name :=
    match LevelData.name data with
    | Some s => if String.eqb s "" then "Unnamed Level"%string else s
    | None => "Unnamed Level"%string
    end in
  let parTime := Num.orQ (LevelData.par_time data) 30 in
  let width := Num.orZ (LevelData.width data) 40 in
  let height := Num.orZ (LevelData.height data) 23 in
  let tileCount := (width * height)%Z in
  if ((tileCount <? 0) || (tileCount >=? 2 ^ 32))%Z then None
  else
    let tiles0 := repeat TileType.EMPTY (Z.to_nat tileCount) in
    let tiles :=
      match LevelData.tiles data with
      | Some rows => parseRows width height 0 rows tiles0
      | None => tiles0
      end in
    let '(spawnX, spawnY) :=
      match LevelData.spawn data with
      | Some s =>
          (Num.orQ (JsonPoint.x s) 2 * TILE_SIZE + TILE_SIZE / 2,
           Num.orQ (JsonPoint.y s) 2 * TILE_SIZE + TILE_SIZE / 2)
      | None =>
          (2 * TILE_SIZE + TILE_SIZE / 2, 2 * TILE_SIZE + TILE_SIZE / 2)
      end in
    let goalRect :=
      match LevelData.goal data with
      | Some g =>
          {| Rect.x := Num.orQ (JsonRect.x g) 38 * TILE_SIZE;
             Rect.y := Num.orQ (JsonRect.y g) 20 * TILE_SIZE;
             Rect.width := Num.orQ (JsonRect.width g) 2 * TILE_SIZE;
             Rect.height := Num.orQ (JsonRect.height g) 2 * TILE_SIZE |}
      | None => Level.goalRect Level.new
      end in
    let hazards :=
      match LevelData.hazards data with
      | Some hs => map parseHazard hs
      | None => []
      end in
    let backgroundColor :=
      match LevelData.background_color data with
      | Some (r :: g :: b :: _) => (r, g, b)
      | _ => Level.backgroundColor Level.new
      end in
    Some {| Level.width := width; Level.height := height;
            Level.tiles := tiles; Level.hazards := hazards;
            Level.spawnX := spawnX; Level.spawnY := spawnY;
            Level.goalRect := goalRect;
            Level.backgroundColor := backgroundColor;
            Level.name := name; Level.parTime := parTime |}.

(** [loadLevel(jsonString)]; [parse] is [JSON.parse], [None] when it
    throws. *)
Definition loadLevel (parse : string -> option LevelData.t)
    (jsonString : string) : option Level.t :=
  match parse jsonString with
  | Some data => loadLevelData data
  | None => None
  end.

(** *** The default level *)

(** Integers [lo, lo+1, ..., hi], the values a [for] loop counter takes. *)
Definition range (lo hi : Z) : list Z :=
  map (fun i => (lo + Z.of_nat i)%Z) (seq 0 (Z.to_nat (hi - lo + 1))).

(** [createDefaultLevel()] *)
Definition createDefaultLevel : Level.t :=
  let level :=
    {| Level.width := 40; Level.height := 23;
       Level.tiles := repeat TileType.EMPTY (Z.to_nat (40 * 23));
       Level.hazards := []; Level.spawnX := 0; Level.spawnY := 0;
       Level.goalRect := Level.goalRect Level.new;
       Level.backgroundColor := Level.backgroundColor Level.new;
       Level.name := "Default Level"; Level.parTime := 15 |} in
  let row (y : Z) (xs : list Z) (l : Level.t) :=
    fold_left (fun l x => Level.setTile l x y TileType.SOLID) xs l in
  let column (x : Z) (ys : list Z) (l : Level.t) :=
    fold_left (fun l y => Level.setTile l x y TileType.SOLID) ys l in
  let level :=
    fold_left
      (fun l x =>
         Level.setTile
           (Level.setTile l x (Level.height l - 1) TileType.SOLID)
           x (Level.height l - 2) TileType.SOLID)
      (range 0 (Level.width level - 1)) level in
  let level :=
    fold_left
      (fun l y =>
         Level.setTile (Level.setTile l 0 y TileType.SOLID)
           (Level.width l - 1) y TileType.SOLID)
      (range 0 (Level.height level - 1)) level in
  let level := row 18%Z (range 5 10) level in
  let level := row 15%Z (range 15 20) level in
  let level := row 12%Z (range 25 30) level in
  let level := column 33%Z (range 5 17) level in
  {| Level.width := Level.width level; Level.height := Level.height level;
     Level.tiles := Level.tiles level;
     Level.hazards :=
       [ {| Rect.x := 12 * TILE_SIZE; Rect.y := 20 * TILE_SIZE;
            Rect.width := 3 * TILE_SIZE; Rect.height := 1 * TILE_SIZE |} ];
     Level.spawnX := 3 * TILE_SIZE + TILE_SIZE / 2;
     Level.spawnY := 20 * TILE_SIZE + TILE_SIZE / 2;
     Level.goalRect :=
       {| Rect.x := 36 * TILE_SIZE; Rect.y := 4 * TILE_SIZE;
          Rect.width := 2 * TILE_SIZE; Rect.height := 2 * TILE_SIZE |};
     Level.backgroundColor := (25, 25, 40)%Z;
     Level.name := Level.name level; Level.parTime := Level.parTime level |}.

(** ** input.js *)

(** The per-frame intent the core reads from the [Input] object. *)
Module Input.
Record t : Type := mk {
  moveX : Q;
  moveY : Q;
  jumpPressed : bool;
  jumpHeld : bool;
  pausePressed : bool;
  startPressed : bool
}.
End Input.

(** ** player.js *)

Definition PLAYER_WIDTH : Q := 16.
Definition PLAYER_HEIGHT : Q := 16.

Definition MOVE_SPEED : Q := 280.
Definition GRAVITY : Q := 1200.
Definition FAST_FALL_MULT : Q := 15 # 10.
Definition JUMP_FORCE : Q := 420.
Definition JUMP_CUT_MULT : Q := 4 # 10.
Definition MAX_FALL_SPEED : Q := 600.

Definition WALL_SLIDE_SPEED : Q := 80.
Definition WALL_JUMP_FORCE_X : Q := 320.
Definition WALL_JUMP_FORCE_Y : Q := 380.
Definition WALL_JUMP_COOLDOWN : Q := 15 # 100.

Definition AIR_CONTROL : Q := 9 # 10.

Definition COYOTE_TIME : Q := 8 # 100.
Definition JUMP_BUFFER_TIME : Q := 1 # 10.

Module Player.

Record t : Type := mk {
  x : Q;
  y : Q;
  width : Q;
  height : Q;
  vx : Q;
  vy : Q;
  grounded : bool;
  wallSliding : bool;
  wallDirection : Z;
  facingRight : bool;
  jumpHeld : bool;
  canVariableJump : bool;
  coyoteTimer : Q;
  jumpBufferTimer : Q;
  wallJumpCooldown : Q;
  runTimer : Q;
  squashStretch : Q
}.

(** Field assignments [this.f = v]. *)
Definition set_x (v : Q) (p : t) : t :=
  {| x := v; y := y p; width := width p; height := height p; vx := vx p;
     vy := vy p; grounded := grounded p; wallSliding := wallSliding p;
     wallDirection := wallDirection p; facingRight := facingRight p;
     jumpHeld := jumpHeld p; canVariableJump := canVariableJump p;
     coyoteTimer := coyoteTimer p; jumpBufferTimer := jumpBufferTimer p;
     wallJumpCooldown := wallJumpCooldown p; runTimer := runTimer p;
     squashStretch := squashStretch p |}.
Definition set_y (v : Q) (p : t) : t :=
  {| x := x p; y := v; width := width p; height := height p; vx := vx p;
     vy := vy p; grounded := grounded p; wallSliding := wallSliding p;
     wallDirection := wallDirection p; facingRight := facingRight p;
     jumpHeld := jumpHeld p; canVariableJump := canVariableJump p;
     coyoteTimer := coyoteTimer p; jumpBufferTimer := jumpBufferTimer p;
     wallJumpCooldown := wallJumpCooldown p; runTimer := runTimer p;
     squashStretch := squashStretch p |}.
Definition set_width (v : Q) (p : t) : t :=
  {| x := x p; y := y p; width := v; height := height p; vx := vx p;
     vy := vy p; grounded := grounded p; wallSliding := wallSliding p;
     wallDirection := wallDirection p; facingRight := facingRight p;
     jumpHeld := jumpHeld p; canVariableJump := canVariableJump p;
     coyoteTimer := coyoteTimer p; jumpBufferTimer := jumpBufferTimer p;
     wallJumpCooldown := wallJumpCooldown p; runTimer := runTimer p;
     squashStretch := squashStretch p |}.
Definition set_height (v : Q) (p : t) : t :=
  {| x := x p; y := y p; width := width p; height := v; vx := vx p;
     vy := vy p; grounded := grounded p; wallSliding := wallSliding p;
     wallDirection := wallDirection p; facingRight := facingRight p;
     jumpHeld := jumpHeld p; canVariableJump := canVariableJump p;
     coyoteTimer := coyoteTimer p; jumpBufferTimer := jumpBufferTimer p;
     wallJumpCooldown := wallJumpCooldown p; runTimer := runTimer p;
     squashStretch := squashStretch p |}.
Definition set_vx (v : Q) (p : t) : t :=
  {| x := x p; y := y p; width := width p; height := height p; vx := v;
     vy := vy p; grounded := grounded p; wallSliding := wallSliding p;
     wallDirection := wallDirection p; facingRight := facingRight p;
     jumpHeld := jumpHeld p; canVariableJump := canVariableJump p;
     coyoteTimer := coyoteTimer p; jumpBufferTimer := jumpBufferTimer p;
     wallJumpCooldown := wallJumpCooldown p; runTimer := runTimer p;
     squashStretch := squashStretch p |}.
Definition set_vy (v : Q) (p : t) : t :=
  {| x := x p; y := y p; width := width p; height := height p; vx := vx p;
     vy := v; grounded := grounded p; wallSliding := wallSliding p;
     wallDirection := wallDirection p; facingRight := facingRight p;
     jumpHeld := jumpHeld p; canVariableJump := canVariableJump p;
     coyoteTimer := coyoteTimer p; jumpBufferTimer := jumpBufferTimer p;
     wallJumpCooldown := wallJumpCooldown p; runTimer := runTimer p;
     squashStretch := squashStretch p |}.
Definition set_grounded (v : bool) (p : t) : t :=
  {| x := x p; y := y p; width := width p; height := height p; vx := vx p;
     vy := vy p; grounded := v; wallSliding := wallSliding p;
     wallDirection := wallDirection p; facingRight := facingRight p;
     jumpHeld := jumpHeld p; canVariableJump := canVariableJump p;
     coyoteTimer := coyoteTimer p; jumpBufferTimer := jumpBufferTimer p;
     wallJumpCooldown := wallJumpCooldown p; runTimer := runTimer p;
     squashStretch := squashStretch p |}.
Definition set_wallSliding (v : bool) (p : t) : t :=
  {| x := x p; y := y p; width := width p; height := height p; vx := vx p;
     vy := vy p; grounded := grounded p; wallSliding := v;
     wallDirection := wallDirection p; facingRight := facingRight p;
     jumpHeld := jumpHeld p; canVariableJump := canVariableJump p;
     coyoteTimer := coyoteTimer p; jumpBufferTimer := jumpBufferTimer p;
     wallJumpCooldown := wallJumpCooldown p; runTimer := runTimer p;
     squashStretch := squashStretch p |}.
Definition set_wallDirection (v : Z) (p : t) : t :=
  {| x := x p; y := y p; width := width p; height := height p; vx := vx p;
     vy := vy p; grounded := grounded p; wallSliding := wallSliding p;
     wallDirection := v; facingRight := facingRight p;
     jumpHeld := jumpHeld p; canVariableJump := canVariableJump p;
     coyoteTimer := coyoteTimer p; jumpBufferTimer := jumpBufferTimer p;
     wallJumpCooldown := wallJumpCooldown p; runTimer := runTimer p;
     squashStretch := squashStretch p |}.
Definition set_facingRight (v : bool) (p : t) : t :=
  {| x := x p; y := y p; width := width p; height := height p; vx := vx p;
     vy := vy p; grounded := grounded p; wallSliding := wallSliding p;
     wallDirection := wallDirection p; facingRight := v;
     jumpHeld := jumpHeld p; canVariableJump := canVariableJump p;
     coyoteTimer := coyoteTimer p; jumpBufferTimer := jumpBufferTimer p;
     wallJumpCooldown := wallJumpCooldown p; runTimer := runTimer p;
     squashStretch := squashStretch p |}.
Definition set_jumpHeld (v : bool) (p : t) : t :=
  {| x := x p; y := y p; width := width p; height := height p; vx := vx p;
     vy := vy p; grounded := grounded p; wallSliding := wallSliding p;
     wallDirection := wallDirection p; facingRight := facingRight p;
     jumpHeld := v; canVariableJump := canVariableJump p;
     coyoteTimer := coyoteTimer p; jumpBufferTimer := jumpBufferTimer p;
     wallJumpCooldown := wallJumpCooldown p; runTimer := runTimer p;
     squashStretch := squashStretch p |}.
Definition set_canVariableJump (v : bool) (p : t) : t :=
  {| x := x p; y := y p; width := width p; height := height p; vx := vx p;
     vy := vy p; grounded := grounded p; wallSliding := wallSliding p;
     wallDirection := wallDirection p; facingRight := facingRight p;
     jumpHeld := jumpHeld p; canVariableJump := v;
     coyoteTimer := coyoteTimer p; jumpBufferTimer := jumpBufferTimer p;
     wallJumpCooldown := wallJumpCooldown p; runTimer := runTimer p;
     squashStretch := squashStretch p |}.
Definition set_coyoteTimer (v : Q) (p : t) : t :=
  {| x := x p; y := y p; width := width p; height := height p; vx := vx p;
     vy := vy p; grounded := grounded p; wallSliding := wallSliding p;
     wallDirection := wallDirection p; facingRight := facingRight p;
     jumpHeld := jumpHeld p; canVariableJump := canVariableJump p;
     coyoteTimer := v; jumpBufferTimer := jumpBufferTimer p;
     wallJumpCooldown := wallJumpCooldown p; runTimer := runTimer p;
     squashStretch := squashStretch p |}.
Definition set_jumpBufferTimer (v : Q) (p : t) : t :=
  {| x := x p; y := y p; width := width p; height := height p; vx := vx p;
     vy := vy p; grounded := grounded p; wallSliding := wallSliding p;
     wallDirection := wallDirection p; facingRight := facingRight p;
     jumpHeld := jumpHeld p; canVariableJump := canVariableJump p;
     coyoteTimer := coyoteTimer p; jumpBufferTimer := v;
     wallJumpCooldown := wallJumpCooldown p; runTimer := runTimer p;
     squashStretch := squashStretch p |}.
Definition set_wallJumpCooldown (v : Q) (p : t) : t :=
  {| x := x p; y := y p; width := width p; height := height p; vx := vx p;
     vy := vy p; grounded := grounded p; wallSliding := wallSliding p;
     wallDirection := wallDirection p; facingRight := facingRight p;
     jumpHeld := jumpHeld p; canVariableJump := canVariableJump p;
     coyoteTimer := coyoteTimer p; jumpBufferTimer := jumpBufferTimer p;
     wallJumpCooldown := v; runTimer := runTimer p;
     squashStretch := squashStretch p |}.
Definition set_runTimer (v : Q) (p : t) : t :=
  {| x := x p; y := y p; width := width p; height := height p; vx := vx p;
     vy := vy p; grounded := grounded p; wallSliding := wallSliding p;
     wallDirection := wallDirection p; facingRight := facingRight p;
     jumpHeld := jumpHeld p; canVariableJump := canVariableJump p;
     coyoteTimer := coyoteTimer p; jumpBufferTimer := jumpBufferTimer p;
     wallJumpCooldown := wallJumpCooldown p; runTimer := v;
     squashStretch := squashStretch p |}.
Definition set_squashStretch (v : Q) (p : t) : t :=
  {| x := x p; y := y p; width := width p; height := height p; vx := vx p;
     vy := vy p; grounded := grounded p; wallSliding := wallSliding p;
     wallDirection := wallDirection p; facingRight := facingRight p;
     jumpHeld := jumpHeld p; canVariableJump := canVariableJump p;
     coyoteTimer := coyoteTimer p; jumpBufferTimer := jumpBufferTimer p;
     wallJumpCooldown := wallJumpCooldown p; runTimer := runTimer p;
     squashStretch := v |}.

(** [reset()]: every field is overwritten, so the result is a constant. *)
Definition reset : t :=
  {| x := 0; y := 0; width := PLAYER_WIDTH; height := PLAYER_HEIGHT;
     vx := 0; vy := 0;
     grounded := false; wallSliding := false; wallDirection := 0%Z;
     facingRight := true;
     jumpHeld := false; canVariableJump := false;
     coyoteTimer := 0; jumpBufferTimer := 0; wallJumpCooldown := 0;
     runTimer := 0; squashStretch := 1 |}.

(** [lerp(a, b, t)] *)
Definition lerp (a b t : Q) : Q :=
  let t := Num.max 0 (Num.min 1 t) in
  a + (b - a) * t.

(** [updateTimers(dt)] *)
Definition updateTimers (dt : Q) (p : t) : t :=
  let p := if Num.gtb (coyoteTimer p) 0
           then set_coyoteTimer (coyoteTimer p - dt) p else p in
  let p := if Num.gtb (jumpBufferTimer p) 0
           then set_jumpBufferTimer (jumpBufferTimer p - dt) p else p in
  let p := if Num.gtb (wallJumpCooldown p) 0
           then set_wallJumpCooldown (wallJumpCooldown p - dt) p else p in
  p.

(** [handleHorizontalMovement(input, dt)] *)
Definition handleHorizontalMovement (input : Input.t) (dt : Q) (p : t) : t :=
  let targetVx := Input.moveX input * MOVE_SPEED in
  if grounded p then set_vx targetVx p
  else if negb (wallSliding p) then
    if Num.nonzero (Input.moveX input)
    then set_vx (lerp (vx p) targetVx AIR_CONTROL) p
    else p
  else p.

(** [checkWallCollision(level, direction)] *)
Definition checkWallCollision (level : Level.t) (direction : Z) (p : t) : bool :=
  let checkX := x p + inject_Z direction * (width p / 2 + 2) in
  let checkY := y p in
  let tileX := Qfloor (checkX / TILE_SIZE) in
  let tileY := Qfloor (checkY / TILE_SIZE) in
  isSolidTile level tileX tileY.

(** [handleWallDetection(input, level)] *)
Definition handleWallDetection (input : Input.t) (level : Level.t) (p : t) : t :=
  let p := set_wallSliding false p in
  let p := set_wallDirection 0%Z p in
  if Num.gtb (wallJumpCooldown p) 0 then p
  else if grounded p then p
  else if Num.ltb (vy p) 0 then p
  else
    let leftWall := checkWallCollision level (-1) p in
    let rightWall := checkWallCollision level 1 p in
    if leftWall && Num.ltb (Input.moveX input) (- (1 # 10))
    then set_wallDirection (-1)%Z (set_wallSliding true p)
    else if rightWall && Num.gtb (Input.moveX input) (1 # 10)
    then set_wallDirection 1%Z (set_wallSliding true p)
    else p.

(** [groundJump()] *)
Definition groundJump (p : t) : t :=
  let p := set_vy (- JUMP_FORCE) p in
  let p := set_grounded false p in
  let p := set_coyoteTimer 0 p in
  let p := set_canVariableJump true p in
  set_squashStretch (7 # 10) p.

(** [wallJump()] *)
Definition wallJump (p : t) : t :=
  let p := set_vx (- inject_Z (wallDirection p) * WALL_JUMP_FORCE_X) p in
  let p := set_vy (- WALL_JUMP_FORCE_Y) p in
  let p := set_wallSliding false p in
  let p := set_wallJumpCooldown WALL_JUMP_COOLDOWN p in
  let p := set_canVariableJump true p in
  let p := set_facingRight (wallDirection p <? 0)%Z p in
  set_squashStretch (7 # 10) p.

(** First part of [handleJumping(input)]: the jump buffer, the [jumpHeld]
    latch and the launch decision (the statements before the variable-jump
    rule). *)
Definition handleJumping_launch (input : Input.t) (p : t) : t :=
  let p := if Input.jumpPressed input
           then set_jumpBufferTimer JUMP_BUFFER_TIME p else p in
  let p := set_jumpHeld (Input.jumpHeld input) p in
  let canGroundJump := grounded p || Num.gtb (coyoteTimer p) 0 in
  let canWallJump := wallSliding p in
  let wantToJump := Num.gtb (jumpBufferTimer p) 0 in
  if wantToJump then
    if canWallJump then set_jumpBufferTimer 0 (wallJump p)
    else if canGroundJump then set_jumpBufferTimer 0 (groundJump p)
    else p
  else p.

(** Last statement of [handleJumping]: the variable-jump rule. *)
Definition handleJumping_cut (p : t) : t :=
  if negb (jumpHeld p) && canVariableJump p && Num.ltb (vy p) 0
  then set_canVariableJump false (set_vy (vy p * JUMP_CUT_MULT) p)
  else p.

(** [handleJumping(input)] *)
Definition handleJumping (input : Input.t) (p : t) : t :=
  handleJumping_cut (handleJumping_launch input p).

(** [applyGravity(dt)] *)
Definition applyGravity (dt : Q) (p : t) : t :=
  let gravity := GRAVITY in
  let p :=
    if wallSliding p then
      if Num.gtb (vy p) WALL_SLIDE_SPEED
      then set_vy WALL_SLIDE_SPEED p
      else set_vy (vy p + gravity * (3 # 10) * dt) p
    else
      let gravity :=
        if Num.gtb (vy p) 0 then gravity * FAST_FALL_MULT else gravity in
      set_vy (vy p + gravity * dt) p in
  if Num.gtb (vy p) MAX_FALL_SPEED then set_vy MAX_FALL_SPEED p else p.

(** The player's bounds as [resolveCollisions] computes them once, before
    its loops. *)
Record Bounds : Type :=
  mkBounds { left : Q; right : Q; top : Q; bottom : Q }.

Definition bounds (p : t) : Bounds :=
  {| left := x p - width p / 2; right := x p + width p / 2;
     top := y p - height p / 2; bottom := y p + height p / 2 |}.

(** [minOverlapX] and [minOverlapY] of the loop body for tile [(tx, ty)]. *)
Definition minOverlap (b : Bounds) (tx ty : Z) : Q * Q :=
  let tileX := inject_Z tx * TILE_SIZE in
  let tileY := inject_Z ty * TILE_SIZE in
  let overlapLeft := right b - tileX in
  let overlapRight := (tileX + TILE_SIZE) - left b in
  let overlapTop := bottom b - tileY in
  let overlapBottom := (tileY + TILE_SIZE) - top b in
  let minOverlapX :=
    if Num.ltb overlapLeft overlapRight then - overlapLeft else overlapRight in
  let minOverlapY :=
    if Num.ltb overlapTop overlapBottom then - overlapTop else overlapBottom in
  (minOverlapX, minOverlapY).

(** One iteration of the inner loop of [resolveCollisions]. *)
Definition resolveTile (level : Level.t) (b : Bounds) (ty : Z)
    (p : t) (tx : Z) : t :=
  if negb (isSolidTile level tx ty) then p
  else
    let '(minOverlapX, minOverlapY) := minOverlap b tx ty in
    if Num.ltb (Qabs minOverlapX) (Qabs minOverlapY) then
      let p := set_x (x p + minOverlapX) p in
      set_vx 0 p
    else
      let p := set_y (y p + minOverlapY) p in
      let p :=
        if Num.ltb minOverlapY 0
        then set_coyoteTimer COYOTE_TIME (set_grounded true p)
        else p in
      set_vy 0 p.

(** [resolveCollisions(level)] *)
Definition resolveCollisions (level : Level.t) (p : t) : t :=
  let p := set_grounded false p in
  let b := bounds p in
  let tileLeft := Qfloor (left b / TILE_SIZE) in
  let tileRight := Qfloor (right b / TILE_SIZE) in
  let tileTop := Qfloor (top b / TILE_SIZE) in
  let tileBottom := Qfloor (bottom b / TILE_SIZE) in
  fold_left
    (fun p ty => fold_left (resolveTile level b ty) (range tileLeft tileRight) p)
    (range tileTop tileBottom) p.

(** [updateAnimation(dt)] *)
Definition updateAnimation (dt : Q) (p : t) : t :=
  let p :=
    if grounded p && Num.gtb (Qabs (vx p)) 10
    then set_runTimer (runTimer p + dt * Qabs (vx p) / 100) p
    else p in
  set_squashStretch (lerp (squashStretch p) 1 (10 * dt)) p.

(** [onLand()] *)
Definition onLand (p : t) : t :=
  set_coyoteTimer COYOTE_TIME (set_squashStretch (13 # 10) p).

(** [update(input, level, dt)] *)
Definition update (input : Input.t) (level : Level.t) (dt : Q) (p : t) : t :=
  let wasGrounded := grounded p in
  let p := updateTimers dt p in
  let p := handleHorizontalMovement input dt p in
  let p := handleWallDetection input level p in
  let p := handleJumping input p in
  let p := applyGravity dt p in
  let p := set_x (x p + vx p * dt) p in
  let p := set_y (y p + vy p * dt) p in
  let p := resolveCollisions level p in
  let p := if grounded p && negb wasGrounded then onLand p else p in
  let p :=
    if Num.gtb (vx p) 10 then set_facingRight true p
    else if Num.ltb (vx p) (-10) then set_facingRight false p
    else p in
  updateAnimation dt p.

End Player.

(** ** game.js *)

(** What the host runtime provides to the game: the sequence of values
    [Math.random()] returns (the n-th call returns [Math_random n]), the
    trigonometric functions and constant the particle burst uses, the file
    reader [std.loadFile] and [JSON.parse]. *)
Module Runtime.
Record t : Type := mk {
  Math_random : nat -> Q;
  Math_cos : Q -> Q;
  Math_sin : Q -> Q;
  Math_PI : Q;
  std_loadFile : string -> option string;
  JSON_parse : string -> option LevelData.t
}.
End Runtime.

Inductive GameState : Type :=
  | MENU | PLAYING | PAUSED | DEAD | LEVEL_COMPLETE.

Module Camera.

Record t : Type := mk {
  x : Q; y : Q; targetX : Q; targetY : Q; zoom : Q;
  shakeAmount : Q; shakeTimer : Q
}.

Definition FOLLOW_SPEED : Q := 8.
Definition LOOK_AHEAD : Q := 50.

(** [new Camera()] *)
Definition new : t :=
  {| x := 0; y := 0; targetX := 0; targetY := 0; zoom := 1;
     shakeAmount := 0; shakeTimer := 0 |}.

(** [update(player, dt)]; [calls] counts the [Math.random()] calls made so
    far and is returned advanced. *)
Definition update (rt : Runtime.t) (player : Player.t) (dt : Q)
    (c : t) (calls : nat) : t * nat :=
  let lookAhead := if Player.facingRight player then LOOK_AHEAD else - LOOK_AHEAD in
  let targetX := Player.x player + lookAhead in
  let targetY := Player.y player in
  let x := x c + (targetX - x c) * FOLLOW_SPEED * dt in
  let y := y c + (targetY - y c) * FOLLOW_SPEED * dt in
  if Num.gtb (shakeTimer c) 0 then
    let shakeX := (Runtime.Math_random rt calls * 2 - 1) * shakeAmount c in
    let shakeY := (Runtime.Math_random rt (S calls) * 2 - 1) * shakeAmount c in
    ({| x := x + shakeX; y := y + shakeY;
        targetX := targetX; targetY := targetY; zoom := zoom c;
        shakeAmount := shakeAmount c * (9 # 10);
        shakeTimer := shakeTimer c - dt |}, S (S calls))
  else
    ({| x := x; y := y; targetX := targetX; targetY := targetY;
        zoom := zoom c; shakeAmount := shakeAmount c;
        shakeTimer := shakeTimer c |}, calls).

End Camera.

Module Particle.

Record t : Type := mk {
  x : Q; y : Q; vx : Q; vy : Q;
  life : Q; maxLife : Q; size : Q;
  r : Z; g : Z; b : Z; a : Z
}.

(** [new Particle(x, y)]: four [Math.random()] calls, in source order. *)
Definition new (rt : Runtime.t) (px py : Q) (calls : nat) : t * nat :=
  let angle := Runtime.Math_random rt calls * Runtime.Math_PI rt * 2 in
  let speed := 100 + Runtime.Math_random rt (S calls) * 200 in
  let life := (3 # 10) + Runtime.Math_random rt (S (S calls)) * (5 # 10) in
  ({| x := px; y := py;
      vx := Runtime.Math_cos rt angle * speed;
      vy := Runtime.Math_sin rt angle * speed;
      life := life; maxLife := life;
      size := 3 + Runtime.Math_random rt (S (S (S calls))) * 5;
      r := 230; g := 50; b := 25; a := 255 |},
   S (S (S (S calls)))).

Definition GRAVITY : Q := 500.

(** [update(dt)]: the returned boolean is the method's result (still
    alive), the particle is the object after the call. *)
Definition update (dt : Q) (p : t) : bool * t :=
  let life := life p - dt in
  if Num.leb life 0 then
    (false,
     {| x := x p; y := y p; vx := vx p; vy := vy p; life := life;
        maxLife := maxLife p; size := size p;
        r := r p; g := g p; b := b p; a := a p |})
  else
    let vy := vy p + GRAVITY * dt in
    let x := x p + vx p * dt in
    let y := y p + vy * dt in
    (true,
     {| x := x; y := y; vx := vx p; vy := vy; life := life;
        maxLife := maxLife p; size := size p;
        r := r p; g := g p; b := b p;
        a := Qfloor ((life / maxLife p) * 255) |}).

End Particle.

Module Game.

(** The [Game] object.  [level] is the level installed by [setLevel] or
    [createDefaultLevel], which [main.js] does before the first [update];
    [randomCalls] is the number of [Math.random()] calls made so far. *)
Record t : Type := mk {
  state : GameState;
  player : Player.t;
  level : Level.t;
  currentLevelIndex : Z;
  levelTime : Q;
  deathCount : Z;
  totalTime : Q;
  deathTimer : Q;
  camera : Camera.t;
  particles : list Particle.t;
  randomCalls : nat
}.

Definition set_state (v : GameState) (g : t) : t :=
  {| state := v; player := player g; level := level g;
     currentLevelIndex := currentLevelIndex g; levelTime := levelTime g;
     deathCount := deathCount g; totalTime := totalTime g;
     deathTimer := deathTimer g; camera := camera g;
     particles := particles g; randomCalls := randomCalls g |}.
Definition set_player (v : Player.t) (g : t) : t :=
  {| state := state g; player := v; level := level g;
     currentLevelIndex := currentLevelIndex g; levelTime := levelTime g;
     deathCount := deathCount g; totalTime := totalTime g;
     deathTimer := deathTimer g; camera := camera g;
     particles := particles g; randomCalls := randomCalls g |}.
Definition set_level (v : Level.t) (g : t) : t :=
  {| state := state g; player := player g; level := v;
     currentLevelIndex := currentLevelIndex g; levelTime := levelTime g;
     deathCount := deathCount g; totalTime := totalTime g;
     deathTimer := deathTimer g; camera := camera g;
     particles := particles g; randomCalls := randomCalls g |}.
Definition set_currentLevelIndex (v : Z) (g : t) : t :=
  {| state := state g; player := player g; level := level g;
     currentLevelIndex := v; levelTime := levelTime g;
     deathCount := deathCount g; totalTime := totalTime g;
     deathTimer := deathTimer g; camera := camera g;
     particles := particles g; randomCalls := randomCalls g |}.
Definition set_levelTime (v : Q) (g : t) : t :=
  {| state := state g; player := player g; level := level g;
     currentLevelIndex := currentLevelIndex g; levelTime := v;
     deathCount := deathCount g; totalTime := totalTime g;
     deathTimer := deathTimer g; camera := camera g;
     particles := particles g; randomCalls := randomCalls g |}.
Definition set_deathCount (v : Z) (g : t) : t :=
  {| state := state g; player := player g; level := level g;
     currentLevelIndex := currentLevelIndex g; levelTime := levelTime g;
     deathCount := v; totalTime := totalTime g; deathTimer := deathTimer g;
     camera := camera g; particles := particles g;
     randomCalls := randomCalls g |}.
Definition set_totalTime (v : Q) (g : t) : t :=
  {| state := state g; player := player g; level := level g;
     currentLevelIndex := currentLevelIndex g; levelTime := levelTime g;
     deathCount := deathCount g; totalTime := v; deathTimer := deathTimer g;
     camera := camera g; particles := particles g;
     randomCalls := randomCalls g |}.
Definition set_deathTimer (v : Q) (g : t) : t :=
  {| state := state g; player := player g; level := level g;
     currentLevelIndex := currentLevelIndex g; levelTime := levelTime g;
     deathCount := deathCount g; totalTime := totalTime g; deathTimer := v;
     camera := camera g; particles := particles g;
     randomCalls := randomCalls g |}.
Definition set_camera (v : Camera.t) (g : t) : t :=
  {| state := state g; player := player g; level := level g;
     currentLevelIndex := currentLevelIndex g; levelTime := levelTime g;
     deathCount := deathCount g; totalTime := totalTime g;
     deathTimer := deathTimer g; camera := v; particles := particles g;
     randomCalls := randomCalls g |}.
Definition set_particles (v : list Particle.t) (g : t) : t :=
  {| state := state g; player := player g; level := level g;
     currentLevelIndex := currentLevelIndex g; levelTime := levelTime g;
     deathCount := deathCount g; totalTime := totalTime g;
     deathTimer := deathTimer g; camera := camera g; particles := v;
     randomCalls := randomCalls g |}.
Definition set_randomCalls (v : nat) (g : t) : t :=
  {| state := state g; player := player g; level := level g;
     currentLevelIndex := currentLevelIndex g; levelTime := levelTime g;
     deathCount := deathCount g; totalTime := totalTime g;
     deathTimer := deathTimer g; camera := camera g;
     particles := particles g; randomCalls := v |}.

Definition DEATH_RESPAWN_TIME : Q := 5 # 10.

(** [new Game()], with [level] already installed. *)
Definition new (level : Level.t) : t :=
  {| state := MENU; player := Player.reset; level := level;
     currentLevelIndex := 0; levelTime := 0; deathCount := 0; totalTime := 0;
     deathTimer := 0; camera := Camera.new; particles := [];
     randomCalls := 0 |}.

(** [setLevel(level)] *)
Definition setLevel (lvl : Level.t) (g : t) : t := set_level lvl g.

(** [getPlayerRect()] *)
Definition getPlayerRect (g : t) : Rect.t :=
  {| Rect.x := Player.x (player g) - Player.width (player g) / 2;
     Rect.y := Player.y (player g) - Player.height (player g) / 2;
     Rect.width := Player.width (player g);
     Rect.height := Player.height (player g) |}.

(** [rectsOverlap(a, b)] *)
Definition rectsOverlap (a b : Rect.t) : bool :=
  Num.ltb (Rect.x a) (Rect.x b + Rect.width b) &&
  Num.gtb (Rect.x a + Rect.width a) (Rect.x b) &&
  Num.ltb (Rect.y a) (Rect.y b + Rect.height b) &&
  Num.gtb (Rect.y a + Rect.height a) (Rect.y b).

(** [checkHazardCollision()] *)
Definition checkHazardCollision (g : t) : bool :=
  let playerRect := getPlayerRect g in
  if existsb (fun hazard => rectsOverlap playerRect hazard) (Level.hazards (level g))
  then true
  else if Num.gtb (Player.y (player g))
            (inject_Z (Level.height (level g)) * TILE_SIZE + 100)
  then true
  else false.

(** [checkGoalCollision()] *)
Definition checkGoalCollision (g : t) : bool :=
  rectsOverlap (getPlayerRect g) (Level.goalRect (level g)).

(** [spawnPlayer()] *)
Definition spawnPlayer (g : t) : t :=
  let p := Player.reset in
  let p := Player.set_x (Level.spawnX (level g)) p in
  let p := Player.set_y (Level.spawnY (level g)) p in
  let p := Player.set_width PLAYER_WIDTH p in
  let p := Player.set_height PLAYER_HEIGHT p in
  let p := Player.set_facingRight true p in
  let c := camera g in
  let c :=
    {| Camera.x := Player.x p; Camera.y := Player.y p;
       Camera.targetX := Player.x p; Camera.targetY := Player.y p;
       Camera.zoom := Camera.zoom c;
       Camera.shakeAmount := Camera.shakeAmount c;
       Camera.shakeTimer := Camera.shakeTimer c |} in
  set_camera c (set_player p g).

(** [respawnPlayer()] *)
Definition respawnPlayer (g : t) : t := spawnPlayer g.

(** [completeLevel()] *)
Definition completeLevel (g : t) : t := set_state LEVEL_COMPLETE g.

Section WithRuntime.

Variable rt : Runtime.t.

(** The loop of [spawnDeathParticles]: [n] more particles are pushed. *)
Fixpoint pushParticles (n : nat) (px py : Q) (ps : list Particle.t)
    (calls : nat) : list Particle.t * nat :=
  match n with
  | O => (ps, calls)
  | S k =>
      let '(pt, calls) := Particle.new rt px py calls in
      pushParticles k px py (ps ++ [pt]) calls
  end.

(** [spawnDeathParticles(x, y)] *)
Definition spawnDeathParticles (px py : Q) (g : t) : t :=
  let PARTICLE_COUNT := 20%nat in
  let '(ps, calls) :=
    pushParticles PARTICLE_COUNT px py (particles g) (randomCalls g) in
  set_randomCalls calls (set_particles ps g).

(** [killPlayer()] *)
Definition killPlayer (g : t) : t :=
  let g := set_state DEAD g in
  let g := set_deathCount (deathCount g + 1)%Z g in
  let g := set_deathTimer DEATH_RESPAWN_TIME g in
  let g := spawnDeathParticles (Player.x (player g)) (Player.y (player g)) g in
  let c := camera g in
  set_camera
    {| Camera.x := Camera.x c; Camera.y := Camera.y c;
       Camera.targetX := Camera.targetX c; Camera.targetY := Camera.targetY c;
       Camera.zoom := Camera.zoom c;
       Camera.shakeAmount := 5; Camera.shakeTimer := 3 # 10 |} g.

(** [updateParticles(dt)]: [filter] keeps, in order, the particles whose
    [update] returned true, as that call left them. *)
Definition updateParticles (dt : Q) (g : t) : t :=
  let step (p : Particle.t) :=
    let '(alive, p) := Particle.update dt p in
    if alive then [p] else [] in
  set_particles (flat_map step (particles g)) g.

(** [updateMenu(input)] *)
Definition updateMenu (input : Input.t) (g : t) : t :=
  if Input.jumpPressed input || Input.startPressed input
  then spawnPlayer (set_state PLAYING g)
  else g.

(** [updatePlaying(input, dt)] *)
Definition updatePlaying (input : Input.t) (dt : Q) (g : t) : t :=
  if Input.pausePressed input then set_state PAUSED g
  else
    let g := set_player (Player.update input (level g) dt (player g)) g in
    if checkHazardCollision g then killPlayer g
    else if checkGoalCollision g then completeLevel g
    else
      let '(c, calls) :=
        Camera.update rt (player g) dt (camera g) (randomCalls g) in
      let g := set_randomCalls calls (set_camera c g) in
      let g := set_levelTime (levelTime g + dt) g in
      set_totalTime (totalTime g + dt) g.

(** [updateDead(dt)] *)
Definition updateDead (dt : Q) (g : t) : t :=
  let g := set_deathTimer (deathTimer g - dt) g in
  if Num.leb (deathTimer g) 0
  then set_state PLAYING (respawnPlayer g)
  else g.

(** [if (levelData) { level = loadLevel(levelData); if (level) ... }]: the
    empty string is falsy, like a missing file. *)
Definition tryLoad (path : string) : option (option Level.t) :=
  match Runtime.std_loadFile rt path with
  | Some levelData =>
      if String.eqb levelData "" then None
      else Some (loadLevel (Runtime.JSON_parse rt) levelData)
  | None => None
  end.

(** [updateLevelComplete(input)] *)
Definition updateLevelComplete (input : Input.t) (g : t) : t :=
  if Input.jumpPressed input || Input.startPressed input then
    let g := set_currentLevelIndex (currentLevelIndex g + 1)%Z g in
    let nextLevelPath :=
      ("assets/levels/level" ++ Num.showZ (currentLevelIndex g + 1) ++ ".json")%string in
    let install (loaded : option Level.t) (g : t) :=
      match loaded with Some lvl => set_level lvl g | None => g end in
    let g :=
      match tryLoad nextLevelPath with
      | Some loaded => install loaded g
      | None =>
          let g := set_currentLevelIndex 0%Z g in
          match tryLoad "assets/levels/level1.json" with
          | Some loaded => install loaded g
          | None => g
          end
      end in
    let g := spawnPlayer g in
    let g := set_levelTime 0 g in
    set_state PLAYING g
  else g.

(** [update(input, dt)] *)
Definition update (input : Input.t) (dt : Q) (g : t) : t :=
  let g :=
    match state g with
    | MENU => updateMenu input g
    | PLAYING => updatePlaying input dt g
    | DEAD => updateDead dt g
    | LEVEL_COMPLETE => updateLevelComplete input g
    | PAUSED =>
        if Input.pausePressed input then set_state PLAYING g else g
    end in
  updateParticles dt g.

End WithRuntime.

End Game.

(** ** main.js: the frame loop *)

(** A run of the main loop: one [game.update(input, dt)] per frame, on the
    inputs and time steps the loop obtained. *)
Definition runFrames (rt : Runtime.t) (frames : list (Input.t * Q))
    (g : Game.t) : Game.t :=
  fold_left (fun g frame => Game.update rt (fst frame) (snd frame) g) frames g.

(** ** Vocabulary of the properties *)

(** The state a landing leaves behind. *)
Definition Landed (p : Player.t) : Prop :=
  Player.vy p = 0 /\ Player.grounded p = true /\
  Player.coyoteTimer p = COYOTE_TIME.

(** Tile [(tx, ty)] is one the resolver visits for bounds [b]. *)
Definition scanned (b : Player.Bounds) (tx ty : Z) : Prop :=
  (Qfloor (Player.left b / TILE_SIZE) <= tx <= Qfloor (Player.right b / TILE_SIZE))%Z /\
  (Qfloor (Player.top b / TILE_SIZE) <= ty <= Qfloor (Player.bottom b / TILE_SIZE))%Z.

(** The resolver pushes the player up out of tile [(tx, ty)]: the tile is
    Solid, the vertical axis is chosen and the signed push is negative. *)
Definition resolvesUpward (level : Level.t) (b : Player.Bounds) (tx ty : Z) : Prop :=
  isSolidTile level tx ty = true /\
  ~ Qabs (fst (Player.minOverlap b tx ty)) < Qabs (snd (Player.minOverlap b tx ty)) /\
  snd (Player.minOverlap b tx ty) < 0.

(** The three countdown timers of the player. *)
Definition timers : list (Player.t -> Q) :=
  [Player.coyoteTimer; Player.jumpBufferTimer; Player.wallJumpCooldown].

(** [handleJumping] launches a jump from state [p] on [input]. *)
Definition launches (input : Input.t) (p : Player.t) : bool :=
  (Input.jumpPressed input || Num.gtb (Player.jumpBufferTimer p) 0) &&
  (Player.wallSliding p || Player.grounded p || Num.gtb (Player.coyoteTimer p) 0).


(** [Math.random()] returns values in [0, 1). *)
Definition unitDraws (rt : Runtime.t) : Prop :=
  forall n : nat, 0 <= Runtime.Math_random rt n < 1.

(** The player's state when [handleJumping] reaches its launch decision. *)
Definition wallSlideRequest (input : Input.t) (p : Player.t) : Prop :=
  Player.wallSliding p = true /\
  (Player.wallDirection p = (-1)%Z \/ Player.wallDirection p = 1%Z) /\
  (Input.jumpPressed input = true \/ 0 < Player.jumpBufferTimer p).

(** The player [spawnPlayer] leaves at world position [(sx, sy)]. *)
Definition spawned (sx sy : Q) : Player.t :=
  Player.mk sx sy PLAYER_WIDTH PLAYER_HEIGHT 0 0 false false 0%Z true
    false false 0 0 0 0 1.

(** *** Concrete data used by the examples *)

(** A runtime whose random source always returns one half, with no level
    files. *)
Definition sampleRuntime : Runtime.t :=
  {| Runtime.Math_random := fun _ => 1 # 2;
     Runtime.Math_cos := fun _ => 1;
     Runtime.Math_sin := fun _ => 0;
     Runtime.Math_PI := 355 # 113;
     Runtime.std_loadFile := fun _ => None;
     Runtime.JSON_parse := fun _ => None |}.

(** A 4 x 3 level: open, with a Solid bottom row. *)
Definition tinyLevel : Level.t :=
  {| Level.width := 4; Level.height := 3;
     Level.tiles := [0; 0; 0; 0;  0; 0; 0; 0;  1; 1; 1; 1]%Z;
     Level.hazards := []; Level.spawnX := 24; Level.spawnY := 24;
     Level.goalRect := Rect.mk 48 0 16 16;
     Level.backgroundColor := (25, 25, 40)%Z;
     Level.name := "Tiny"; Level.parTime := 5 |}.


Definition noInput : Input.t :=
  {| Input.moveX := 0; Input.moveY := 0; Input.jumpPressed := false;
     Input.jumpHeld := false; Input.pausePressed := false;
     Input.startPressed := false |}.

(** An open 40 x 23 level with spawn tile (3, 19); [hazards] and [goal] are
    given in tile units, as in a level file. *)
Definition openLevelData (hazards : list JsonRect.t) (goal : JsonRect.t) :
    LevelData.t :=
  {| LevelData.name := Some "Open"%string;
     LevelData.par_time := Some 15;
     LevelData.width := Some 40%Z;
     LevelData.height := Some 23%Z;
     LevelData.tiles := None;
     LevelData.spawn := Some (JsonPoint.mk (Some 3) (Some 19));
     LevelData.goal := Some goal;
     LevelData.hazards := Some hazards;
     LevelData.background_color := None |}.

Definition tileRect (tx ty w h : Q) : JsonRect.t :=
  JsonRect.mk (Some tx) (Some ty) (Some w) (Some h).

(** The level [loadLevel] builds from [openLevelData]. *)
Definition openLevel (hazards : list JsonRect.t) (goal : JsonRect.t) : Level.t :=
  match loadLevelData (openLevelData hazards goal) with
  | Some l => l
  | None => Level.new
  end.

(** A session in the Playing state whose player was just spawned. *)
Definition startPlaying (level : Level.t) : Game.t :=
  Game.updateMenu
    {| Input.moveX := 0; Input.moveY := 0; Input.jumpPressed := true;
       Input.jumpHeld := true; Input.pausePressed := false;
       Input.startPressed := false |}
    (Game.new level).

(** ** input.js: polling the pad *)

(** The pad as [Input.update] reads it: which buttons are down, and the
    left stick's axes (0 to 255, 128 at rest). *)
Inductive Button : Type :=
  | LEFT | RIGHT | UP | DOWN | CROSS | R1 | R2 | START | SELECT.

Module Pad.
Record t : Type := mk {
  pressed : Button -> bool;
  lx : Z;
  ly : Z
}.
End Pad.

(** The [Input] object with all its fields: the intent the game reads and
    the previous-frame values [update] keeps for edge detection. *)
Module Controller.

Record t : Type := mk {
  moveX : Q;
  moveY : Q;
  jumpPressed : bool;
  jumpHeld : bool;
  pausePressed : bool;
  startPressed : bool;
  prevJumpHeld : bool;
  prevStartHeld : bool;
  prevPauseHeld : bool
}.

Definition DEAD_ZONE : Z := 30.

(** [new Input()] *)
Definition new : t :=
  {| moveX := 0; moveY := 0; jumpPressed := false; jumpHeld := false;
     pausePressed := false; startPressed := false;
     prevJumpHeld := false; prevStartHeld := false; prevPauseHeld := false |}.

(** One axis: the D-pad value if a direction is down, else the stick
    outside the dead zone, else 0. *)
Definition axis (negative positive : bool) (stick : Z) : Q :=
  let move := if negative then - (1) else if positive then 1 else 0 in
  if Qeq_bool move 0 then
    let l := (stick - 128)%Z in
    if (Z.abs l >? DEAD_ZONE)%Z then inject_Z l / 128 else move
  else move.

(** [update()], on the pad state [Pads.get(0)] gives after [pad.update()]. *)
Definition update (pad : Pad.t) (c : t) : t :=
  let prevJumpHeld := jumpHeld c in
  let prevStartHeld := startPressed c in
  let prevPauseHeld := pausePressed c in
  let moveX := axis (Pad.pressed pad LEFT) (Pad.pressed pad RIGHT) (Pad.lx pad) in
  let moveY := axis (Pad.pressed pad UP) (Pad.pressed pad DOWN) (Pad.ly pad) in
  let jumpHeld :=
    Pad.pressed pad CROSS || Pad.pressed pad R1 || Pad.pressed pad R2 in
  let jumpPressed := jumpHeld && negb prevJumpHeld in
  let startHeld := Pad.pressed pad START in
  let startEdge := startHeld && negb prevStartHeld in
  let selectHeld := Pad.pressed pad SELECT in
  let selectEdge := selectHeld && negb prevPauseHeld in
  {| moveX := moveX; moveY := moveY;
     jumpPressed := jumpPressed; jumpHeld := jumpHeld;
     pausePressed := startEdge || selectEdge;
     startPressed := startEdge;
     prevJumpHeld := prevJumpHeld; prevStartHeld := prevStartHeld;
     prevPauseHeld := prevPauseHeld |}.

(** The fields the game reads. *)
Definition intent (c : t) : Input.t :=
  {| Input.moveX := moveX c; Input.moveY := moveY c;
     Input.jumpPressed := jumpPressed c; Input.jumpHeld := jumpHeld c;
     Input.pausePressed := pausePressed c;
     Input.startPressed := startPressed c |}.

End Controller.

(** Successive polls of the pad. *)
Definition polls (pads : list Pad.t) (c : Controller.t) : Controller.t :=
  fold_left (fun c pad => Controller.update pad c) pads c.

(** A pad at rest but for the given buttons. *)
Definition padWith (down : Button -> bool) : Pad.t :=
  {| Pad.pressed := down; Pad.lx := 128; Pad.ly := 128 |}.

Definition onlyStart (b : Button) : bool :=
  match b with START => true | _ => false end.

(** *** Vocabulary of the further properties *)

(** The level's tile array has one cell per tile of a [width] x [height]
    grid, as [loadLevel] and [createDefaultLevel] allocate it. *)
Definition gridSized (l : Level.t) : Prop :=
  (0 <= Level.width l)%Z /\ (0 <= Level.height l)%Z /\
  List.length (Level.tiles l) = Z.to_nat (Level.width l * Level.height l).

(** Tile coordinates inside the grid. *)
Definition inGrid (l : Level.t) (x y : Z) : Prop :=
  (0 <= x < Level.width l)%Z /\ (0 <= y < Level.height l)%Z.

(** Cell [(x, y)] of the [tiles] array of a level file: [rows[y][x]], or
    Empty where the file has no such row or cell. *)
Definition fileCell (rows : option (list (list Z))) (x y : Z) : Z :=
  match rows with
  | Some rs => nth (Z.to_nat x) (nth (Z.to_nat y) rs []) TileType.EMPTY
  | None => TileType.EMPTY
  end.

(** A 3 x 2 level file whose [tiles] has a row that is too long, one that
    is too short and one beyond the declared height, and whose spawn column
    is 0. *)
Definition raggedData : LevelData.t :=
  {| LevelData.name := None; LevelData.par_time := None;
     LevelData.width := Some 3%Z; LevelData.height := Some 2%Z;
     LevelData.tiles := Some [[0; 1; 2; 1; 1]; [1]; [1; 1; 1]]%Z;
     LevelData.spawn := Some (JsonPoint.mk (Some 0) (Some 1));
     LevelData.goal := None;
     LevelData.hazards := None; LevelData.background_color := None |}.

(** The level [loadLevel] builds from parsed [data] ([new Level()] stands
    for [null]). *)
Definition loaded (data : LevelData.t) : Level.t :=
  match loadLevelData data with
  | Some l => l
  | None => Level.new
  end.

(** Player [q] has the width and height of player [p]. *)
Definition sameBody (p q : Player.t) : Prop :=
  Player.width q = Player.width p /\ Player.height q = Player.height p.

(** A particle as [new Particle(px, py)] makes it, for some random draws
    in [0, 1). *)
Definition freshParticle (px py : Q) (pt : Particle.t) : Prop :=
  Particle.x pt = px /\ Particle.y pt = py /\
  3 # 10 <= Particle.life pt /\ Particle.life pt < 8 # 10 /\
  Particle.maxLife pt = Particle.life pt /\
  3 <= Particle.size pt /\ Particle.size pt < 8 /\
  Particle.a pt = 255%Z.

(** [updateParticles] alone, over the time steps of successive frames. *)
Definition ageParticles (dts : list Q) (g : Game.t) : Game.t :=
  fold_left (fun g dt => Game.updateParticles dt g) dts g.

(** Particle [q] is particle [p] at a later time: the same particle, with
    no more life left than [p] has. *)
Definition agedFrom (p q : Particle.t) : Prop :=
  Particle.life q <= Particle.life p /\
  Particle.maxLife q = Particle.maxLife p /\
  Particle.size q = Particle.size p.

(** The path [updateLevelComplete] asks for when the session's level
    index is [idx]: the index is incremented first, and files are numbered
    from 1. *)
Definition nextLevelPath (idx : Z) : string :=
  ("assets/levels/level" ++ Num.showZ (idx + 1 + 1) ++ ".json")%string.

(** [content] is what [std.loadFile] gives for [path], and it is truthy. *)
Definition fileHolds (rt : Runtime.t) (path content : string) : Prop :=
  Runtime.std_loadFile rt path = Some content /\ content <> ""%string.

(** There is no usable file at [path]: [std.loadFile] gives nothing, or
    the empty string. *)
Definition fileMissing (rt : Runtime.t) (path : string) : Prop :=
  Runtime.std_loadFile rt path = None \/
  Runtime.std_loadFile rt path = Some ""%string.

(** A runtime with two level files: level 1 is the open level, level 2
    the ragged one; there is no level 3. *)
Definition twoLevelRuntime : Runtime.t :=
  {| Runtime.Math_random := fun _ => 1 # 2;
     Runtime.Math_cos := fun _ => 1;
     Runtime.Math_sin := fun _ => 0;
     Runtime.Math_PI := 355 # 113;
     Runtime.std_loadFile :=
       fun path =>
         if String.eqb path "assets/levels/level1.json" then Some "one"%string
         else if String.eqb path "assets/levels/level2.json"
              then Some "two"%string
              else None;
     Runtime.JSON_parse :=
       fun text =>
         if String.eqb text "one"
         then Some (openLevelData [] (tileRect 36 3 2 3))
         else if String.eqb text "two" then Some raggedData else None |}.

(** * Properties *)

(** ** Comparisons *)

Lemma ltbP (a b : Q) : reflect (a < b) (Num.ltb a b).
Proof.
  unfold Num.ltb. destruct (a ?= b) eqn:E; constructor.
  - rewrite Qlt_alt. congruence.
  - now apply Qlt_alt.
  - rewrite Qlt_alt. congruence.
Qed.

Lemma gtbP (a b : Q) : reflect (b < a) (Num.gtb a b).
Proof. unfold Num.gtb. apply ltbP. Qed.

Lemma lebP (a b : Q) : reflect (a <= b) (Num.leb a b).
Proof.
  unfold Num.leb. destruct (ltbP b a); constructor.
  - now apply Qlt_not_le.
  - now apply Qnot_lt_le.
Qed.

Lemma In_range (lo hi z : Z) : In z (range lo hi) <-> (lo <= z <= hi)%Z.
Proof.
  unfold range. rewrite in_map_iff. split.
  - intros [i [<- Hi]]. apply in_seq in Hi. lia.
  - intros H. exists (Z.to_nat (z - lo)). split; [lia|].
    apply in_seq. lia.
Qed.

(** ** Level queries *)

Lemma isSolidTile_outside_x (l : Level.t) (x y : Z) :
  (x < 0 \/ x >= Level.width l)%Z -> isSolidTile l x y = true.
Proof.
  intros H. unfold isSolidTile.
  destruct (x <? 0)%Z eqn:E1; [reflexivity|].
  destruct (x >=? Level.width l)%Z eqn:E2; [reflexivity|]. lia.
Qed.

Lemma getTile_outside_x (l : Level.t) (x y : Z) :
  (x < 0 \/ x >= Level.width l)%Z -> getTile l x y = TileType.SOLID.
Proof.
  intros H. unfold getTile.
  destruct (x <? 0)%Z eqn:E1; [reflexivity|].
  destruct (x >=? Level.width l)%Z eqn:E2; [reflexivity|]. lia.
Qed.

Lemma inside_x_guard (l : Level.t) (x : Z) :
  (0 <= x < Level.width l)%Z ->
  ((x <? 0) || (x >=? Level.width l))%Z = false.
Proof. intros H. apply orb_false_iff. split; lia. Qed.

(** C2, as amended.  Outside the horizontal range both queries answer
    Solid, whatever [y] is.  Above the level ([y < 0]) [isSolidTile]
    answers true, and [getTile] answers Empty when [x] is inside the
    horizontal range.  Below it ([y >= height], the height being a tile
    count, so not negative) and inside the horizontal range [isSolidTile]
    answers false and [getTile] Empty. *)
Theorem level_queries_out_of_bounds (l : Level.t) (x y : Z) :
  ((x < 0 \/ x >= Level.width l)%Z ->
     isSolidTile l x y = true /\ getTile l x y = TileType.SOLID) /\
  ((y < 0)%Z -> isSolidTile l x y = true) /\
  ((0 <= x < Level.width l)%Z -> (y < 0)%Z ->
     getTile l x y = TileType.EMPTY) /\
  ((0 <= x < Level.width l)%Z -> (0 <= Level.height l <= y)%Z ->
     isSolidTile l x y = false /\ getTile l x y = TileType.EMPTY).
Proof.
  split; [|split; [|split]].
  - intros H. split; [now apply isSolidTile_outside_x | now apply getTile_outside_x].
  - intros Hy. unfold isSolidTile.
    destruct (_ || _)%bool; [reflexivity|].
    assert (E : (y <? 0)%Z = true) by lia. now rewrite E.
  - intros Hx Hy. unfold getTile.
    rewrite (inside_x_guard l x Hx).
    assert (E : (y <? 0)%Z = true) by lia. now rewrite E.
  - intros Hx Hy. unfold isSolidTile, getTile.
    rewrite (inside_x_guard l x Hx).
    assert (E : (y >=? Level.height l)%Z = true) by lia. rewrite E.
    rewrite orb_true_r.
    destruct (y <? 0)%Z eqn:E0; [|split; reflexivity].
    exfalso. lia.
Qed.

Lemma level_queries_out_of_bounds_witness :
  (isSolidTile tinyLevel (-1) 1 = true /\
   getTile tinyLevel (-1) 1 = TileType.SOLID) /\
  isSolidTile tinyLevel (-1) (-1) = true /\
  getTile tinyLevel 2 (-1) = TileType.EMPTY /\
  (isSolidTile tinyLevel 2 3 = false /\
   getTile tinyLevel 2 3 = TileType.EMPTY).
Proof.
  split; [|split; [|split]].
  - destruct (level_queries_out_of_bounds tinyLevel (-1) 1) as [H _].
    apply H. left. reflexivity.
  - destruct (level_queries_out_of_bounds tinyLevel (-1) (-1)) as [_ [H _]].
    apply H. reflexivity.
  - destruct (level_queries_out_of_bounds tinyLevel 2 (-1)) as [_ [_ [H _]]].
    apply H; simpl; lia.
  - destruct (level_queries_out_of_bounds tinyLevel 2 3) as [_ [_ [_ H]]].
    apply H; simpl; lia.
Defined.

(** C2 as stated fails where both coordinates are out of range: the
    horizontal test comes first in both functions.  Below the level and
    left of it [isSolidTile] answers true, and above the level and left of
    it [getTile] answers Solid. *)
Lemma level_queries_vertical_counterexample :
  (3 >= Level.height tinyLevel)%Z /\
  isSolidTile tinyLevel (-1) 3 <> false /\
  (-1 < 0)%Z /\
  getTile tinyLevel (-1) (-1) <> TileType.EMPTY.
Proof.
  split; [|split; [|split]];
    [simpl; lia | vm_compute; discriminate
    | reflexivity | vm_compute; discriminate].
Qed.

(** ** Timers *)

Lemma max0_pos (a : Q) : 0 < Num.max 0 a <-> 0 < a.
Proof. unfold Num.max. destruct (ltbP 0 a); intuition lra. Qed.

(** C4, as amended.  For [dt > 0], [updateTimers] decreases by [dt] each
    countdown timer that is positive and leaves the others as they are.  The
    result can be negative, though never below [-dt] for a timer that was
    not negative, and it is positive exactly when [max(0, previous - dt)]
    is. *)
Theorem updateTimers_guarded_countdown (dt : Q) (p : Player.t) :
  0 < dt ->
  Forall
    (fun timer : Player.t -> Q =>
       let before := timer p in
       let after := timer (Player.updateTimers dt p) in
       (0 < before -> after = before - dt) /\
       (~ 0 < before -> after = before) /\
       (0 < after <-> 0 < Num.max 0 (before - dt)) /\
       (0 <= before -> - dt <= after))
    timers.
Proof.
  intros Hdt. unfold timers. destruct p. unfold Player.updateTimers. cbn.
  destruct (gtbP coyoteTimer 0); cbn;
  destruct (gtbP jumpBufferTimer 0); cbn;
  destruct (gtbP wallJumpCooldown 0); cbn;
  repeat constructor; cbn; intros; cbn in *; rewrite ?max0_pos in *;
    try reflexivity; try tauto; try lra.
Qed.

Lemma updateTimers_guarded_countdown_witness :
  Forall
    (fun timer : Player.t -> Q =>
       let before := timer (Player.set_coyoteTimer COYOTE_TIME Player.reset) in
       let after :=
         timer (Player.updateTimers (1 # 60)
                  (Player.set_coyoteTimer COYOTE_TIME Player.reset)) in
       (0 < before -> after = before - (1 # 60)) /\
       (~ 0 < before -> after = before) /\
       (0 < after <-> 0 < Num.max 0 (before - (1 # 60))) /\
       (0 <= before -> - (1 # 60) <= after))
    timers.
Proof.
  apply (updateTimers_guarded_countdown (1 # 60)
           (Player.set_coyoteTimer COYOTE_TIME Player.reset)).
  reflexivity.
Defined.

(** C4 as stated fails: a coyote timer at its full window, ticked by the
    largest time step the main loop passes (0.1), ends negative, where
    [max(0, previous - dt)] is zero. *)
Lemma updateTimers_floor_counterexample :
  let p := Player.set_coyoteTimer COYOTE_TIME Player.reset in
  let after := Player.coyoteTimer (Player.updateTimers (1 # 10) p) in
  0 < 1 # 10 /\
  after < 0 /\
  ~ after == Num.max 0 (Player.coyoteTimer p - (1 # 10)).
Proof.
  cbv zeta. split; [reflexivity|]. split; [reflexivity|].
  vm_compute. discriminate.
Qed.

(** ** Gravity *)

(** C3: the claim does not hold of the code.  A wall-sliding player
    falling faster than the slide-speed ceiling is clamped to it, but one
    falling exactly at the ceiling is not (the test is a strict [>]) and
    gains the reduced gravity of the frame, unclamped: at 60 frames a second
    [vy] leaves the next [applyGravity] as 86, above the ceiling of 80. *)
Theorem applyGravity_wall_slide_overshoot :
  let fast := Player.set_wallSliding true (Player.set_vy 100 Player.reset) in
  let clamped := Player.applyGravity (1 # 60) fast in
  let next := Player.applyGravity (1 # 60) clamped in
  Player.wallSliding clamped = true /\
  Player.vy clamped = WALL_SLIDE_SPEED /\
  Player.vy next == 86 /\
  WALL_SLIDE_SPEED < Player.vy next.
Proof. cbv zeta. repeat split. Qed.

(** ** Jumping *)

Lemma handleJumping_launch_idle (input : Input.t) (p : Player.t) :
  launches input p = false ->
  Player.vy (Player.handleJumping_launch input p) = Player.vy p /\
  Player.canVariableJump (Player.handleJumping_launch input p)
    = Player.canVariableJump p.
Proof.
  unfold launches, Player.handleJumping_launch. destruct p, input. cbn.
  destruct jumpPressed; cbn.
  - change (Num.gtb JUMP_BUFFER_TIME 0) with true. cbn.
    intros H. rewrite <- orb_assoc in H. apply orb_false_iff in H.
    destruct H as [-> ->]. cbn. split; reflexivity.
  - destruct (Num.gtb jumpBufferTimer 0); cbn; [|split; reflexivity].
    intros H. rewrite <- orb_assoc in H. apply orb_false_iff in H.
    destruct H as [-> ->]. cbn. split; reflexivity.
Qed.

Lemma handleJumping_cut_disarmed (p : Player.t) :
  Player.canVariableJump p = false -> Player.handleJumping_cut p = p.
Proof.
  intros H. unfold Player.handleJumping_cut. rewrite H.
  now rewrite andb_false_r.
Qed.

(** C5.  When the jump input is released and the player reaches the
    variable-jump rule of [handleJumping] moving upward with
    [canVariableJump] set, [vy] leaves the call multiplied by the cut factor
    and the flag is cleared.  The state reaching the rule is the incoming
    one unless a jump is launched in the same call.  A later call that
    launches no jump finds the flag cleared and leaves [vy] as it is,
    whether the input is released or held. *)
Theorem variable_jump_cut_once (input : Input.t) (p : Player.t) :
  Input.jumpHeld input = false ->
  let q := Player.handleJumping_launch input p in
  Player.vy q < 0 ->
  Player.canVariableJump q = true ->
  let r := Player.handleJumping input p in
  Player.vy r = Player.vy q * JUMP_CUT_MULT /\
  Player.canVariableJump r = false /\
  (launches input p = false ->
     Player.vy q = Player.vy p /\
     Player.canVariableJump q = Player.canVariableJump p) /\
  (forall input' : Input.t,
     launches input' r = false ->
     Player.vy (Player.handleJumping input' r) = Player.vy r /\
     Player.canVariableJump (Player.handleJumping input' r) = false).
Proof.
  intros Hheld q Hvy Hflag r.
  assert (Hq : Player.jumpHeld q = false).
  { subst q. unfold Player.handleJumping_launch.
    destruct p, input; cbn in *. subst.
    repeat match goal with |- context [if ?c then _ else _] => destruct c end;
      reflexivity. }
  assert (Hr : r = Player.set_canVariableJump false
                     (Player.set_vy (Player.vy q * JUMP_CUT_MULT) q)).
  { subst r. unfold Player.handleJumping. fold q.
    unfold Player.handleJumping_cut. rewrite Hq, Hflag.
    destruct (ltbP (Player.vy q) 0); [reflexivity | contradiction]. }
  assert (Hflag' : Player.canVariableJump r = false) by (rewrite Hr; reflexivity).
  split; [rewrite Hr; reflexivity|].
  split; [exact Hflag'|].
  split; [apply handleJumping_launch_idle|].
  intros input' Hidle.
  destruct (handleJumping_launch_idle input' r Hidle) as [Ev Ef].
  unfold Player.handleJumping.
  rewrite handleJumping_cut_disarmed by congruence.
  split; congruence.
Qed.

Lemma variable_jump_cut_once_witness :
  let p := Player.groundJump Player.reset in
  Player.vy (Player.handleJumping noInput p) = Player.vy p * JUMP_CUT_MULT /\
  Player.canVariableJump (Player.handleJumping noInput p) = false /\
  Player.vy (Player.handleJumping noInput (Player.handleJumping noInput p))
    = Player.vy (Player.handleJumping noInput p).
Proof.
  intros p.
  pose proof (variable_jump_cut_once noInput p eq_refl eq_refl eq_refl) as H.
  cbv zeta in H. destruct H as [H1 [H2 [_ H4]]].
  split; [exact H1|]. split; [exact H2|].
  exact (proj1 (H4 noInput eq_refl)).
Defined.

Lemma handleJumping_launch_wants (input : Input.t) (p : Player.t) :
  Input.jumpPressed input = true \/ 0 < Player.jumpBufferTimer p ->
  Num.gtb
    (Player.jumpBufferTimer
       (if Input.jumpPressed input
        then Player.set_jumpBufferTimer JUMP_BUFFER_TIME p else p)) 0 = true.
Proof.
  intros [H | H].
  - rewrite H. reflexivity.
  - destruct (Input.jumpPressed input); [reflexivity|].
    destruct (gtbP (Player.jumpBufferTimer p) 0); [reflexivity | contradiction].
Qed.

(** The launch block of [handleJumping] on a wall-slide request: the
    state the variable-jump rule then sees. *)
Lemma handleJumping_launch_wall_jump (input : Input.t) (p : Player.t) :
  wallSlideRequest input p ->
  Player.handleJumping_launch input p
  = Player.set_jumpBufferTimer 0
      (Player.wallJump
         (Player.set_jumpHeld (Input.jumpHeld input)
            (if Input.jumpPressed input
             then Player.set_jumpBufferTimer JUMP_BUFFER_TIME p
             else p))).
Proof.
  intros [Hslide [Hdir Hwant]]. unfold Player.handleJumping_launch.
  pose proof (handleJumping_launch_wants input p Hwant) as Hw.
  destruct (Input.jumpPressed input); destruct p; cbn in *;
    rewrite ?Hw; subst; reflexivity.
Qed.

(** C6, as amended.  From a wall-sliding state with a wall on one side, a
    buffered jump request makes [handleJumping] perform a wall jump.  The
    call returns with [vx] at [-wallDirection * WALL_JUMP_FORCE_X] (320 away
    from the wall), wall-sliding cleared, the cooldown at
    [WALL_JUMP_COOLDOWN], the jump buffer at zero and the player facing away
    from the wall.  With the jump input held it returns [vy] at
    [-WALL_JUMP_FORCE_Y] and [canVariableJump] set; with the input released
    the variable-jump rule cuts the jump in the same call, and it returns
    [vy] at [-WALL_JUMP_FORCE_Y * JUMP_CUT_MULT] (-152) and the flag
    cleared. *)
Theorem wall_jump_from_wall_slide (input : Input.t) (p : Player.t) :
  wallSlideRequest input p ->
  let r := Player.handleJumping input p in
  Player.vx r = - inject_Z (Player.wallDirection p) * WALL_JUMP_FORCE_X /\
  Player.wallSliding r = false /\
  Player.wallJumpCooldown r = WALL_JUMP_COOLDOWN /\
  Player.jumpBufferTimer r = 0 /\
  Player.facingRight r = (Player.wallDirection p <? 0)%Z /\
  (Player.wallDirection p = (-1)%Z ->
     Player.vx r == 320 /\ Player.facingRight r = true) /\
  (Player.wallDirection p = 1%Z ->
     Player.vx r == - (320) /\ Player.facingRight r = false) /\
  (Input.jumpHeld input = true ->
     Player.vy r = - WALL_JUMP_FORCE_Y /\ Player.canVariableJump r = true) /\
  (Input.jumpHeld input = false ->
     Player.vy r = - WALL_JUMP_FORCE_Y * JUMP_CUT_MULT /\
     Player.vy r == - (152) /\
     Player.canVariableJump r = false).
Proof.
  intros Hreq r.
  pose proof (handleJumping_launch_wall_jump input p Hreq) as Hq.
  destruct Hreq as [Hslide [Hdir Hwant]].
  set (p0 := if Input.jumpPressed input
             then Player.set_jumpBufferTimer JUMP_BUFFER_TIME p else p) in Hq.
  assert (Hwd : Player.wallDirection p0 = Player.wallDirection p)
    by (unfold p0; destruct (Input.jumpPressed input); reflexivity).
  assert (Hr : r = if Input.jumpHeld input
                   then Player.handleJumping_launch input p
                   else Player.set_canVariableJump false
                          (Player.set_vy (- WALL_JUMP_FORCE_Y * JUMP_CUT_MULT)
                             (Player.handleJumping_launch input p))).
  { subst r. unfold Player.handleJumping. rewrite Hq.
    unfold Player.handleJumping_cut.
    destruct (Input.jumpHeld input); reflexivity. }
  assert (Hvx : Player.vx r
                = - inject_Z (Player.wallDirection p) * WALL_JUMP_FORCE_X).
  { rewrite Hr, Hq, <- Hwd. destruct (Input.jumpHeld input); reflexivity. }
  assert (Hface : Player.facingRight r = (Player.wallDirection p <? 0)%Z).
  { rewrite Hr, Hq, <- Hwd. destruct (Input.jumpHeld input); reflexivity. }
  split; [exact Hvx|].
  split; [rewrite Hr, Hq; destruct (Input.jumpHeld input); reflexivity|].
  split; [rewrite Hr, Hq; destruct (Input.jumpHeld input); reflexivity|].
  split; [rewrite Hr, Hq; destruct (Input.jumpHeld input); reflexivity|].
  split; [exact Hface|].
  split; [intros E; rewrite Hvx, Hface, E; split; reflexivity|].
  split; [intros E; rewrite Hvx, Hface, E; split; reflexivity|].
  split; intros E; rewrite Hr, Hq, E; repeat split.
Qed.

Lemma wall_jump_from_wall_slide_witness :
  let released :=
    {| Input.moveX := 1; Input.moveY := 0; Input.jumpPressed := true;
       Input.jumpHeld := false; Input.pausePressed := false;
       Input.startPressed := false |} in
  let p := Player.set_wallDirection 1%Z
             (Player.set_wallSliding true (Player.set_vy 80 Player.reset)) in
  let r := Player.handleJumping released p in
  Player.vx r == - (320) /\ Player.wallSliding r = false /\
  Player.wallJumpCooldown r = WALL_JUMP_COOLDOWN /\
  Player.jumpBufferTimer r = 0 /\ Player.facingRight r = false /\
  Player.vy r == - (152) /\ Player.canVariableJump r = false.
Proof.
  intros released p r.
  assert (Hreq : wallSlideRequest released p).
  { split; [reflexivity|]. split; [right; reflexivity | left; reflexivity]. }
  pose proof (wall_jump_from_wall_slide released p Hreq) as H.
  cbv zeta in H.
  destruct H as [_ [H2 [H3 [H4 [_ [_ [H7 [_ H9]]]]]]]].
  destruct (H7 eq_refl) as [Hvx Hf].
  destruct (H9 eq_refl) as [_ [Hvy Hflag]].
  unfold r.
  exact (conj Hvx (conj H2 (conj H3 (conj H4 (conj Hf (conj Hvy Hflag)))))).
Defined.

(** C6 as stated fails.  A jump pressed a moment before the wall is
    reached is still in the buffer when the player, the button released by
    then, starts to slide: [handleJumping] launches the wall jump and cuts it
    in the same call, returning [vy] at -152, not -380, and
    [canVariableJump] cleared, not set. *)
Lemma wall_jump_released_counterexample :
  let toward :=
    {| Input.moveX := 1; Input.moveY := 0; Input.jumpPressed := false;
       Input.jumpHeld := false; Input.pausePressed := false;
       Input.startPressed := false |} in
  let p := Player.set_jumpBufferTimer (5 # 100)
             (Player.set_wallDirection 1%Z
                (Player.set_wallSliding true (Player.set_vy 80 Player.reset))) in
  let r := Player.handleJumping toward p in
  wallSlideRequest toward p /\
  Player.vy r == - (152) /\
  ~ Player.vy r == - WALL_JUMP_FORCE_Y /\
  Player.canVariableJump r <> true.
Proof.
  cbv zeta. split.
  - split; [reflexivity|]. split; [right; reflexivity | right; reflexivity].
  - split; [reflexivity|]. split; vm_compute; discriminate.
Qed.

(** ** Collision resolution *)

Lemma resolveTile_keeps_landed (level : Level.t) (b : Player.Bounds)
    (ty tx : Z) (p : Player.t) :
  Landed p -> Landed (Player.resolveTile level b ty p tx).
Proof.
  intros [Hvy [Hg Hc]]. unfold Player.resolveTile.
  destruct (isSolidTile level tx ty); simpl negb; cbv iota;
    [|repeat split; assumption].
  destruct (Player.minOverlap b tx ty) as [mx my].
  destruct (Num.ltb (Qabs mx) (Qabs my)); [repeat split; assumption|].
  destruct (Num.ltb my 0); repeat split; assumption.
Qed.

Lemma resolveTile_lands (level : Level.t) (b : Player.Bounds)
    (ty tx : Z) (p : Player.t) :
  resolvesUpward level b tx ty ->
  Landed (Player.resolveTile level b ty p tx).
Proof.
  intros [Hsolid [Haxis Hup]]. unfold Player.resolveTile.
  rewrite Hsolid. simpl negb. cbv iota.
  destruct (Player.minOverlap b tx ty) as [mx my]. cbn [fst snd] in Haxis, Hup.
  destruct (ltbP (Qabs mx) (Qabs my)); [contradiction|].
  destruct (ltbP my 0); [|contradiction].
  repeat split.
Qed.

Lemma resolveRow_keeps_landed (level : Level.t) (b : Player.Bounds)
    (ty : Z) (txs : list Z) (p : Player.t) :
  Landed p -> Landed (fold_left (Player.resolveTile level b ty) txs p).
Proof.
  revert p. induction txs as [|tx txs IH]; intros p Hp; cbn; [exact Hp|].
  apply IH. now apply resolveTile_keeps_landed.
Qed.

Lemma resolveRow_lands (level : Level.t) (b : Player.Bounds)
    (ty tx : Z) (txs : list Z) (p : Player.t) :
  In tx txs -> resolvesUpward level b tx ty ->
  Landed (fold_left (Player.resolveTile level b ty) txs p).
Proof.
  intros Hin Hup. revert p.
  induction txs as [|tx' txs IH]; intros p; [destruct Hin|].
  cbn. destruct Hin as [-> | Hin].
  - apply resolveRow_keeps_landed. now apply resolveTile_lands.
  - now apply IH.
Qed.

Lemma resolveRows_keep_landed (level : Level.t) (b : Player.Bounds)
    (txs tys : list Z) (p : Player.t) :
  Landed p ->
  Landed
    (fold_left
       (fun p ty => fold_left (Player.resolveTile level b ty) txs p) tys p).
Proof.
  revert p. induction tys as [|ty tys IH]; intros p Hp; cbn; [exact Hp|].
  apply IH. now apply resolveRow_keeps_landed.
Qed.

Lemma resolveRows_land (level : Level.t) (b : Player.Bounds)
    (tx ty : Z) (txs tys : list Z) (p : Player.t) :
  In tx txs -> In ty tys -> resolvesUpward level b tx ty ->
  Landed
    (fold_left
       (fun p ty => fold_left (Player.resolveTile level b ty) txs p) tys p).
Proof.
  intros Hx Hy Hup. revert p.
  induction tys as [|ty' tys IH]; intros p; [destruct Hy|].
  cbn. destruct Hy as [-> | Hy].
  - apply resolveRows_keep_landed. now apply (resolveRow_lands level b ty tx).
  - now apply IH.
Qed.

(** C1.  For every level and player state: if some tile the resolver
    visits is Solid and the player's penetration into it resolves
    vertically with a negative (upward) push, then after the pass of
    [resolveCollisions] [vy] is zero, [grounded] is true and [coyoteTimer]
    is exactly [COYOTE_TIME] (0.08), whatever the tiles visited later
    do. *)
Theorem resolveCollisions_landing (level : Level.t) (p : Player.t)
    (tx ty : Z) :
  scanned (Player.bounds p) tx ty ->
  resolvesUpward level (Player.bounds p) tx ty ->
  let p' := Player.resolveCollisions level p in
  Player.vy p' = 0 /\ Player.grounded p' = true /\
  Player.coyoteTimer p' = COYOTE_TIME /\ COYOTE_TIME == 8 # 100.
Proof.
  intros [Hx Hy] Hup p'.
  assert (Hl : Landed p').
  { subst p'. unfold Player.resolveCollisions.
    change (Player.bounds (Player.set_grounded false p)) with (Player.bounds p).
    apply (resolveRows_land level (Player.bounds p) tx ty);
      [now apply In_range | now apply In_range | exact Hup]. }
  destruct Hl as [H1 [H2 H3]]. repeat split; try assumption.
Qed.

Lemma resolveCollisions_landing_witness :
  let p := Player.set_y 30 (Player.set_x 24 (Player.set_vy 120 Player.reset)) in
  let p' := Player.resolveCollisions tinyLevel p in
  Player.vy p' = 0 /\ Player.grounded p' = true /\
  Player.coyoteTimer p' = COYOTE_TIME /\ COYOTE_TIME == 8 # 100.
Proof.
  intros p.
  apply (resolveCollisions_landing tinyLevel p 1 2).
  - split; split; vm_compute; discriminate.
  - split; [reflexivity|]. split; [vm_compute; discriminate | reflexivity].
Defined.

(** ** Level loading and spawning *)

Lemma orQ_nonzero (q d : Q) : ~ q == 0 -> Num.orQ (Some q) d = q.
Proof.
  intros H. unfold Num.orQ, Num.nonzero.
  destruct (Qeq_bool q 0) eqn:E; [|reflexivity].
  apply Qeq_bool_iff in E. contradiction.
Qed.

Lemma loadLevelData_spawn (data : LevelData.t) (lvl : Level.t) (sx sy : Q) :
  loadLevelData data = Some lvl ->
  LevelData.spawn data = Some (JsonPoint.mk (Some sx) (Some sy)) ->
  ~ sx == 0 -> ~ sy == 0 ->
  Level.spawnX lvl = sx * TILE_SIZE + TILE_SIZE / 2 /\
  Level.spawnY lvl = sy * TILE_SIZE + TILE_SIZE / 2.
Proof.
  intros Hload Hspawn Hx Hy. unfold loadLevelData in Hload.
  rewrite Hspawn in Hload. cbn [JsonPoint.x JsonPoint.y] in Hload.
  rewrite (orQ_nonzero sx 2 Hx), (orQ_nonzero sy 2 Hy) in Hload.
  destruct (_ || _)%bool in Hload; [discriminate|].
  injection Hload as <-. split; reflexivity.
Qed.

(** C9, as amended.  Loading a level whose JSON declares spawn
    [{x: 3, y: 19}] converts the spawn to world units by
    [tile * TILE_SIZE + TILE_SIZE / 2] with [TILE_SIZE = 16], and spawning
    the player then places it at world position (56, 312). *)
Theorem spawn_world_position (parse : string -> option LevelData.t)
    (jsonString : string) (data : LevelData.t) (lvl : Level.t) (g : Game.t) :
  parse jsonString = Some data ->
  LevelData.spawn data = Some (JsonPoint.mk (Some 3) (Some 19)) ->
  loadLevel parse jsonString = Some lvl ->
  let p := Game.player (Game.spawnPlayer (Game.setLevel lvl g)) in
  Player.x p = 3 * TILE_SIZE + TILE_SIZE / 2 /\
  Player.y p = 19 * TILE_SIZE + TILE_SIZE / 2 /\
  TILE_SIZE == 16 /\
  Player.x p == 56 /\ Player.y p == 312.
Proof.
  intros Hparse Hspawn Hload p. unfold loadLevel in Hload.
  rewrite Hparse in Hload.
  destruct (loadLevelData_spawn data lvl 3 19 Hload Hspawn) as [Hx Hy];
    [discriminate | discriminate |].
  assert (Ex : Player.x p = Level.spawnX lvl) by reflexivity.
  assert (Ey : Player.y p = Level.spawnY lvl) by reflexivity.
  rewrite Ex, Ey, Hx, Hy. repeat split; reflexivity.
Qed.

Lemma spawn_world_position_witness :
  let lvl := openLevel [] (tileRect 36 3 2 3) in
  let p := Game.player (Game.spawnPlayer (Game.setLevel lvl (Game.new Level.new))) in
  Player.x p == 56 /\ Player.y p == 312.
Proof.
  intros lvl p.
  apply (spawn_world_position
           (fun _ => Some (openLevelData [] (tileRect 36 3 2 3)))
           "{}"%string (openLevelData [] (tileRect 36 3 2 3)) lvl
           (Game.new Level.new));
    reflexivity.
Defined.

(** C9 as stated fails: the player spawned from spawn tile (3, 19) is at
    (56, 312), not at (52, 308). *)
Lemma spawn_world_position_counterexample :
  let data := openLevelData [] (tileRect 36 3 2 3) in
  let lvl := openLevel [] (tileRect 36 3 2 3) in
  let p := Game.player (Game.spawnPlayer (Game.setLevel lvl (Game.new Level.new))) in
  LevelData.spawn data = Some (JsonPoint.mk (Some 3) (Some 19)) /\
  loadLevelData data = Some lvl /\
  ~ Player.x p == 52 /\ ~ Player.y p == 308.
Proof.
  cbv zeta. split; [reflexivity|]. split; [reflexivity|].
  split; vm_compute; discriminate.
Qed.

(** ** Session state machine *)

Lemma updateParticles_state (dt : Q) (g : Game.t) :
  Game.state (Game.updateParticles dt g) = Game.state g /\
  Game.deathCount (Game.updateParticles dt g) = Game.deathCount g /\
  Game.levelTime (Game.updateParticles dt g) = Game.levelTime g.
Proof. repeat split. Qed.

Lemma spawnDeathParticles_state (rt : Runtime.t) (px py : Q) (g : Game.t) :
  Game.state (Game.spawnDeathParticles rt px py g) = Game.state g /\
  Game.deathCount (Game.spawnDeathParticles rt px py g) = Game.deathCount g.
Proof.
  unfold Game.spawnDeathParticles.
  destruct (Game.pushParticles rt 20 px py (Game.particles g) (Game.randomCalls g)).
  split; reflexivity.
Qed.

Lemma killPlayer_state (rt : Runtime.t) (g : Game.t) :
  Game.state (Game.killPlayer rt g) = DEAD /\
  Game.deathCount (Game.killPlayer rt g) = (Game.deathCount g + 1)%Z.
Proof.
  unfold Game.killPlayer. cbn [Game.state Game.deathCount Game.set_camera].
  match goal with
  | |- context [Game.spawnDeathParticles rt ?px ?py ?g0] =>
      destruct (spawnDeathParticles_state rt px py g0) as [Hs Hd]
  end.
  rewrite Hs, Hd. split; reflexivity.
Qed.


Lemma checkHazardCollision_overlap (g : Game.t) (h : Rect.t) :
  In h (Level.hazards (Game.level g)) ->
  Game.rectsOverlap (Game.getPlayerRect g) h = true ->
  Game.checkHazardCollision g = true.
Proof.
  intros Hin Hov. unfold Game.checkHazardCollision.
  replace (existsb _ _) with true; [reflexivity|].
  symmetry. apply existsb_exists. now exists h.
Qed.

(** The session after the player's own update of a Playing frame, when the
    hazard and goal checks are made. *)
Lemma updatePlaying_hazard (rt : Runtime.t) (input : Input.t) (dt : Q)
    (g : Game.t) :
  Input.pausePressed input = false ->
  Game.checkHazardCollision
    (Game.set_player
       (Player.update input (Game.level g) dt (Game.player g)) g) = true ->
  Game.updatePlaying rt input dt g
  = Game.killPlayer rt
      (Game.set_player
         (Player.update input (Game.level g) dt (Game.player g)) g).
Proof.
  intros Hp Hh. unfold Game.updatePlaying. rewrite Hp, Hh. reflexivity.
Qed.

(** C10.  In a Playing frame that updates the player (pause is not
    pressed), if the updated player's rectangle overlaps both a hazard
    rectangle and the goal rectangle, [Game.update] leaves the session Dead
    with the death count incremented, not LevelComplete. *)
Theorem hazard_check_before_goal (rt : Runtime.t) (input : Input.t) (dt : Q)
    (g : Game.t) (h : Rect.t) :
  Game.state g = PLAYING ->
  Input.pausePressed input = false ->
  let g1 :=
    Game.set_player
      (Player.update input (Game.level g) dt (Game.player g)) g in
  In h (Level.hazards (Game.level g)) ->
  Game.rectsOverlap (Game.getPlayerRect g1) h = true ->
  Game.checkGoalCollision g1 = true ->
  let g' := Game.update rt input dt g in
  Game.state g' = DEAD /\
  Game.deathCount g' = (Game.deathCount g + 1)%Z /\
  Game.state g' <> LEVEL_COMPLETE.
Proof.
  intros Hst Hp g1 Hin Hov _ g'.
  assert (Hh : Game.checkHazardCollision g1 = true)
    by (apply (checkHazardCollision_overlap g1 h); assumption).
  assert (Hs : Game.state g' = DEAD /\
               Game.deathCount g' = (Game.deathCount g + 1)%Z).
  { subst g'. unfold Game.update. rewrite Hst.
    rewrite (updatePlaying_hazard rt input dt g Hp Hh). fold g1.
    destruct (updateParticles_state dt (Game.killPlayer rt g1)) as [E1 [E2 _]].
    destruct (killPlayer_state rt g1) as [K1 K2].
    rewrite E1, E2, K1, K2. split; reflexivity. }
  destruct Hs as [Hs Hd]. repeat split; try assumption.
  rewrite Hs. discriminate.
Qed.

Lemma hazard_check_before_goal_witness :
  let lvl := openLevel [tileRect 3 19 1 1] (tileRect 3 19 1 1) in
  let g' := Game.update sampleRuntime noInput (1 # 60) (startPlaying lvl) in
  Game.state g' = DEAD /\ Game.deathCount g' = 1%Z /\
  Game.state g' <> LEVEL_COMPLETE.
Proof.
  intros lvl g'.
  apply (hazard_check_before_goal sampleRuntime noInput (1 # 60)
           (startPlaying lvl) (Rect.mk (3 * 16) (19 * 16) (1 * 16) (1 * 16))).
  - reflexivity.
  - reflexivity.
  - left. reflexivity.
  - vm_compute. reflexivity.
  - vm_compute. reflexivity.
Defined.

Lemma updateLevelComplete_stays (rt : Runtime.t) (input : Input.t) (g : Game.t) :
  Game.state (Game.updateLevelComplete rt input g) = LEVEL_COMPLETE ->
  Game.updateLevelComplete rt input g = g.
Proof.
  unfold Game.updateLevelComplete.
  destruct (Input.jumpPressed input || Input.startPressed input);
    [discriminate | reflexivity].
Qed.

Lemma update_level_complete_frozen (rt : Runtime.t) (input : Input.t)
    (dt : Q) (g : Game.t) :
  Game.state g = LEVEL_COMPLETE ->
  Game.state (Game.update rt input dt g) = LEVEL_COMPLETE ->
  Game.levelTime (Game.update rt input dt g) = Game.levelTime g.
Proof.
  intros Hst. unfold Game.update. rewrite Hst.
  destruct (updateParticles_state dt (Game.updateLevelComplete rt input g))
    as [E1 [_ E3]].
  rewrite E1, E3. intros Hstay.
  now rewrite (updateLevelComplete_stays rt input g Hstay).
Qed.

Lemma runFrames_level_complete_frozen (rt : Runtime.t)
    (frames : list (Input.t * Q)) (g : Game.t) :
  Game.state g = LEVEL_COMPLETE ->
  (forall k : nat,
     Game.state (runFrames rt (firstn k frames) g) = LEVEL_COMPLETE) ->
  Game.levelTime (runFrames rt frames g) = Game.levelTime g.
Proof.
  revert g. induction frames as [|[input dt] frames IH]; intros g Hst Hall;
    [reflexivity|].
  cbn [runFrames fold_left fst snd].
  pose proof (Hall 1%nat) as H1. cbn in H1.
  fold (runFrames rt frames (Game.update rt input dt g)).
  rewrite IH.
  - now apply update_level_complete_frozen.
  - exact H1.
  - intros k. exact (Hall (S k)).
Qed.

(** C8, as amended.  In a Playing frame in which pause is not pressed and
    the hazard check does not fire for the updated player, if the updated
    player's rectangle overlaps the goal rectangle then [Game.update] moves
    the session from Playing to LevelComplete without advancing
    [levelTime]; and over any later run of update calls after each of which
    the state is still LevelComplete, [levelTime] does not change. *)
Theorem goal_completes_level_and_freezes_time (rt : Runtime.t)
    (input : Input.t) (dt : Q) (g : Game.t) (frames : list (Input.t * Q)) :
  Game.state g = PLAYING ->
  Input.pausePressed input = false ->
  let g1 :=
    Game.set_player
      (Player.update input (Game.level g) dt (Game.player g)) g in
  Game.checkHazardCollision g1 = false ->
  Game.checkGoalCollision g1 = true ->
  let g' := Game.update rt input dt g in
  Game.state g' = LEVEL_COMPLETE /\
  Game.levelTime g' = Game.levelTime g /\
  ((forall k : nat,
      Game.state (runFrames rt (firstn k frames) g') = LEVEL_COMPLETE) ->
   Game.levelTime (runFrames rt frames g') = Game.levelTime g').
Proof.
  intros Hst Hp g1 Hh Hgoal g'.
  assert (Hg' : g' = Game.updateParticles dt (Game.completeLevel g1)).
  { subst g'. unfold Game.update. rewrite Hst.
    unfold Game.updatePlaying. rewrite Hp. fold g1. now rewrite Hh, Hgoal. }
  assert (Hs : Game.state g' = LEVEL_COMPLETE) by (rewrite Hg'; reflexivity).
  split; [exact Hs|]. split; [rewrite Hg'; reflexivity|].
  intros Hall. now apply runFrames_level_complete_frozen.
Qed.

Lemma goal_completes_level_and_freezes_time_witness :
  let lvl := openLevel [] (tileRect 3 19 1 1) in
  let g := startPlaying lvl in
  let g' := Game.update sampleRuntime noInput (1 # 60) g in
  let frames := [(noInput, 1 # 60); (noInput, 1 # 10)] in
  Game.state g' = LEVEL_COMPLETE /\
  Game.levelTime g' = Game.levelTime g /\
  Game.levelTime (runFrames sampleRuntime frames g') = Game.levelTime g'.
Proof.
  intros lvl g g' frames.
  destruct (goal_completes_level_and_freezes_time sampleRuntime noInput
              (1 # 60) g frames) as [H1 [H2 H3]].
  - reflexivity.
  - reflexivity.
  - vm_compute. reflexivity.
  - vm_compute. reflexivity.
  - split; [exact H1|]. split; [exact H2|].
    apply H3. intros k.
    destruct k as [|[|[|k]]]; vm_compute; reflexivity.
Defined.

(** C8 as stated fails.  With the player's rectangle over the goal, a
    frame in which it is also over a hazard ends Dead, and a frame in which
    pause is pressed ends Paused. *)
Lemma goal_overlap_counterexample :
  let lvl := openLevel [tileRect 3 19 1 1] (tileRect 3 19 1 1) in
  let g := startPlaying lvl in
  let pause :=
    {| Input.moveX := 0; Input.moveY := 0; Input.jumpPressed := false;
       Input.jumpHeld := false; Input.pausePressed := true;
       Input.startPressed := false |} in
  Game.state g = PLAYING /\
  Game.checkGoalCollision g = true /\
  Game.checkGoalCollision
    (Game.set_player
       (Player.update noInput (Game.level g) (1 # 60) (Game.player g)) g)
    = true /\
  Game.state (Game.update sampleRuntime noInput (1 # 60) g) = DEAD /\
  Game.state (Game.update sampleRuntime pause (1 # 60) g) = PAUSED.
Proof.
  cbv zeta. repeat split; vm_compute; reflexivity.
Qed.

(** ** A hazard at the spawn point *)

Lemma resolveRow_clear (level : Level.t) (b : Player.Bounds) (ty : Z)
    (txs : list Z) (p : Player.t) :
  (forall tx, In tx txs -> isSolidTile level tx ty = false) ->
  fold_left (Player.resolveTile level b ty) txs p = p.
Proof.
  revert p. induction txs as [|tx txs IH]; intros p H; [reflexivity|].
  cbn [fold_left]. unfold Player.resolveTile at 2.
  rewrite (H tx (or_introl eq_refl)). cbn [negb].
  apply IH. intros tx' Hin. apply H. now right.
Qed.

Lemma resolveRows_clear (level : Level.t) (b : Player.Bounds)
    (txs tys : list Z) (p : Player.t) :
  (forall tx ty, In tx txs -> In ty tys -> isSolidTile level tx ty = false) ->
  fold_left (fun p ty => fold_left (Player.resolveTile level b ty) txs p) tys p
  = p.
Proof.
  revert p. induction tys as [|ty tys IH]; intros p H; [reflexivity|].
  cbn [fold_left]. rewrite resolveRow_clear.
  - apply IH. intros tx ty' Hx Hy. apply H; [exact Hx | now right].
  - intros tx Hx. apply H; [exact Hx | now left].
Qed.

Lemma resolveCollisions_clear (level : Level.t) (p : Player.t) :
  (forall tx ty, scanned (Player.bounds p) tx ty ->
                 isSolidTile level tx ty = false) ->
  Player.resolveCollisions level p = Player.set_grounded false p.
Proof.
  intros H. unfold Player.resolveCollisions.
  change (Player.bounds (Player.set_grounded false p)) with (Player.bounds p).
  apply resolveRows_clear. intros tx ty Hx Hy.
  apply H. split; now apply In_range.
Qed.






(** * Further properties *)

(** ** The tile grid *)

Lemma setNth_length (ts : list Z) (n : nat) (v : Z) :
  List.length (Level.setNth ts n v) = List.length ts.
Proof.
  revert n. induction ts as [|t0 ts IH]; intros [|n]; cbn; auto.
Qed.

Lemma setNth_same (ts : list Z) (n : nat) (v : Z) :
  (n < List.length ts)%nat -> nth_error (Level.setNth ts n v) n = Some v.
Proof.
  revert n. induction ts as [|t0 ts IH]; intros [|n] H; cbn in *;
    try lia; [reflexivity|]. apply IH. lia.
Qed.

Lemma setNth_other (ts : list Z) (n m : nat) (v : Z) :
  n <> m -> nth_error (Level.setNth ts n v) m = nth_error ts m.
Proof.
  revert n m. induction ts as [|t0 ts IH]; intros [|n] [|m] H; cbn;
    try reflexivity; try congruence.
  apply IH. congruence.
Qed.

Lemma cell_index_range (w h x y : Z) :
  (0 <= x < w)%Z -> (0 <= y < h)%Z -> (0 <= y * w + x < w * h)%Z.
Proof. intros Hx Hy. nia. Qed.

Lemma cell_index_inj (w x y x' y' : Z) :
  (0 <= x < w)%Z -> (0 <= x' < w)%Z ->
  (y * w + x = y' * w + x')%Z -> x = x' /\ y = y'.
Proof.
  intros Hx Hx' E.
  assert (Hy : y = y').
  { destruct (Z.lt_trichotomy y y') as [H | [H | H]]; [|exact H|].
    - assert (y' * w >= (y + 1) * w)%Z by nia. lia.
    - assert (y * w >= (y' + 1) * w)%Z by nia. lia. }
  subst y'. split; lia.
Qed.

Lemma tileAt_nat (ts : list Z) (i : Z) :
  (0 <= i)%Z -> Level.tileAt ts i = nth_error ts (Z.to_nat i).
Proof.
  intros H. unfold Level.tileAt.
  destruct (i <? 0)%Z eqn:E; [lia | reflexivity].
Qed.

Lemma inGrid_guards (l : Level.t) (x y : Z) :
  inGrid l x y ->
  ((x <? 0) || (x >=? Level.width l))%Z = false /\
  ((y <? 0) || (y >=? Level.height l))%Z = false /\
  (y <? 0)%Z = false /\ (y >=? Level.height l)%Z = false.
Proof. intros [Hx Hy]. repeat split; try apply orb_false_iff; lia. Qed.

(** X1.  Inside the grid the two queries agree on solidity:
    [isSolidTile] answers true exactly where [getTile] answers Solid; a
    Platform tile, an Empty one and a cell the array lacks are not solid. *)
Theorem queries_agree_in_grid (l : Level.t) (x y : Z) :
  inGrid l x y ->
  (isSolidTile l x y = true <-> getTile l x y = TileType.SOLID).
Proof.
  intros H. destruct (inGrid_guards l x y H) as [G1 [G2 [G3 G4]]].
  unfold isSolidTile, getTile. rewrite G1, G2, G3, G4.
  destruct (Level.tileAt _ _) as [v|]; cbn; unfold TileType.SOLID, TileType.EMPTY.
  - destruct (v =? 0)%Z eqn:E0; lia.
  - split; discriminate.
Qed.

Lemma queries_agree_in_grid_witness :
  isSolidTile tinyLevel 1 2 = true <-> getTile tinyLevel 1 2 = TileType.SOLID.
Proof.
  apply (queries_agree_in_grid tinyLevel 1 2). split; simpl; lia.
Defined.

Lemma getTile_in_grid (l : Level.t) (x y : Z) :
  inGrid l x y ->
  getTile l x y
  = Num.orZ (nth_error (Level.tiles l) (Z.to_nat (y * Level.width l + x)))
      TileType.EMPTY.
Proof.
  intros H. destruct (inGrid_guards l x y H) as [G1 [G2 _]].
  unfold getTile. rewrite G1, G2, tileAt_nat; [reflexivity|].
  destruct H. apply (cell_index_range _ (Level.height l)); assumption.
Qed.

Lemma orZ_some (v : Z) : Num.orZ (Some v) TileType.EMPTY = v.
Proof. unfold Num.orZ, TileType.EMPTY. destruct (v =? 0)%Z eqn:E; lia. Qed.

(** X2.  On a level whose array has one cell per tile, [setTile] inside
    the grid is read back by [getTile] and leaves every other cell as it
    was; outside the grid it changes nothing; either way the dimensions and
    the array's size are kept. *)
Theorem setTile_getTile (l : Level.t) (x y tile : Z) :
  gridSized l ->
  let l' := Level.setTile l x y tile in
  (inGrid l x y ->
     getTile l' x y = tile /\
     (forall x' y' : Z,
        (x', y') <> (x, y) -> getTile l' x' y' = getTile l x' y')) /\
  (~ inGrid l x y -> l' = l) /\
  Level.width l' = Level.width l /\ Level.height l' = Level.height l /\
  gridSized l'.
Proof.
  intros Hgrid l'. pose proof Hgrid as [Hw [Hh Hlen]].
  assert (Hout : ~ inGrid l x y -> l' = l).
  { intros H. subst l'. unfold Level.setTile.
    destruct ((x <? 0) || (x >=? Level.width l))%Z eqn:Gx; [reflexivity|].
    destruct ((y <? 0) || (y >=? Level.height l))%Z eqn:Gy; [reflexivity|].
    apply orb_false_iff in Gx, Gy. exfalso. apply H. split; lia. }
  assert (Hcase : inGrid l x y \/ ~ inGrid l x y).
  { unfold inGrid.
    destruct (Z_le_dec 0 x), (Z_lt_dec x (Level.width l)),
      (Z_le_dec 0 y), (Z_lt_dec y (Level.height l)); intuition lia. }
  destruct Hcase as [Hin | Hno].
  2:{ rewrite (Hout Hno). repeat split; try assumption; contradiction. }
  destruct (inGrid_guards l x y Hin) as [G1 [G2 _]].
  assert (El' : l' = Level.with_tiles l
                       (Level.setNth (Level.tiles l)
                          (Z.to_nat (y * Level.width l + x)) tile)).
  { subst l'. unfold Level.setTile. now rewrite G1, G2. }
  assert (Hwd : Level.width l' = Level.width l) by (rewrite El'; reflexivity).
  assert (Hht : Level.height l' = Level.height l) by (rewrite El'; reflexivity).
  assert (Hin' : inGrid l' x y) by (unfold inGrid; now rewrite Hwd, Hht).
  pose proof Hin as [Hx Hy].
  pose proof (cell_index_range _ _ _ _ Hx Hy) as Hidx.
  split; [intros _; split|split; [exact Hout|split; [|split]]];
    try assumption.
  - rewrite (getTile_in_grid l' x y Hin'), Hwd, El'.
    cbn [Level.tiles Level.with_tiles].
    rewrite setNth_same by lia. apply orZ_some.
  - intros x' y' Hne. unfold getTile. rewrite Hwd, Hht.
    destruct ((x' <? 0) || (x' >=? Level.width l))%Z eqn:Gx; [reflexivity|].
    destruct ((y' <? 0) || (y' >=? Level.height l))%Z eqn:Gy; [reflexivity|].
    apply orb_false_iff in Gx, Gy.
    assert (Hx' : (0 <= x' < Level.width l)%Z) by lia.
    assert (Hy' : (0 <= y' < Level.height l)%Z) by lia.
    pose proof (cell_index_range _ _ _ _ Hx' Hy') as Hidx'.
    rewrite !tileAt_nat by lia.
    rewrite El'. cbn [Level.tiles Level.with_tiles].
    rewrite setNth_other; [reflexivity|].
    intros E. apply Z2Nat.inj in E; try lia.
    destruct (cell_index_inj _ _ _ _ _ Hx Hx' E) as [-> ->]. now apply Hne.
  - unfold gridSized. rewrite Hwd, Hht, El'. cbn [Level.tiles Level.with_tiles].
    rewrite setNth_length. repeat split; assumption.
Qed.

Lemma tinyLevel_gridSized : gridSized tinyLevel.
Proof. repeat split; simpl; lia. Qed.

Lemma setTile_getTile_witness :
  getTile (Level.setTile tinyLevel 1 0 TileType.PLATFORM) 1 0
  = TileType.PLATFORM /\
  getTile (Level.setTile tinyLevel 1 0 TileType.PLATFORM) 2 2
  = getTile tinyLevel 2 2 /\
  Level.setTile tinyLevel 4 0 TileType.SOLID = tinyLevel.
Proof.
  destruct (setTile_getTile tinyLevel 1 0 TileType.PLATFORM
              tinyLevel_gridSized) as [H _].
  destruct (setTile_getTile tinyLevel 4 0 TileType.SOLID
              tinyLevel_gridSized) as [_ [H' _]].
  destruct H as [H1 H2]; [split; simpl; lia|].
  split; [exact H1|]. split; [apply H2; discriminate|].
  apply H'. intros [Hx _]. simpl in Hx. lia.
Defined.

(** ** Level loading *)

Ltac zb_true e :=
  let E := fresh in
  assert (E : e = true)
    by (first [apply Z.ltb_lt | apply Z.leb_le]; lia);
  rewrite E; clear E.

Ltac zb_false e :=
  let E := fresh in
  assert (E : e = false)
    by (first [apply Z.ltb_ge | apply Z.leb_gt]; lia);
  rewrite E; clear E.

Lemma ltb_shift (a b : Z) (n : nat) :
  (a - b <? Z.of_nat (S n))%Z = (a - (b + 1) <? Z.of_nat n)%Z.
Proof.
  destruct (Z.ltb_spec (a - b) (Z.of_nat (S n)));
    destruct (Z.ltb_spec (a - (b + 1)) (Z.of_nat n)); try reflexivity; lia.
Qed.

Lemma parseRow_length (w y x : Z) (row ts : list Z) :
  List.length (parseRow w y x row ts) = List.length ts.
Proof.
  revert x ts. induction row as [|v row IH]; intros x ts; cbn; [reflexivity|].
  destruct (x <? w)%Z; [|reflexivity]. now rewrite IH, setNth_length.
Qed.

Lemma parseRows_length (w h y : Z) (rows : list (list Z)) (ts : list Z) :
  List.length (parseRows w h y rows ts) = List.length ts.
Proof.
  revert y ts. induction rows as [|row rows IH]; intros y ts; cbn;
    [reflexivity|].
  destruct (y <? h)%Z; [|reflexivity]. now rewrite IH, parseRow_length.
Qed.

(** The cell the inner loop leaves at [(x, y)] when it starts at column
    [x0] of row [y]. *)
Lemma parseRow_lookup (w h y x0 x : Z) (row ts : list Z) :
  (0 <= x0)%Z -> (0 <= x < w)%Z -> (0 <= y < h)%Z ->
  List.length ts = Z.to_nat (w * h) ->
  nth_error (parseRow w y x0 row ts) (Z.to_nat (y * w + x))
  = if ((x0 <=? x) && (x - x0 <? Z.of_nat (List.length row)))%Z
    then Some (nth (Z.to_nat (x - x0)) row TileType.EMPTY)
    else nth_error ts (Z.to_nat (y * w + x)).
Proof.
  intros Hx0 Hx Hy. revert x0 ts Hx0.
  induction row as [|v row IH]; intros x0 ts Hx0 Hlen.
  - cbn. destruct (x0 <=? x)%Z eqn:E0; cbn; [|reflexivity].
    destruct (x - x0 <? 0)%Z eqn:E; [lia | reflexivity].
  - cbn [parseRow List.length].
    destruct (x0 <? w)%Z eqn:Ew.
    + rewrite IH by (try lia; now rewrite setNth_length).
      pose proof (cell_index_range w h x y Hx Hy) as Hi.
      assert (Hx0w : (0 <= x0 < w)%Z) by lia.
      pose proof (cell_index_range w h x0 y Hx0w Hy) as Hi0.
      destruct (Z.eq_dec x x0) as [-> | Hne].
      * zb_false (x0 + 1 <=? x0)%Z. cbn [andb].
        rewrite setNth_same by lia.
        zb_true (x0 <=? x0)%Z.
        zb_true (x0 - x0 <? Z.of_nat (S (List.length row)))%Z.
        cbn [andb]. now replace (x0 - x0)%Z with 0%Z by lia.
      * rewrite setNth_other
          by (intros E; apply Z2Nat.inj in E; lia).
        destruct (x0 + 1 <=? x)%Z eqn:E1.
        -- zb_true (x0 <=? x)%Z. cbn [andb].
           rewrite ltb_shift.
           destruct (x - (x0 + 1) <? Z.of_nat (List.length row))%Z;
             [|reflexivity].
           replace (Z.to_nat (x - x0)) with (S (Z.to_nat (x - (x0 + 1))))
             by lia.
           reflexivity.
        -- zb_false (x0 <=? x)%Z. reflexivity.
    + zb_false (x0 <=? x)%Z. reflexivity.
Qed.

(** A row other than [y] is not touched by the inner loop for row [y]. *)
Lemma parseRow_other_row (w h y y' x0 x : Z) (row ts : list Z) :
  (0 <= x0)%Z -> (0 <= x < w)%Z -> (0 <= y < h)%Z -> (0 <= y' < h)%Z ->
  y' <> y ->
  nth_error (parseRow w y' x0 row ts) (Z.to_nat (y * w + x))
  = nth_error ts (Z.to_nat (y * w + x)).
Proof.
  intros Hx0 Hx Hy Hy' Hne. revert x0 ts Hx0.
  induction row as [|v row IH]; intros x0 ts Hx0; cbn; [reflexivity|].
  destruct (x0 <? w)%Z eqn:Ew; [|reflexivity].
  rewrite IH by lia.
  assert (Hx0w : (0 <= x0 < w)%Z) by lia.
  pose proof (cell_index_range w h x y Hx Hy).
  pose proof (cell_index_range w h x0 y' Hx0w Hy').
  apply setNth_other. intros E. apply Z2Nat.inj in E; try lia.
  destruct (cell_index_inj w x0 y' x y Hx0w Hx E). congruence.
Qed.

Lemma parseRows_lookup (w h y0 x y : Z) (rows : list (list Z)) (ts : list Z) :
  (0 <= y0)%Z -> (0 <= x < w)%Z -> (0 <= y < h)%Z ->
  List.length ts = Z.to_nat (w * h) ->
  nth_error (parseRows w h y0 rows ts) (Z.to_nat (y * w + x))
  = if ((y0 <=? y) && (y - y0 <? Z.of_nat (List.length rows))
        && (x <? Z.of_nat (List.length (nth (Z.to_nat (y - y0)) rows []))))%Z
    then Some (nth (Z.to_nat x) (nth (Z.to_nat (y - y0)) rows [])
                 TileType.EMPTY)
    else nth_error ts (Z.to_nat (y * w + x)).
Proof.
  intros Hy0 Hx Hy. revert y0 ts Hy0.
  induction rows as [|row rows IH]; intros y0 ts Hy0 Hlen.
  - cbn. destruct (y0 <=? y)%Z eqn:E0; cbn; [|reflexivity].
    destruct (y - y0 <? 0)%Z eqn:E; [lia | reflexivity].
  - cbn [parseRows List.length].
    destruct (y0 <? h)%Z eqn:Eh.
    + rewrite IH by (try lia; now rewrite parseRow_length).
      destruct (Z.eq_dec y y0) as [-> | Hne].
      * zb_false (y0 + 1 <=? y0)%Z. cbn [andb].
        rewrite (parseRow_lookup w h y0 0 x row ts) by (assumption || lia).
        zb_true (y0 <=? y0)%Z.
        zb_true (y0 - y0 <? Z.of_nat (S (List.length rows)))%Z.
        replace (Z.to_nat (y0 - y0)) with 0%nat by lia.
        zb_true (0 <=? x)%Z.
        replace (x - 0)%Z with x by lia. cbn [andb nth]. reflexivity.
      * rewrite (parseRow_other_row w h y y0 0 x row ts)
          by (assumption || lia).
        destruct (y0 + 1 <=? y)%Z eqn:E1.
        -- zb_true (y0 <=? y)%Z.
           rewrite ltb_shift.
           replace (Z.to_nat (y - y0)) with (S (Z.to_nat (y - (y0 + 1))))
             by lia.
           reflexivity.
        -- zb_false (y0 <=? y)%Z. reflexivity.
    + zb_false (y0 <=? y)%Z. reflexivity.
Qed.

Lemma nth_error_repeat_empty (n k : nat) :
  (k < n)%nat -> nth_error (repeat TileType.EMPTY n) k = Some TileType.EMPTY.
Proof.
  revert k. induction n as [|n IH]; intros [|k] H; cbn; try lia;
    [reflexivity|]. apply IH. lia.
Qed.

Lemma nth_default_short (A : Type) (l : list A) (n : nat) (d : A) :
  (List.length l <= n)%nat -> nth n l d = d.
Proof. apply nth_overflow. Qed.

Lemma loadLevelData_shape (data : LevelData.t) (lvl : Level.t) :
  loadLevelData data = Some lvl ->
  Level.width lvl = Num.orZ (LevelData.width data) 40 /\
  Level.height lvl = Num.orZ (LevelData.height data) 23 /\
  List.length (Level.tiles lvl)
  = Z.to_nat (Num.orZ (LevelData.width data) 40
              * Num.orZ (LevelData.height data) 23).
Proof.
  unfold loadLevelData.
  destruct (_ || _)%bool; [discriminate|].
  destruct (LevelData.spawn data); cbn zeta;
    intros E; injection E as <-;
    cbn [Level.width Level.height Level.tiles]; repeat split;
    destruct (LevelData.tiles data);
    rewrite ?parseRows_length, repeat_length; reflexivity.
Qed.

(** X3.  On parsed data that fits the level schema, [loadLevel] answers
    [null] when the tile count [width * height] (zero or missing dimensions
    counting as 40 and 23) is negative or 2^32 and more: [new Array] throws
    and the [catch] returns [null].  A level it does return has those
    dimensions, a tile count within that range and an array with one cell
    per tile. *)
Theorem loadLevelData_dimensions (data : LevelData.t) :
  let w := Num.orZ (LevelData.width data) 40 in
  let h := Num.orZ (LevelData.height data) 23 in
  ((w * h < 0 \/ 2 ^ 32 <= w * h)%Z -> loadLevelData data = None) /\
  (forall lvl : Level.t,
     loadLevelData data = Some lvl ->
     Level.width lvl = w /\ Level.height lvl = h /\
     (0 <= w * h < 2 ^ 32)%Z /\
     List.length (Level.tiles lvl) = Z.to_nat (w * h)).
Proof.
  intros w h.
  assert (G : (w * h < 0 \/ 2 ^ 32 <= w * h)%Z -> loadLevelData data = None).
  { intros Hbad. unfold loadLevelData. fold w h.
    destruct ((w * h <? 0) || (w * h >=? 2 ^ 32))%Z eqn:G; [reflexivity|].
    apply orb_false_iff in G. lia. }
  split; [exact G|]. intros lvl E.
  destruct (loadLevelData_shape data lvl E) as [Hw [Hh Hl]].
  split; [exact Hw|]. split; [exact Hh|]. split; [|exact Hl].
  destruct (Z_lt_dec (w * h) 0) as [Hn|Hn];
    [rewrite G in E by (now left); discriminate|].
  destruct (Z_le_dec (2 ^ 32) (w * h)) as [Hb|Hb];
    [rewrite G in E by (now right); discriminate|].
  lia.
Qed.

Lemma loadLevelData_dimensions_witness :
  let huge :=
    {| LevelData.name := None; LevelData.par_time := None;
       LevelData.width := Some 65536%Z; LevelData.height := Some 65536%Z;
       LevelData.tiles := None; LevelData.spawn := None;
       LevelData.goal := None; LevelData.hazards := None;
       LevelData.background_color := None |} in
  loadLevelData huge = None /\
  Level.width (loaded raggedData) = 3%Z /\
  Level.height (loaded raggedData) = 2%Z /\
  List.length (Level.tiles (loaded raggedData)) = 6%nat.
Proof.
  intros huge. split.
  - apply (proj1 (loadLevelData_dimensions huge)). right. vm_compute.
    discriminate.
  - destruct (proj2 (loadLevelData_dimensions raggedData) (loaded raggedData)
                eq_refl) as [Hw [Hh [_ Hl]]].
    exact (conj Hw (conj Hh Hl)).
Defined.

Lemma loadLevelData_tiles_of (data : LevelData.t) (lvl : Level.t) :
  loadLevelData data = Some lvl ->
  Level.tiles lvl
  = match LevelData.tiles data with
    | Some rows =>
        parseRows (Level.width lvl) (Level.height lvl) 0 rows
          (repeat TileType.EMPTY
             (Z.to_nat (Level.width lvl * Level.height lvl)))
    | None =>
        repeat TileType.EMPTY (Z.to_nat (Level.width lvl * Level.height lvl))
    end.
Proof.
  unfold loadLevelData.
  destruct (_ || _)%bool; [discriminate|].
  destruct (LevelData.spawn data); cbn zeta; intros E; injection E as <-;
    reflexivity.
Qed.

(** X4.  Inside the grid, a loaded level holds the cell the file gives for
    that position, and Empty where the file's [tiles] has no such row or
    cell (rows and cells beyond the declared size are never read):
    [getTile] answers that value and [isSolidTile] whether it is Solid. *)
Theorem loadLevelData_tiles (data : LevelData.t) (lvl : Level.t) (x y : Z) :
  loadLevelData data = Some lvl ->
  inGrid lvl x y ->
  getTile lvl x y = fileCell (LevelData.tiles data) x y /\
  isSolidTile lvl x y
  = (fileCell (LevelData.tiles data) x y =? TileType.SOLID)%Z.
Proof.
  intros Hload Hin.
  destruct (loadLevelData_shape data lvl Hload) as [Hw [Hh Hlen]].
  rewrite <- Hw, <- Hh in Hlen.
  pose proof Hin as [Hx Hy].
  pose proof (cell_index_range _ _ _ _ Hx Hy) as Hidx.
  assert (Hcell : nth_error (Level.tiles lvl)
                    (Z.to_nat (y * Level.width lvl + x))
                  = Some (fileCell (LevelData.tiles data) x y)).
  { rewrite (loadLevelData_tiles_of data lvl Hload). unfold fileCell.
    destruct (LevelData.tiles data) as [rows|].
    - rewrite (parseRows_lookup _ (Level.height lvl))
        by (try assumption; try lia; apply repeat_length).
      replace (y - 0)%Z with y by lia.
      zb_true (0 <=? y)%Z. cbn [andb].
      destruct (y <? Z.of_nat (List.length rows))%Z eqn:Ey; cbn [andb].
      + destruct (x <? Z.of_nat (List.length (nth (Z.to_nat y) rows [])))%Z
          eqn:Ex; [reflexivity|].
        rewrite nth_error_repeat_empty by lia.
        now rewrite (nth_overflow (nth (Z.to_nat y) rows [])) by lia.
      + rewrite nth_error_repeat_empty by lia.
        rewrite (nth_overflow rows) by lia.
        now destruct (Z.to_nat x).
    - apply nth_error_repeat_empty. lia. }
  split.
  - rewrite (getTile_in_grid lvl x y Hin), Hcell. apply orZ_some.
  - destruct (inGrid_guards lvl x y Hin) as [G1 [_ [G3 G4]]].
    unfold isSolidTile. rewrite G1, G3, G4, tileAt_nat by lia.
    now rewrite Hcell.
Qed.

Lemma loadLevelData_tiles_witness :
  getTile (loaded raggedData) 2 0 = TileType.PLATFORM /\
  isSolidTile (loaded raggedData) 1 0 = true /\
  getTile (loaded raggedData) 1 1 = TileType.EMPTY.
Proof.
  assert (Hin : forall x y, (0 <= x < 3)%Z -> (0 <= y < 2)%Z ->
                            inGrid (loaded raggedData) x y)
    by (intros x y Hx Hy; split; assumption).
  split; [|split].
  - apply (loadLevelData_tiles raggedData (loaded raggedData) 2 0 eq_refl).
    apply Hin; lia.
  - apply (loadLevelData_tiles raggedData (loaded raggedData) 1 0 eq_refl).
    apply Hin; lia.
  - apply (loadLevelData_tiles raggedData (loaded raggedData) 1 1 eq_refl).
    apply Hin; lia.
Defined.

Lemma orQ_zero (q d : Q) : q == 0 -> Num.orQ (Some q) d = d.
Proof.
  intros H. unfold Num.orQ, Num.nonzero.
  apply Qeq_bool_iff in H. now rewrite H.
Qed.

(** X5.  A level file without a spawn point spawns the player at the
    centre of tile (2, 2), world (40, 40); and a spawn coordinate of 0 is
    read as missing, so column (or row) 0 cannot be asked for: it becomes
    tile 2, world 40. *)
Theorem loadLevelData_spawn_fallback (data : LevelData.t) (lvl : Level.t) :
  loadLevelData data = Some lvl ->
  (LevelData.spawn data = None ->
     Level.spawnX lvl == 40 /\ Level.spawnY lvl == 40) /\
  (forall (s : JsonPoint.t) (q : Q),
     LevelData.spawn data = Some s ->
     (JsonPoint.x s = Some q -> q == 0 -> Level.spawnX lvl == 40) /\
     (JsonPoint.x s = None -> Level.spawnX lvl == 40) /\
     (JsonPoint.y s = Some q -> q == 0 -> Level.spawnY lvl == 40) /\
     (JsonPoint.y s = None -> Level.spawnY lvl == 40)).
Proof.
  unfold loadLevelData. destruct (_ || _)%bool; [discriminate|].
  destruct (LevelData.spawn data) as [s|]; cbn zeta; intros E;
    injection E as <-; cbn [Level.spawnX Level.spawnY].
  - split; [discriminate|]. intros s' q Es. injection Es as <-.
    repeat split.
    + intros Ex Hq. rewrite Ex, (orQ_zero q 2 Hq). reflexivity.
    + intros Ex. rewrite Ex. reflexivity.
    + intros Ey Hq. rewrite Ey, (orQ_zero q 2 Hq). reflexivity.
    + intros Ey. rewrite Ey. reflexivity.
  - split; [intros _; split; reflexivity | discriminate].
Qed.

Lemma loadLevelData_spawn_fallback_witness :
  Level.spawnX (loaded raggedData) == 40.
Proof.
  destruct (loadLevelData_spawn_fallback raggedData (loaded raggedData)
              eq_refl) as [_ H].
  destruct (H (JsonPoint.mk (Some 0) (Some 1)) 0 eq_refl) as [Hx _].
  apply Hx; reflexivity.
Defined.

(** ** Player movement *)

Lemma clamp01 (t : Q) : 0 <= Num.max 0 (Num.min 1 t) <= 1.
Proof.
  unfold Num.max, Num.min.
  destruct (ltbP t 1); [destruct (ltbP 0 t) | destruct (ltbP 0 1)]; lra.
Qed.

Lemma lerp_segment (a b t : Q) :
  (a <= b -> a <= Player.lerp a b t <= b) /\
  (b <= a -> b <= Player.lerp a b t <= a).
Proof.
  unfold Player.lerp. pose proof (clamp01 t) as [H0 H1].
  repeat split.
  - assert (0 <= (b - a) * Num.max 0 (Num.min 1 t))
      by (apply Qmult_le_0_compat; lra). lra.
  - assert (0 <= (b - a) * (1 - Num.max 0 (Num.min 1 t)))
      by (apply Qmult_le_0_compat; lra). lra.
  - assert (0 <= (a - b) * (1 - Num.max 0 (Num.min 1 t)))
      by (apply Qmult_le_0_compat; lra). lra.
  - assert (0 <= (a - b) * Num.max 0 (Num.min 1 t))
      by (apply Qmult_le_0_compat; lra). lra.
Qed.



(** X7.  With the stick within [-1, 1], [handleHorizontalMovement] keeps
    the horizontal speed within [MOVE_SPEED]: on the ground [vx] becomes
    [moveX * MOVE_SPEED] at once, in the air it moves toward that target
    without passing it, and with no input in the air (or on a wall) it is
    left as it is. *)
Theorem handleHorizontalMovement_speed (input : Input.t) (dt : Q)
    (p : Player.t) :
  - (1) <= Input.moveX input <= 1 ->
  - MOVE_SPEED <= Player.vx p <= MOVE_SPEED ->
  let p' := Player.handleHorizontalMovement input dt p in
  - MOVE_SPEED <= Player.vx p' <= MOVE_SPEED /\
  (Player.grounded p = true ->
     Player.vx p' = Input.moveX input * MOVE_SPEED) /\
  (Player.grounded p = false -> Input.moveX input == 0 ->
     Player.vx p' = Player.vx p) /\
  (Player.grounded p = false -> Player.wallSliding p = true ->
     Player.vx p' = Player.vx p).
Proof.
  intros Hm Hv p'. subst p'. unfold Player.handleHorizontalMovement.
  unfold MOVE_SPEED in *.
  destruct (Player.grounded p); cbn [negb].
  - cbn [Player.vx Player.set_vx]. repeat split; try discriminate; lra.
  - destruct (Player.wallSliding p); cbn [negb].
    + repeat split; try discriminate; lra.
    + unfold Num.nonzero.
      destruct (Qeq_bool (Input.moveX input) 0) eqn:E; cbn [negb].
      * repeat split; try discriminate; lra.
      * cbn [Player.vx Player.set_vx].
        split; [|split; [discriminate|split; [|discriminate]]].
        -- destruct (Qlt_le_dec (Player.vx p) (Input.moveX input * 280))
             as [Hlt | Hle].
           ++ destruct (lerp_segment (Player.vx p) (Input.moveX input * 280)
                          AIR_CONTROL) as [H _].
              specialize (H (Qlt_le_weak _ _ Hlt)). lra.
           ++ destruct (lerp_segment (Player.vx p) (Input.moveX input * 280)
                          AIR_CONTROL) as [_ H].
              specialize (H Hle). lra.
        -- intros _ H0. apply Qeq_bool_iff in H0. congruence.
Qed.

Lemma handleHorizontalMovement_speed_witness :
  let input :=
    {| Input.moveX := 1; Input.moveY := 0; Input.jumpPressed := false;
       Input.jumpHeld := false; Input.pausePressed := false;
       Input.startPressed := false |} in
  let p' := Player.handleHorizontalMovement input (1 # 60)
              (Player.set_vx (- (100)) Player.reset) in
  - MOVE_SPEED <= Player.vx p' <= MOVE_SPEED.
Proof.
  intros input p'.
  apply (handleHorizontalMovement_speed input (1 # 60)
           (Player.set_vx (- (100)) Player.reset));
    split; vm_compute; discriminate.
Defined.

(** X8.  After [handleWallDetection] the player is wall-sliding exactly
    when [wallDirection] is not 0, and then it is -1 or 1; a wall slide
    engages only off the ground, off the wall-jump cooldown, while not
    moving upward, with a Solid tile at the sampled point on that side and
    the stick pressed more than 0.1 toward it.  Nothing else changes. *)
Theorem handleWallDetection_engages (input : Input.t) (level : Level.t)
    (p : Player.t) :
  let p' := Player.handleWallDetection input level p in
  (Player.wallSliding p' = true <-> Player.wallDirection p' <> 0%Z) /\
  (Player.wallDirection p' = (-1)%Z \/ Player.wallDirection p' = 0%Z \/
   Player.wallDirection p' = 1%Z) /\
  (Player.wallSliding p' = true ->
     Player.grounded p = false /\
     Player.wallJumpCooldown p <= 0 /\
     0 <= Player.vy p /\
     Player.checkWallCollision level (Player.wallDirection p') p = true /\
     1 # 10 < inject_Z (Player.wallDirection p') * Input.moveX input) /\
  p' = Player.set_wallDirection (Player.wallDirection p')
         (Player.set_wallSliding (Player.wallSliding p') p).
Proof.
  intros p'. subst p'. unfold Player.handleWallDetection.
  change (Player.checkWallCollision level (-1)
            (Player.set_wallDirection 0 (Player.set_wallSliding false p)))
    with (Player.checkWallCollision level (-1) p).
  change (Player.checkWallCollision level 1
            (Player.set_wallDirection 0 (Player.set_wallSliding false p)))
    with (Player.checkWallCollision level 1 p).
  cbn [Player.wallJumpCooldown Player.grounded Player.vy
       Player.set_wallDirection Player.set_wallSliding].
  destruct (gtbP (Player.wallJumpCooldown p) 0) as [Hc|Hc];
    [destruct p; cbn; intuition (try discriminate; try lia; auto)|].
  destruct (Player.grounded p) eqn:Hg;
    [destruct p; cbn; intuition (try discriminate; try lia; auto)|].
  destruct (ltbP (Player.vy p) 0) as [Hv|Hv];
    [destruct p; cbn; intuition (try discriminate; try lia; auto)|].
  apply Qnot_lt_le in Hc, Hv.
  destruct (Player.checkWallCollision level (-1) p) eqn:Hl; cbn [andb].
  - destruct (ltbP (Input.moveX input) (- (1 # 10))) as [Hm|Hm].
    + destruct p; cbn in *.
      repeat split; try discriminate; try lia; try assumption; auto.
      unfold inject_Z. lra.
    + destruct (Player.checkWallCollision level 1 p) eqn:Hr; cbn [andb].
      * destruct (gtbP (Input.moveX input) (1 # 10)) as [Hm'|Hm'].
        -- destruct p; cbn in *.
           repeat split; try discriminate; try lia; try assumption; auto.
           unfold inject_Z. lra.
        -- destruct p; cbn; intuition (try discriminate; try lia; auto).
      * destruct p; cbn; intuition (try discriminate; try lia; auto).
  - destruct (Player.checkWallCollision level 1 p) eqn:Hr; cbn [andb].
    + destruct (gtbP (Input.moveX input) (1 # 10)) as [Hm'|Hm'].
      * destruct p; cbn in *.
        repeat split; try discriminate; try lia; try assumption; auto.
        unfold inject_Z. lra.
      * destruct p; cbn; intuition (try discriminate; try lia; auto).
    + destruct p; cbn; intuition (try discriminate; try lia; auto).
Qed.

Lemma handleWallDetection_engages_witness :
  let input :=
    {| Input.moveX := - (1); Input.moveY := 0; Input.jumpPressed := false;
       Input.jumpHeld := false; Input.pausePressed := false;
       Input.startPressed := false |} in
  let p := Player.set_y 24 (Player.set_x 9 Player.reset) in
  let p' := Player.handleWallDetection input tinyLevel p in
  Player.wallDirection p' = (-1)%Z /\
  Player.checkWallCollision tinyLevel (Player.wallDirection p') p = true.
Proof.
  intros input p p'.
  destruct (handleWallDetection_engages input tinyLevel p)
    as [_ [_ [H _]]].
  split; [reflexivity|]. apply H. reflexivity.
Defined.

(** X9.  Coyote time and the jump buffer: a player that is not
    wall-sliding and is on the ground or still has coyote time launches a
    ground jump on a jump press, or on a press still held in the buffer.
    The launch sets [vy] to [-JUMP_FORCE], clears [grounded] and the
    coyote timer, arms [canVariableJump], empties the buffer and leaves
    [vx] alone; [handleJumping] returns [vy] as [-JUMP_FORCE] if the input
    is held and cut by [JUMP_CUT_MULT] if it is not.  No input can launch
    again from the returned state: there is no double jump. *)
Theorem ground_jump_launch (input : Input.t) (p : Player.t) :
  Player.wallSliding p = false ->
  Player.grounded p = true \/ 0 < Player.coyoteTimer p ->
  Input.jumpPressed input = true \/ 0 < Player.jumpBufferTimer p ->
  let q := Player.handleJumping_launch input p in
  let r := Player.handleJumping input p in
  (Player.vy q = - JUMP_FORCE /\ Player.grounded q = false /\
   Player.coyoteTimer q = 0 /\ Player.canVariableJump q = true /\
   Player.jumpBufferTimer q = 0 /\ Player.vx q = Player.vx p) /\
  (Input.jumpHeld input = true -> r = q) /\
  (Input.jumpHeld input = false ->
     Player.vy r = - JUMP_FORCE * JUMP_CUT_MULT /\
     Player.canVariableJump r = false) /\
  (forall input' : Input.t, launches input' r = false).
Proof.
  intros Hw Hcan Hwant q r.
  assert (Hq : q = Player.set_jumpBufferTimer 0
                     (Player.groundJump
                        (Player.set_jumpHeld (Input.jumpHeld input)
                           (if Input.jumpPressed input
                            then Player.set_jumpBufferTimer JUMP_BUFFER_TIME p
                            else p)))).
  { subst q. unfold Player.handleJumping_launch.
    pose proof (handleJumping_launch_wants input p Hwant) as Hwt.
    assert (Hgc : Player.grounded p || Num.gtb (Player.coyoteTimer p) 0 = true).
    { destruct Hcan as [-> | Hc]; [reflexivity|].
      destruct (gtbP (Player.coyoteTimer p) 0); [|contradiction].
      apply orb_true_r. }
    destruct (Input.jumpPressed input); destruct p; cbn in *;
      rewrite ?Hwt, ?Hgc; subst; reflexivity. }
  assert (Hheld : Player.jumpHeld q = Input.jumpHeld input)
    by (rewrite Hq; destruct (Input.jumpPressed input); reflexivity).
  assert (Hvx : Player.vx q = Player.vx p)
    by (rewrite Hq; destruct (Input.jumpPressed input); reflexivity).
  assert (Hr : r = Player.handleJumping_cut q) by reflexivity.
  assert (Hrq : forall f : Player.t -> bool,
            (forall v c s, f (Player.set_canVariableJump c
                                (Player.set_vy v s)) = f s) ->
            f r = f q).
  { intros f Hf. rewrite Hr. unfold Player.handleJumping_cut.
    destruct (_ && _); [apply Hf | reflexivity]. }
  split; [rewrite Hvx, Hq; repeat split|].
  split; [|split].
  - intros Hh. rewrite Hr. unfold Player.handleJumping_cut.
    now rewrite Hheld, Hh.
  - intros Hh. rewrite Hr. unfold Player.handleJumping_cut.
    rewrite Hheld, Hh.
    replace (Player.canVariableJump q) with true by (now rewrite Hq).
    replace (Player.vy q) with (- JUMP_FORCE) by (now rewrite Hq).
    split; reflexivity.
  - intros input'. unfold launches.
    assert (E1 : Player.wallSliding r = false).
    { rewrite (Hrq Player.wallSliding) by reflexivity.
      rewrite Hq. cbn. destruct (Input.jumpPressed input); exact Hw. }
    assert (E2 : Player.grounded r = false)
      by (rewrite (Hrq Player.grounded) by reflexivity; now rewrite Hq).
    assert (E3 : Player.coyoteTimer r = 0).
    { rewrite Hr. unfold Player.handleJumping_cut.
      destruct (_ && _); rewrite Hq; reflexivity. }
    rewrite E1, E2, E3. apply andb_false_r.
Qed.

Lemma ground_jump_launch_witness :
  let late :=
    {| Input.moveX := 0; Input.moveY := 0; Input.jumpPressed := true;
       Input.jumpHeld := true; Input.pausePressed := false;
       Input.startPressed := false |} in
  let p := Player.set_coyoteTimer (3 # 100) (Player.set_vy 40 Player.reset) in
  Player.grounded p = false /\
  Player.vy (Player.handleJumping late p) = - JUMP_FORCE /\
  launches late (Player.handleJumping late p) = false.
Proof.
  intros late p.
  destruct (ground_jump_launch late p) as [[H1 _] [H2 [_ H4]]].
  - reflexivity.
  - right. reflexivity.
  - left. reflexivity.
  - split; [reflexivity|]. split; [|apply H4].
    rewrite (H2 eq_refl). exact H1.
Defined.

(** X10.  A jump press that cannot launch (in the air, off any wall, with
    no coyote time) is not lost: [handleJumping] changes no velocity but
    for the variable-jump cut, and leaves the jump buffer at its full window
    for the frames that follow. *)
Theorem jump_press_is_buffered (input : Input.t) (p : Player.t) :
  Input.jumpPressed input = true ->
  Player.wallSliding p = false ->
  Player.grounded p = false ->
  Player.coyoteTimer p <= 0 ->
  let r := Player.handleJumping input p in
  Player.jumpBufferTimer r = JUMP_BUFFER_TIME /\
  Player.vx r = Player.vx p /\
  (Player.vy r = Player.vy p \/ Player.vy r = Player.vy p * JUMP_CUT_MULT) /\
  Player.grounded r = false /\ Player.wallSliding r = false.
Proof.
  intros Hp Hw Hg Hc r. subst r.
  unfold Player.handleJumping, Player.handleJumping_launch. rewrite Hp.
  destruct p; cbn in *. subst.
  change (Num.gtb JUMP_BUFFER_TIME 0) with true. cbv iota.
  destruct (gtbP coyoteTimer 0) as [H|H]; [exfalso; lra|].
  unfold Player.handleJumping_cut. cbn.
  destruct (_ && _); cbn; repeat split; auto.
Qed.

Lemma jump_press_is_buffered_witness :
  let press :=
    {| Input.moveX := 0; Input.moveY := 0; Input.jumpPressed := true;
       Input.jumpHeld := true; Input.pausePressed := false;
       Input.startPressed := false |} in
  Player.jumpBufferTimer
    (Player.handleJumping press (Player.set_vy 200 Player.reset))
  = JUMP_BUFFER_TIME.
Proof.
  intros press.
  apply (jump_press_is_buffered press (Player.set_vy 200 Player.reset));
    try reflexivity. discriminate.
Defined.

(** X11.  [applyGravity] changes [vy] only, and never leaves it above
    [MAX_FALL_SPEED].  For a time step that is not negative, a player that
    is not wall-sliding never slows its fall (unless it was above terminal
    velocity), and a wall-sliding one leaves with [vy] at most
    [WALL_SLIDE_SPEED] plus the reduced gravity of one frame. *)
Theorem applyGravity_bounds (dt : Q) (p : Player.t) :
  let p' := Player.applyGravity dt p in
  p' = Player.set_vy (Player.vy p') p /\
  Player.vy p' <= MAX_FALL_SPEED /\
  (0 <= dt -> Player.wallSliding p = false ->
     Player.vy p <= MAX_FALL_SPEED -> Player.vy p <= Player.vy p') /\
  (0 <= dt -> Player.wallSliding p = true ->
     Player.vy p' <= WALL_SLIDE_SPEED + GRAVITY * (3 # 10) * dt).
Proof.
  intros p'. subst p'. unfold Player.applyGravity.
  unfold MAX_FALL_SPEED, WALL_SLIDE_SPEED, GRAVITY, FAST_FALL_MULT.
  destruct p; cbn [Player.wallSliding Player.vy].
  destruct wallSliding.
  - destruct (gtbP vy 80) as [H|H]; cbn [Player.vy Player.set_vy];
      [destruct (gtbP 80 600) as [H'|H']
      | destruct (gtbP (vy + 1200 * (3 # 10) * dt) 600) as [H'|H']];
      cbn; repeat split; try discriminate; intros; try lra.
  - destruct (gtbP vy 0) as [H|H]; cbn [Player.vy Player.set_vy];
      [destruct (gtbP (vy + 1200 * (15 # 10) * dt) 600) as [H'|H']
      | destruct (gtbP (vy + 1200 * dt) 600) as [H'|H']];
      cbn; repeat split; try discriminate; intros; try lra.
Qed.

Lemma applyGravity_bounds_witness :
  let p := Player.set_vy 590 Player.reset in
  Player.vy p <= Player.vy (Player.applyGravity (1 # 60) p) /\
  Player.vy (Player.applyGravity (1 # 60) p) <= MAX_FALL_SPEED.
Proof.
  intros p.
  destruct (applyGravity_bounds (1 # 60) p) as [_ [H2 [H3 _]]].
  split; [|exact H2].
  apply H3; [discriminate | reflexivity | discriminate].
Defined.

(** ** The resolver and the player's frame *)

Lemma resolve_fold_invariant (level : Level.t) (b : Player.Bounds)
    (P : Player.t -> Prop) (txs tys : list Z) (p : Player.t) :
  (forall q tx ty, P q -> P (Player.resolveTile level b ty q tx)) ->
  P p ->
  P (fold_left
       (fun p ty => fold_left (Player.resolveTile level b ty) txs p) tys p).
Proof.
  intros Hstep. revert p.
  induction tys as [|ty tys IH]; intros p Hp; cbn; [exact Hp|].
  apply IH. clear IH. revert p Hp.
  induction txs as [|tx txs IH]; intros p Hp; cbn; [exact Hp|].
  apply IH. now apply Hstep.
Qed.

(** What one resolver iteration may do to a player, relative to the state
    [p] the pass started from. *)
Lemma resolveTile_effects (level : Level.t) (b : Player.Bounds) (p q : Player.t)
    (tx ty : Z) :
  let P (q : Player.t) :=
    (Player.grounded q = true -> Landed q) /\
    (Player.vx q = Player.vx p \/ Player.vx q = 0) /\
    (Player.vy q = Player.vy p \/ Player.vy q = 0) /\
    (Player.coyoteTimer q = Player.coyoteTimer p \/
     Player.coyoteTimer q = COYOTE_TIME) /\
    Player.set_coyoteTimer 0
      (Player.set_grounded false
         (Player.set_vy 0 (Player.set_vx 0
            (Player.set_y 0 (Player.set_x 0 q)))))
    = Player.set_coyoteTimer 0
        (Player.set_grounded false
           (Player.set_vy 0 (Player.set_vx 0
              (Player.set_y 0 (Player.set_x 0 p))))) in
  P q -> P (Player.resolveTile level b ty q tx).
Proof.
  intros P [Hl [Hvx [Hvy [Hc Hrest]]]]. subst P. cbv beta.
  unfold Player.resolveTile.
  destruct (isSolidTile level tx ty); simpl negb; cbv iota;
    [|exact (conj Hl (conj Hvx (conj Hvy (conj Hc Hrest))))].
  destruct (Player.minOverlap b tx ty) as [mx my].
  destruct (Num.ltb (Qabs mx) (Qabs my)); [|destruct (Num.ltb my 0)];
    (split; [|split; [|split; [|split]]]);
    try assumption; try (right; reflexivity);
    try (intros _; repeat split; reflexivity).
  intros Hg. destruct (Hl Hg) as [H1 [H2 H3]]. repeat split; assumption.
Qed.

Lemma resolveCollisions_invariant (level : Level.t) (p : Player.t) :
  let p' := Player.resolveCollisions level p in
  (Player.grounded p' = true -> Landed p') /\
  (Player.vx p' = Player.vx p \/ Player.vx p' = 0) /\
  (Player.vy p' = Player.vy p \/ Player.vy p' = 0) /\
  (Player.coyoteTimer p' = Player.coyoteTimer p \/
   Player.coyoteTimer p' = COYOTE_TIME) /\
  Player.set_coyoteTimer 0
    (Player.set_grounded false
       (Player.set_vy 0 (Player.set_vx 0
          (Player.set_y 0 (Player.set_x 0 p')))))
  = Player.set_coyoteTimer 0
      (Player.set_grounded false
         (Player.set_vy 0 (Player.set_vx 0
            (Player.set_y 0 (Player.set_x 0 p))))).
Proof.
  intros p'. subst p'. unfold Player.resolveCollisions.
  apply (resolve_fold_invariant level _
           (fun q =>
              (Player.grounded q = true -> Landed q) /\
              (Player.vx q = Player.vx p \/ Player.vx q = 0) /\
              (Player.vy q = Player.vy p \/ Player.vy q = 0) /\
              (Player.coyoteTimer q = Player.coyoteTimer p \/
               Player.coyoteTimer q = COYOTE_TIME) /\
              Player.set_coyoteTimer 0
                (Player.set_grounded false
                   (Player.set_vy 0 (Player.set_vx 0
                      (Player.set_y 0 (Player.set_x 0 q)))))
              = Player.set_coyoteTimer 0
                  (Player.set_grounded false
                     (Player.set_vy 0 (Player.set_vx 0
                        (Player.set_y 0 (Player.set_x 0 p))))))).
  - intros q tx ty Hq. now apply (resolveTile_effects level _ p q tx ty).
  - split; [discriminate|].
    split; [left; reflexivity|]. split; [left; reflexivity|].
    split; [left; reflexivity | reflexivity].
Qed.

Lemma resolveCollisions_frame (level : Level.t) (p : Player.t) :
  let p' := Player.resolveCollisions level p in
  p' = Player.set_coyoteTimer (Player.coyoteTimer p')
         (Player.set_grounded (Player.grounded p')
            (Player.set_vy (Player.vy p') (Player.set_vx (Player.vx p')
               (Player.set_y (Player.y p') (Player.set_x (Player.x p') p))))).
Proof.
  intros p'.
  destruct (resolveCollisions_invariant level p) as [_ [_ [_ [_ Hrest]]]].
  fold p' in Hrest.
  destruct p' as [x' y' w' h' vx' vy' g' ws' wd' fr' jh' cv' ct' jb' wc' rt' ss'].
  destruct p. cbn in Hrest |- *.
  injection Hrest as -> -> -> -> -> -> -> -> -> -> ->.
  reflexivity.
Qed.

(** X12.  After a pass of [resolveCollisions], a grounded player has [vy]
    zero and a full coyote timer; the pass never adds velocity ([vx] and
    [vy] are each as before or zero); the coyote timer is as before or full;
    and but for position, velocity, [grounded] and the coyote timer the
    player is unchanged. *)
Theorem resolveCollisions_effects (level : Level.t) (p : Player.t) :
  let p' := Player.resolveCollisions level p in
  (Player.grounded p' = true ->
     Player.vy p' = 0 /\ Player.coyoteTimer p' = COYOTE_TIME) /\
  (Player.vx p' = Player.vx p \/ Player.vx p' = 0) /\
  (Player.vy p' = Player.vy p \/ Player.vy p' = 0) /\
  (Player.coyoteTimer p' = Player.coyoteTimer p \/
   Player.coyoteTimer p' = COYOTE_TIME) /\
  p' = Player.set_coyoteTimer (Player.coyoteTimer p')
         (Player.set_grounded (Player.grounded p')
            (Player.set_vy (Player.vy p') (Player.set_vx (Player.vx p')
               (Player.set_y (Player.y p') (Player.set_x (Player.x p') p))))).
Proof.
  intros p'.
  destruct (resolveCollisions_invariant level p) as [Hl [Hvx [Hvy [Hc _]]]].
  fold p' in Hl, Hvx, Hvy, Hc.
  split; [|split; [|split; [|split]]]; try assumption.
  - intros Hg. destruct (Hl Hg) as [H1 [_ H3]]. now split.
  - apply resolveCollisions_frame.
Qed.

(** X13.  When none of the tiles the resolver visits is Solid, the pass
    only clears [grounded]: the player keeps its position and velocity. *)
Theorem resolveCollisions_in_the_air (level : Level.t) (p : Player.t) :
  (forall tx ty, scanned (Player.bounds p) tx ty ->
                 isSolidTile level tx ty = false) ->
  Player.resolveCollisions level p = Player.set_grounded false p.
Proof. apply resolveCollisions_clear. Qed.

Lemma resolveCollisions_in_the_air_witness :
  let p := Player.set_y 8 (Player.set_x 24 (Player.set_grounded true Player.reset)) in
  Player.resolveCollisions tinyLevel p = Player.set_grounded false p.
Proof.
  intros p. apply (resolveCollisions_in_the_air tinyLevel p).
  intros tx ty [Hx Hy].
  assert (Hx' : (1 <= tx <= 2)%Z) by exact Hx.
  assert (Hy' : (0 <= ty <= 1)%Z) by exact Hy.
  assert (Ex : (tx = 1 \/ tx = 2)%Z) by lia.
  assert (Ey : (ty = 0 \/ ty = 1)%Z) by lia.
  destruct Ex as [-> | ->]; destruct Ey as [-> | ->]; reflexivity.
Defined.

Lemma sameBody_trans (p q r : Player.t) :
  sameBody p q -> sameBody q r -> sameBody p r.
Proof. intros [H1 H2] [H3 H4]. split; congruence. Qed.

Lemma updateTimers_body (dt : Q) (p : Player.t) :
  sameBody p (Player.updateTimers dt p).
Proof.
  unfold Player.updateTimers.
  repeat match goal with |- context [if ?c then _ else _] => destruct c end;
    split; reflexivity.
Qed.

Lemma handleHorizontalMovement_body (input : Input.t) (dt : Q) (p : Player.t) :
  sameBody p (Player.handleHorizontalMovement input dt p).
Proof.
  unfold Player.handleHorizontalMovement.
  repeat match goal with |- context [if ?c then _ else _] => destruct c end;
    split; reflexivity.
Qed.

Lemma handleWallDetection_body (input : Input.t) (level : Level.t)
    (p : Player.t) :
  sameBody p (Player.handleWallDetection input level p).
Proof.
  unfold Player.handleWallDetection.
  repeat match goal with |- context [if ?c then _ else _] => destruct c end;
    split; reflexivity.
Qed.

Lemma handleJumping_body (input : Input.t) (p : Player.t) :
  sameBody p (Player.handleJumping input p) /\
  Player.jumpHeld (Player.handleJumping input p) = Input.jumpHeld input.
Proof.
  unfold Player.handleJumping, Player.handleJumping_cut,
    Player.handleJumping_launch.
  destruct (Input.jumpPressed input);
    repeat match goal with |- context [if ?c then _ else _] => destruct c end;
    repeat split.
Qed.

Lemma applyGravity_body (dt : Q) (p : Player.t) :
  sameBody p (Player.applyGravity dt p) /\
  Player.jumpHeld (Player.applyGravity dt p) = Player.jumpHeld p.
Proof.
  unfold Player.applyGravity.
  repeat match goal with |- context [if ?c then _ else _] => destruct c end;
    repeat split.
Qed.

Lemma resolveCollisions_body (level : Level.t) (p : Player.t) :
  sameBody p (Player.resolveCollisions level p) /\
  Player.jumpHeld (Player.resolveCollisions level p) = Player.jumpHeld p.
Proof.
  pose proof (resolveCollisions_frame level p) as E.
  cbv zeta in E. rewrite E. repeat split.
Qed.

(** X15.  After a whole [Player.update], a grounded player has [vy] zero
    and a full coyote timer, the player faces the way it moves whenever its
    speed is outside the 10-unit dead zone, [jumpHeld] is the input's, and
    the player's width and height are what they were. *)
Theorem update_frame_invariants (input : Input.t) (level : Level.t) (dt : Q)
    (p : Player.t) :
  let p' := Player.update input level dt p in
  (Player.grounded p' = true ->
     Player.vy p' = 0 /\ Player.coyoteTimer p' = COYOTE_TIME) /\
  (10 < Player.vx p' -> Player.facingRight p' = true) /\
  (Player.vx p' < - (10) -> Player.facingRight p' = false) /\
  Player.jumpHeld p' = Input.jumpHeld input /\
  Player.width p' = Player.width p /\ Player.height p' = Player.height p.
Proof.
  intros p'. subst p'. unfold Player.update.
  set (p1 := Player.updateTimers dt p).
  set (p2 := Player.handleHorizontalMovement input dt p1).
  set (p3 := Player.handleWallDetection input level p2).
  set (p4 := Player.handleJumping input p3).
  set (p5 := Player.applyGravity dt p4).
  set (p6 := Player.set_y _ (Player.set_x _ p5)).
  set (p7 := Player.resolveCollisions level p6).
  assert (Hb : sameBody p p7 /\ Player.jumpHeld p7 = Input.jumpHeld input).
  { destruct (handleJumping_body input p3) as [B4 J4].
    destruct (applyGravity_body dt p4) as [B5 J5].
    destruct (resolveCollisions_body level p6) as [B7 J7].
    split.
    - apply (sameBody_trans p p1); [apply updateTimers_body|].
      apply (sameBody_trans p1 p2); [apply handleHorizontalMovement_body|].
      apply (sameBody_trans p2 p3); [apply handleWallDetection_body|].
      apply (sameBody_trans p3 p4); [exact B4|].
      apply (sameBody_trans p4 p5); [exact B5|].
      apply (sameBody_trans p5 p6); [split; reflexivity | exact B7].
    - fold p7 in J7. rewrite J7. unfold p6. cbn [Player.jumpHeld Player.set_y Player.set_x].
      fold p5 in J5. now rewrite J5. }
  destruct Hb as [[Hw Hh] Hj].
  assert (Hl : Player.grounded p7 = true ->
                Player.vy p7 = 0 /\ Player.coyoteTimer p7 = COYOTE_TIME).
  { intros Hg.
    destruct (resolveCollisions_invariant level p6) as [Hinv _].
    destruct (Hinv Hg) as [H1 [_ H3]]. now split. }
  set (p8 := if Player.grounded p7 && negb (Player.grounded p)
             then Player.onLand p7 else p7).
  assert (H8 : Player.grounded p8 = Player.grounded p7 /\
               Player.vy p8 = Player.vy p7 /\ Player.vx p8 = Player.vx p7 /\
               (Player.grounded p7 = true ->
                Player.coyoteTimer p8 = COYOTE_TIME) /\
               Player.jumpHeld p8 = Player.jumpHeld p7 /\
               Player.width p8 = Player.width p7 /\
               Player.height p8 = Player.height p7).
  { unfold p8. destruct (_ && _); repeat split; intros Hg;
      try reflexivity; apply Hl; exact Hg. }
  destruct H8 as [G8 [V8 [X8 [C8 [J8 [W8 H8]]]]]].
  set (p9 := if Num.gtb (Player.vx p8) 10
             then Player.set_facingRight true p8
             else if Num.ltb (Player.vx p8) (-10)
                  then Player.set_facingRight false p8 else p8).
  assert (H9 : p9 = Player.set_facingRight (Player.facingRight p9) p8 /\
               (10 < Player.vx p8 -> Player.facingRight p9 = true) /\
               (Player.vx p8 < - (10) -> Player.facingRight p9 = false)).
  { unfold p9. destruct (gtbP (Player.vx p8) 10) as [Hr|Hr].
    - repeat split. intros Hlt. exfalso. lra.
    - destruct (ltbP (Player.vx p8) (-10)) as [Hlf|Hlf].
      + repeat split. intros Hgt. contradiction.
      + split; [destruct p8; reflexivity|].
        split; intros; contradiction. }
  destruct H9 as [E9 [R9 L9]].
  assert (Ha : forall q : Player.t,
            Player.updateAnimation dt q
            = Player.set_squashStretch
                (Player.squashStretch (Player.updateAnimation dt q))
                (Player.set_runTimer
                   (Player.runTimer (Player.updateAnimation dt q)) q)).
  { intros q. unfold Player.updateAnimation. destruct q.
    cbn [Player.grounded Player.vx].
    destruct (grounded && _); reflexivity. }
  rewrite (Ha p9). cbn [Player.grounded Player.vy Player.vx Player.coyoteTimer
    Player.facingRight Player.jumpHeld Player.width Player.height
    Player.set_squashStretch Player.set_runTimer].
  rewrite E9. cbn [Player.grounded Player.vy Player.vx Player.coyoteTimer
    Player.facingRight Player.jumpHeld Player.width Player.height
    Player.set_facingRight].
  rewrite G8, V8, J8, W8, H8. 
  split; [|split; [|split; [|split; [|split]]]]; try assumption.
  - intros Hg. split; [apply Hl; exact Hg | apply C8; exact Hg].
Qed.

(** ** Rectangles and particles *)

(** X16.  The overlap test is symmetric and half-open: rectangles that
    only share an edge (the right or bottom edge of one on the left or top
    edge of the other) do not overlap, and a rectangle whose width or height
    is not positive does not even overlap itself. *)
Theorem rectsOverlap_half_open (a b : Rect.t) :
  Game.rectsOverlap a b = Game.rectsOverlap b a /\
  (Rect.x a + Rect.width a == Rect.x b -> Game.rectsOverlap a b = false) /\
  (Rect.y a + Rect.height a == Rect.y b -> Game.rectsOverlap a b = false) /\
  (Game.rectsOverlap a a = true -> 0 < Rect.width a /\ 0 < Rect.height a).
Proof.
  unfold Game.rectsOverlap, Num.gtb. repeat split.
  - repeat match goal with
    | |- context [Num.ltb ?u ?v] => destruct (Num.ltb u v)
    end; reflexivity.
  - intros H.
    destruct (ltbP (Rect.x b) (Rect.x a + Rect.width a)); [exfalso; lra|].
    now rewrite andb_false_r.
  - intros H.
    destruct (ltbP (Rect.y b) (Rect.y a + Rect.height a)); [exfalso; lra|].
    now rewrite !andb_false_r.
  - destruct (ltbP (Rect.x a) (Rect.x a + Rect.width a)); [lra|].
    discriminate.
  - destruct (ltbP (Rect.x a) (Rect.x a + Rect.width a));
      [|discriminate].
    destruct (ltbP (Rect.y a) (Rect.y a + Rect.height a)); [lra|].
    cbn. discriminate.
Qed.

Lemma rectsOverlap_half_open_witness :
  Game.rectsOverlap (Rect.mk 0 0 16 16) (Rect.mk 16 0 16 16) = false /\
  Game.rectsOverlap (Rect.mk 16 0 16 16) (Rect.mk 0 0 16 16) = false.
Proof.
  destruct (rectsOverlap_half_open (Rect.mk 0 0 16 16) (Rect.mk 16 0 16 16))
    as [_ [H _]].
  destruct (rectsOverlap_half_open (Rect.mk 16 0 16 16) (Rect.mk 0 0 16 16))
    as [Hs _].
  split; [apply H; reflexivity|].
  rewrite Hs. apply H. reflexivity.
Defined.

Lemma Particle_new_fresh (rt : Runtime.t) (px py : Q) (calls : nat) :
  unitDraws rt ->
  freshParticle px py (fst (Particle.new rt px py calls)) /\
  snd (Particle.new rt px py calls) = (calls + 4)%nat.
Proof.
  intros Hrt. unfold Particle.new, freshParticle. cbn.
  destruct (Hrt (S (S calls))) as [L0 L1].
  destruct (Hrt (S (S (S calls)))) as [S0 S1].
  assert (0 <= Runtime.Math_random rt (S (S calls)) * (5 # 10))
    by (apply Qmult_le_0_compat; [exact L0 | discriminate]).
  repeat split; try lra. lia.
Qed.

Lemma pushParticles_fresh (rt : Runtime.t) (px py : Q) :
  unitDraws rt ->
  forall (n : nat) (ps : list Particle.t) (calls : nat),
  exists news : list Particle.t,
    Game.pushParticles rt n px py ps calls = (ps ++ news, (calls + 4 * n)%nat) /\
    List.length news = n /\
    Forall (freshParticle px py) news.
Proof.
  intros Hrt. induction n as [|n IH]; intros ps calls.
  - exists []. cbn. rewrite app_nil_r. repeat split; [f_equal; lia | constructor].
  - cbn [Game.pushParticles].
    destruct (Particle_new_fresh rt px py calls Hrt) as [Hf Hc].
    destruct (Particle.new rt px py calls) as [pt calls'] eqn:E.
    cbn [fst snd] in Hf, Hc. subst calls'.
    destruct (IH (ps ++ [pt]) (calls + 4)%nat) as [news [E' [L F]]].
    exists (pt :: news). rewrite E', <- app_assoc.
    split; [cbn [app]; f_equal; lia|].
    split; [cbn; now rewrite L | now constructor].
Qed.

(** X17.  With [Math.random] in [0, 1), [spawnDeathParticles] appends
    exactly 20 particles after the ones already there, each at the given
    point with a lifetime in [0.3, 0.8) equal to its [maxLife], a size in
    [3, 8) and full alpha, makes 80 calls of [Math.random], and changes
    nothing else of the session. *)
Theorem spawnDeathParticles_burst (rt : Runtime.t) (px py : Q) (g : Game.t) :
  unitDraws rt ->
  exists news : list Particle.t,
    Game.spawnDeathParticles rt px py g
    = Game.set_randomCalls (Game.randomCalls g + 80)%nat
        (Game.set_particles (Game.particles g ++ news) g) /\
    List.length news = 20%nat /\
    Forall (freshParticle px py) news.
Proof.
  intros Hrt. unfold Game.spawnDeathParticles.
  destruct (pushParticles_fresh rt px py Hrt 20 (Game.particles g)
              (Game.randomCalls g)) as [news [E [L F]]].
  exists news. rewrite E. repeat split; assumption.
Qed.

Lemma sampleRuntime_draws : unitDraws sampleRuntime.
Proof. intros n. split; [discriminate | reflexivity]. Qed.

Lemma spawnDeathParticles_burst_witness :
  exists news : list Particle.t,
    Game.spawnDeathParticles sampleRuntime 56 312 (startPlaying tinyLevel)
    = Game.set_randomCalls 80%nat
        (Game.set_particles news (startPlaying tinyLevel)) /\
    List.length news = 20%nat /\
    Forall (freshParticle 56 312) news.
Proof.
  exact (spawnDeathParticles_burst sampleRuntime 56 312
           (startPlaying tinyLevel) sampleRuntime_draws).
Defined.

Lemma Particle_update_life (dt : Q) (p : Particle.t) :
  Particle.life (snd (Particle.update dt p)) = Particle.life p - dt.
Proof.
  unfold Particle.update. destruct (Num.leb _ _); reflexivity.
Qed.

(** X18.  [Particle.update] answers alive exactly when the particle's
    life exceeds the time step; it takes the step off [life] either way and
    never touches [maxLife], [size] or the colour; and for a live particle
    whose life is within its [maxLife], the alpha it computes stays in
    0..255. *)
Theorem Particle_update_alive (dt : Q) (p : Particle.t) :
  let alive := fst (Particle.update dt p) in
  let p' := snd (Particle.update dt p) in
  (alive = true <-> dt < Particle.life p) /\
  Particle.life p' = Particle.life p - dt /\
  Particle.maxLife p' = Particle.maxLife p /\
  Particle.size p' = Particle.size p /\
  (Particle.r p', Particle.g p', Particle.b p')
  = (Particle.r p, Particle.g p, Particle.b p) /\
  (alive = true -> 0 <= dt -> Particle.life p <= Particle.maxLife p ->
     (0 <= Particle.a p' <= 255)%Z).
Proof.
  unfold Particle.update.
  destruct (lebP (Particle.life p - dt) 0) as [H|H]; cbn [fst snd].
  - repeat split; try discriminate. intros Hlt. exfalso. lra.
  - apply Qnot_le_lt in H.
    cbn [Particle.life Particle.maxLife Particle.size Particle.r Particle.g
         Particle.b Particle.a].
    split; [split; [intros _; lra | reflexivity]|].
    repeat split.
    + change 0%Z with (Qfloor 0). apply Qfloor_resp_le.
      apply Qmult_le_0_compat; [|discriminate].
      apply Qle_shift_div_l; lra.
    + rewrite <- (Qfloor_Z 255). apply Qfloor_resp_le.
      assert (Hq : (Particle.life p - dt) / Particle.maxLife p <= 1)
        by (apply Qle_shift_div_r; lra).
      change (inject_Z 255) with (1 * 255). 
      apply Qmult_le_compat_r; [exact Hq | discriminate].
Qed.

Lemma Particle_update_alive_witness :
  let p := fst (Particle.new sampleRuntime 0 0 0) in
  (0 <= Particle.a (snd (Particle.update (1 # 10) p)) <= 255)%Z.
Proof.
  intros p.
  destruct (Particle_update_alive (1 # 10) p) as [_ [_ [_ [_ [_ H]]]]].
  apply H; [reflexivity | discriminate | discriminate].
Defined.

Lemma particle_step_alive (dt : Q) (pt : Particle.t) :
  (let '(alive, p) := Particle.update dt pt in if alive then [p] else [])
  = if Num.gtb (Particle.life pt) dt
    then [snd (Particle.update dt pt)] else [].
Proof.
  unfold Particle.update.
  destruct (lebP (Particle.life pt - dt) 0) as [H|H];
    destruct (gtbP (Particle.life pt) dt) as [H'|H'];
    try reflexivity; exfalso;
    try apply Qnot_le_lt in H; try apply Qnot_lt_le in H'; lra.
Qed.

Lemma updateParticles_step (dt : Q) (ps : list Particle.t) (g : Game.t) :
  Game.particles g = ps ->
  Game.particles (Game.updateParticles dt g)
  = map (fun p => snd (Particle.update dt p))
      (filter (fun p => Num.gtb (Particle.life p) dt) ps).
Proof.
  intros <-. unfold Game.updateParticles.
  cbn [Game.particles Game.set_particles].
  induction (Game.particles g) as [|pt ps IH]; [reflexivity|].
  cbn [flat_map filter]. rewrite IH, particle_step_alive.
  destruct (Num.gtb (Particle.life pt) dt); reflexivity.
Qed.

Lemma updateParticles_positive (dt : Q) (g : Game.t) :
  Forall (fun p => 0 < Particle.life p)
    (Game.particles (Game.updateParticles dt g)).
Proof.
  rewrite (updateParticles_step dt (Game.particles g) g eq_refl).
  apply Forall_forall. intros q Hq.
  apply in_map_iff in Hq. destruct Hq as [p [<- Hp]].
  apply filter_In in Hp. destruct Hp as [_ Hp].
  destruct (gtbP (Particle.life p) dt) as [Hlt|]; [|discriminate].
  rewrite Particle_update_life. lra.
Qed.

(** X19.  [updateParticles] keeps, in order, exactly the particles whose
    life exceeds the time step, each as its own [update] leaves it; so the
    collection never grows, every particle left has positive life, and
    nothing else of the session changes. *)
Theorem updateParticles_prunes (dt : Q) (g : Game.t) :
  let g' := Game.updateParticles dt g in
  Game.particles g'
  = map (fun p => snd (Particle.update dt p))
      (filter (fun p => Num.gtb (Particle.life p) dt) (Game.particles g)) /\
  (List.length (Game.particles g') <= List.length (Game.particles g))%nat /\
  Forall (fun p => 0 < Particle.life p) (Game.particles g') /\
  g' = Game.set_particles (Game.particles g') g.
Proof.
  intros g'. subst g'.
  pose proof (updateParticles_step dt (Game.particles g) g eq_refl) as E.
  split; [exact E|]. split; [|split; [|reflexivity]].
  - rewrite E, length_map. apply filter_length_le.
  - apply updateParticles_positive.
Qed.

Lemma Particle_update_aged (dt : Q) (p : Particle.t) :
  0 <= dt -> agedFrom p (snd (Particle.update dt p)).
Proof.
  intros Hdt. unfold agedFrom. rewrite Particle_update_life.
  split; [lra|]. unfold Particle.update.
  destruct (Num.leb _ _); split; reflexivity.
Qed.

Lemma agedFrom_trans (p q r : Particle.t) :
  agedFrom p q -> agedFrom q r -> agedFrom p r.
Proof.
  intros [H1 [H2 H3]] [K1 [K2 K3]].
  split; [lra|]. split; congruence.
Qed.

Lemma updateParticles_aged (dt : Q) (g : Game.t) :
  0 <= dt ->
  Forall (fun q => exists p, In p (Game.particles g) /\ agedFrom p q)
    (Game.particles (Game.updateParticles dt g)).
Proof.
  intros Hdt.
  rewrite (updateParticles_step dt (Game.particles g) g eq_refl).
  apply Forall_forall. intros q Hq.
  apply in_map_iff in Hq. destruct Hq as [p [<- Hp]].
  apply filter_In in Hp. destruct Hp as [Hp _].
  exists p. split; [exact Hp | now apply Particle_update_aged].
Qed.

Lemma updateParticles_clears (dt : Q) (g : Game.t) :
  Forall (fun p => Particle.life p <= dt) (Game.particles g) ->
  Game.particles (Game.updateParticles dt g) = [].
Proof.
  intros H.
  rewrite (updateParticles_step dt (Game.particles g) g eq_refl).
  induction H as [|p ps Hp _ IH]; [reflexivity|].
  cbn [filter].
  destruct (gtbP (Particle.life p) dt); [exfalso; lra | exact IH].
Qed.

Lemma updateParticles_length (dt : Q) (g : Game.t) :
  (List.length (Game.particles (Game.updateParticles dt g))
   <= List.length (Game.particles g))%nat.
Proof.
  rewrite (updateParticles_step dt (Game.particles g) g eq_refl), length_map.
  apply filter_length_le.
Qed.

Lemma ageParticles_length (dts : list Q) (g : Game.t) :
  (List.length (Game.particles (ageParticles dts g))
   <= List.length (Game.particles g))%nat.
Proof.
  revert g. induction dts as [|dt dts IH]; intros g; [apply Nat.le_refl|].
  cbn [ageParticles fold_left].
  fold (ageParticles dts (Game.updateParticles dt g)).
  eapply Nat.le_trans; [apply IH | apply updateParticles_length].
Qed.

Lemma ageParticles_frame (dts : list Q) (g : Game.t) :
  ageParticles dts g
  = Game.set_particles (Game.particles (ageParticles dts g)) g.
Proof.
  revert g. induction dts as [|dt dts IH]; intros g;
    [destruct g; reflexivity|].
  cbn [ageParticles fold_left].
  fold (ageParticles dts (Game.updateParticles dt g)).
  rewrite IH at 1. destruct g; reflexivity.
Qed.

Lemma ageParticles_aged (dts : list Q) (g : Game.t) :
  Forall (fun dt => 0 <= dt) dts ->
  Forall (fun q => exists p, In p (Game.particles g) /\ agedFrom p q)
    (Game.particles (ageParticles dts g)).
Proof.
  revert g. induction dts as [|dt dts IH]; intros g Hdts.
  - apply Forall_forall. intros q Hq. exists q. split; [exact Hq|].
    split; [lra | split; reflexivity].
  - inversion Hdts as [|? ? Hdt Hrest]; subst.
    cbn [ageParticles fold_left].
    fold (ageParticles dts (Game.updateParticles dt g)).
    specialize (IH (Game.updateParticles dt g) Hrest).
    pose proof (updateParticles_aged dt g Hdt) as Hstep.
    rewrite Forall_forall in IH, Hstep. apply Forall_forall. intros r Hr.
    destruct (IH r Hr) as [q [Hq Hqr]].
    destruct (Hstep q Hq) as [p [Hp Hpq]].
    exists p. split; [exact Hp | exact (agedFrom_trans p q r Hpq Hqr)].
Qed.

Lemma ageParticles_positive (dts : list Q) (dt : Q) (g : Game.t) :
  Forall (fun p => 0 < Particle.life p)
    (Game.particles (ageParticles (dts ++ [dt]) g)).
Proof.
  unfold ageParticles. rewrite fold_left_app. cbn [fold_left].
  apply updateParticles_positive.
Qed.

(** X20.  Over any run of frames with time steps that are not negative,
    [updateParticles] only ages the particles: nothing else of the session
    changes, the collection never grows, every particle left is one of the
    original ones ([maxLife] and [size] kept) with no more life than it
    had, and positive life once a frame has passed.  A frame whose time step
    is at least the longest life the run began with leaves the collection
    empty from then on. *)
Theorem particles_only_age (dts : list Q) (g : Game.t) :
  Forall (fun dt => 0 <= dt) dts ->
  let g' := ageParticles dts g in
  g' = Game.set_particles (Game.particles g') g /\
  (List.length (Game.particles g') <= List.length (Game.particles g))%nat /\
  Forall (fun q => exists p, In p (Game.particles g) /\ agedFrom p q)
    (Game.particles g') /\
  (dts <> [] -> Forall (fun q => 0 < Particle.life q) (Game.particles g')) /\
  (forall dt : Q,
     In dt dts ->
     Forall (fun p => Particle.life p <= dt) (Game.particles g) ->
     Game.particles g' = []).
Proof.
  intros Hdts g'. subst g'.
  split; [apply ageParticles_frame|].
  split; [apply ageParticles_length|].
  split; [now apply ageParticles_aged|].
  split.
  - intros Hne. destruct (exists_last Hne) as [dts' [dt ->]].
    apply ageParticles_positive.
  - intros dt Hin Hall.
    destruct (in_split dt dts Hin) as [l1 [l2 ->]].
    unfold ageParticles. rewrite fold_left_app. cbn [fold_left].
    fold (ageParticles l1 g).
    fold (ageParticles l2 (Game.updateParticles dt (ageParticles l1 g))).
    assert (Hl1 : Forall (fun dt => 0 <= dt) l1)
      by (apply Forall_app in Hdts; apply Hdts).
    assert (Hclear :
      Game.particles (Game.updateParticles dt (ageParticles l1 g)) = []).
    { apply updateParticles_clears.
      pose proof (ageParticles_aged l1 g Hl1) as Ha.
      rewrite Forall_forall in Ha, Hall. apply Forall_forall. intros q Hq.
      destruct (Ha q Hq) as [p [Hp [Hlife _]]].
      specialize (Hall p Hp). cbv beta in Hall. lra. }
    pose proof (ageParticles_length l2
                  (Game.updateParticles dt (ageParticles l1 g))) as Hlen.
    rewrite Hclear in Hlen.
    destruct (Game.particles (ageParticles l2 _)); [reflexivity|].
    cbn in Hlen. lia.
Qed.

Lemma particles_only_age_witness :
  Game.particles
    (ageParticles [1 # 10; 6 # 10; 1 # 60]
       (Game.set_particles [fst (Particle.new sampleRuntime 0 0 0)]
          (Game.new tinyLevel)))
  = [].
Proof.
  refine (proj2 (proj2 (proj2 (proj2
            (particles_only_age [1 # 10; 6 # 10; 1 # 60]
               (Game.set_particles [fst (Particle.new sampleRuntime 0 0 0)]
                  (Game.new tinyLevel)) _)))) (6 # 10) _ _).
  - repeat constructor; discriminate.
  - right. left. reflexivity.
  - constructor; [vm_compute; discriminate | constructor].
Defined.

(** ** The session state machine *)

Lemma updatePlaying_cases (rt : Runtime.t) (input : Input.t) (dt : Q)
    (g : Game.t) :
  let g1 :=
    Game.set_player
      (Player.update input (Game.level g) dt (Game.player g)) g in
  let up := Game.updatePlaying rt input dt g in
  (Input.pausePressed input = true /\ up = Game.set_state PAUSED g) \/
  (Input.pausePressed input = false /\
   Game.checkHazardCollision g1 = true /\ up = Game.killPlayer rt g1) \/
  (Input.pausePressed input = false /\
   Game.checkHazardCollision g1 = false /\
   Game.checkGoalCollision g1 = true /\ up = Game.completeLevel g1) \/
  (Input.pausePressed input = false /\
   Game.checkHazardCollision g1 = false /\
   Game.checkGoalCollision g1 = false /\
   Game.state up = Game.state g /\
   Game.deathCount up = Game.deathCount g /\
   Game.levelTime up = Game.levelTime g + dt /\
   Game.totalTime up = Game.totalTime g + dt /\
   Game.player up = Game.player g1 /\
   Game.particles up = Game.particles g).
Proof.
  intros g1 up. subst up. unfold Game.updatePlaying.
  destruct (Input.pausePressed input); [left; now split|]. right.
  fold g1.
  destruct (Game.checkHazardCollision g1); [left; now repeat split|]. right.
  destruct (Game.checkGoalCollision g1); [left; now repeat split|]. right.
  destruct (Camera.update rt (Game.player g1) dt (Game.camera g1)
              (Game.randomCalls g1)) as [c calls].
  repeat split.
Qed.

Lemma updateLevelComplete_cases (rt : Runtime.t) (input : Input.t) (g : Game.t) :
  let g' := Game.updateLevelComplete rt input g in
  (Input.jumpPressed input || Input.startPressed input = false /\ g' = g) \/
  (Input.jumpPressed input || Input.startPressed input = true /\
   Game.state g' = PLAYING /\ Game.levelTime g' = 0 /\
   Game.deathCount g' = Game.deathCount g /\
   Game.totalTime g' = Game.totalTime g /\
   Game.particles g' = Game.particles g /\
   Game.player g'
   = spawned (Level.spawnX (Game.level g')) (Level.spawnY (Game.level g'))).
Proof.
  intros g'. subst g'. unfold Game.updateLevelComplete.
  destruct (Input.jumpPressed input || Input.startPressed input);
    [right | left; now split].
  split; [reflexivity|].
  repeat match goal with
  | |- context [match ?t with Some _ => _ | None => _ end] => destruct t
  end; repeat split.
Qed.

Lemma updateDead_cases (dt : Q) (g : Game.t) :
  let g' := Game.updateDead dt g in
  (Game.deathTimer g - dt <= 0 /\
   g' = Game.set_state PLAYING
          (Game.respawnPlayer (Game.set_deathTimer (Game.deathTimer g - dt) g))) \/
  (0 < Game.deathTimer g - dt /\
   g' = Game.set_deathTimer (Game.deathTimer g - dt) g).
Proof.
  intros g'. subst g'. unfold Game.updateDead.
  cbn [Game.deathTimer Game.set_deathTimer].
  destruct (lebP (Game.deathTimer g - dt) 0) as [H|H]; [left | right];
    split; try assumption; try reflexivity.
  now apply Qnot_le_lt.
Qed.

(** X21.  The transitions of [Game.update].  Menu leaves to Playing, on a
    jump or start press only.  Playing never returns to Menu, and becomes
    Paused exactly on a pause press.  Paused leaves to Playing, on a pause
    press only.  Dead leaves to Playing, exactly when the respawn timer
    minus the time step is zero or less.  LevelComplete leaves to Playing,
    on a jump or start press only. *)
Theorem update_transitions (rt : Runtime.t) (input : Input.t) (dt : Q)
    (g : Game.t) :
  let s' := Game.state (Game.update rt input dt g) in
  match Game.state g with
  | MENU =>
      (s' = MENU \/ s' = PLAYING) /\
      (s' = PLAYING <->
       Input.jumpPressed input || Input.startPressed input = true)
  | PLAYING =>
      s' <> MENU /\ (s' = PAUSED <-> Input.pausePressed input = true)
  | PAUSED =>
      (s' = PAUSED \/ s' = PLAYING) /\
      (s' = PLAYING <-> Input.pausePressed input = true)
  | DEAD =>
      (s' = DEAD \/ s' = PLAYING) /\
      (s' = PLAYING <-> Game.deathTimer g - dt <= 0)
  | LEVEL_COMPLETE =>
      (s' = LEVEL_COMPLETE \/ s' = PLAYING) /\
      (s' = PLAYING <->
       Input.jumpPressed input || Input.startPressed input = true)
  end.
Proof.
  intros s'. subst s'. unfold Game.update.
  destruct (Game.state g) eqn:Hst;
    match goal with
    | |- context [Game.updateParticles dt ?x] =>
        destruct (updateParticles_state dt x) as [-> _]
    end.
  - unfold Game.updateMenu.
    destruct (Input.jumpPressed input || Input.startPressed input); cbn.
    + split; [now right | now split].
    + rewrite Hst. split; [now left | split; discriminate].
  - destruct (updatePlaying_cases rt input dt g)
      as [[Hp ->] | [[Hp [_ ->]] | [[Hp [_ [_ ->]]] | [Hp [_ [_ [Hs _]]]]]]].
    + cbn. split; [discriminate | now split].
    + rewrite (proj1 (killPlayer_state rt _)), Hp.
      split; [discriminate | split; discriminate].
    + cbn. rewrite Hp. split; [discriminate | split; discriminate].
    + rewrite Hs, Hst, Hp. split; [discriminate | split; discriminate].
  - destruct (Input.pausePressed input); cbn.
    + split; [now right | now split].
    + rewrite Hst. split; [now left | split; discriminate].
  - destruct (updateDead_cases dt g) as [[Hle ->] | [Hgt ->]]; cbn.
    + split; [now right | now split].
    + rewrite Hst. split; [now left|].
      split; [discriminate | intros Hle; exfalso; lra].
  - destruct (updateLevelComplete_cases rt input g)
      as [[Hp ->] | [Hp [-> _]]]; rewrite Hp.
    + rewrite Hst. split; [now left | split; discriminate].
    + split; [now right | now split].
Qed.

(** X22.  The death count never decreases and grows by at most one per
    update; it grows exactly in the update that takes the session from
    Playing to Dead. *)
Theorem deathCount_counts_deaths (rt : Runtime.t) (input : Input.t) (dt : Q)
    (g : Game.t) :
  let g' := Game.update rt input dt g in
  (Game.deathCount g' = Game.deathCount g \/
   Game.deathCount g' = (Game.deathCount g + 1)%Z) /\
  (Game.deathCount g' = (Game.deathCount g + 1)%Z <->
   Game.state g = PLAYING /\ Game.state g' = DEAD).
Proof.
  intros g'. subst g'. unfold Game.update.
  destruct (Game.state g) eqn:Hst;
    match goal with
    | |- context [Game.updateParticles dt ?x] =>
        destruct (updateParticles_state dt x) as [-> [-> _]]
    end.
  - unfold Game.updateMenu.
    destruct (_ || _); cbn; (split; [now left|]);
      (split; [lia | intros [H _]; discriminate]).
  - destruct (updatePlaying_cases rt input dt g)
      as [[Hp ->] | [[Hp [_ ->]] | [[Hp [_ [_ ->]]] | [Hp [_ [_ [Hs [Hd _]]]]]]]].
    + cbn. split; [now left|].
      split; [lia | intros [_ H]; discriminate].
    + destruct (killPlayer_state rt
                  (Game.set_player
                     (Player.update input (Game.level g) dt (Game.player g)) g))
        as [-> ->].
      cbn. split; [now right | split; [now split | reflexivity]].
    + cbn. split; [now left|].
      split; [lia | intros [_ H]; discriminate].
    + rewrite Hs, Hd, Hst. split; [now left|].
      split; [lia | intros [_ H]; discriminate].
  - destruct (Input.pausePressed input); cbn; (split; [now left|]);
      (split; [lia | intros [H _]; discriminate]).
  - destruct (updateDead_cases dt g) as [[Hle ->] | [Hgt ->]]; cbn;
      (split; [now left|]); (split; [lia | intros [H _]; discriminate]).
  - destruct (updateLevelComplete_cases rt input g)
      as [[Hp ->] | [Hp [_ [_ [-> _]]]]]; (split; [now left|]);
      (split; [lia | intros [H _]; discriminate]).
Qed.

(** X23.  The clocks.  [levelTime] and [totalTime] advance, by the time
    step, exactly in a Playing frame that stays Playing; the update that
    leaves LevelComplete resets [levelTime] to zero; in every other update
    both are left alone - in particular a death and the respawn after it do
    not reset the level clock. *)
Theorem update_clocks (rt : Runtime.t) (input : Input.t) (dt : Q)
    (g : Game.t) :
  let g' := Game.update rt input dt g in
  match Game.state g, Game.state g' with
  | PLAYING, PLAYING =>
      Game.levelTime g' = Game.levelTime g + dt /\
      Game.totalTime g' = Game.totalTime g + dt
  | LEVEL_COMPLETE, PLAYING =>
      Game.levelTime g' = 0 /\ Game.totalTime g' = Game.totalTime g
  | _, _ =>
      Game.levelTime g' = Game.levelTime g /\
      Game.totalTime g' = Game.totalTime g
  end.
Proof.
  intros g'. subst g'. unfold Game.update.
  assert (Hu : forall x,
            Game.state (Game.updateParticles dt x) = Game.state x /\
            Game.levelTime (Game.updateParticles dt x) = Game.levelTime x /\
            Game.totalTime (Game.updateParticles dt x) = Game.totalTime x)
    by (intros x; repeat split).
  destruct (Game.state g) eqn:Hst;
    match goal with
    | |- context [Game.updateParticles dt ?x] =>
        destruct (Hu x) as [E1 [E2 E3]]; rewrite ?E1, ?E2, ?E3; clear E1 E2 E3
    end.
  - unfold Game.updateMenu. destruct (_ || _); cbn; rewrite ?Hst; now split.
  - destruct (updatePlaying_cases rt input dt g)
      as [[Hp ->] | [[Hp [_ ->]] | [[Hp [_ [_ ->]]] | [Hp [_ [_ [Hs [_ [Hl [Ht _]]]]]]]]]].
    + cbn. now split.
    + rewrite (proj1 (killPlayer_state rt _)).
      unfold Game.killPlayer, Game.spawnDeathParticles.
      destruct (Game.pushParticles _ _ _ _ _ _). now split.
    + cbn. now split.
    + rewrite ?Hs, ?Hst. now split.
  - destruct (Input.pausePressed input); cbn; rewrite ?Hst; now split.
  - destruct (updateDead_cases dt g) as [[Hle ->] | [Hgt ->]]; cbn;
      rewrite ?Hst; now split.
  - destruct (updateLevelComplete_cases rt input g)
      as [[Hp ->] | [Hp [-> [-> [_ [-> _]]]]]]; rewrite ?Hst; now split.
Qed.

(** X24.  Pausing freezes the game: while Paused, an update without a
    pause press only ages the particles; and a pause press followed by a
    second one brings back the very session that was paused - player,
    level, clocks, camera and death count untouched - but for the ageing
    of the particles. *)
Theorem pause_freezes (rt : Runtime.t) (i1 i2 : Input.t) (dt1 dt2 : Q)
    (g : Game.t) :
  (Game.state g = PAUSED -> Input.pausePressed i1 = false ->
     Game.update rt i1 dt1 g = Game.updateParticles dt1 g) /\
  (Game.state g = PLAYING -> Input.pausePressed i1 = true ->
     Input.pausePressed i2 = true ->
     Game.update rt i2 dt2 (Game.update rt i1 dt1 g)
     = Game.updateParticles dt2 (Game.updateParticles dt1 g)).
Proof.
  split.
  - intros Hst Hp. unfold Game.update. now rewrite Hst, Hp.
  - intros Hst Hp1 Hp2.
    assert (E1 : Game.update rt i1 dt1 g
                 = Game.updateParticles dt1 (Game.set_state PAUSED g)).
    { unfold Game.update at 1. rewrite Hst. unfold Game.updatePlaying.
      now rewrite Hp1. }
    rewrite E1. unfold Game.update.
    cbn [Game.state Game.updateParticles Game.set_particles Game.set_state].
    rewrite Hp2. destruct g. cbn in *. subst. reflexivity.
Qed.

Lemma pause_freezes_witness :
  let pause :=
    {| Input.moveX := 1; Input.moveY := 0; Input.jumpPressed := false;
       Input.jumpHeld := false; Input.pausePressed := true;
       Input.startPressed := false |} in
  Game.update sampleRuntime pause (1 # 60)
    (Game.update sampleRuntime pause (1 # 60) (startPlaying tinyLevel))
  = Game.updateParticles (1 # 60)
      (Game.updateParticles (1 # 60) (startPlaying tinyLevel)).
Proof.
  intros pause.
  apply (pause_freezes sampleRuntime pause pause (1 # 60) (1 # 60)
           (startPlaying tinyLevel)); reflexivity.
Defined.

Lemma spawnPlayer_effects (g : Game.t) :
  Game.player (Game.spawnPlayer g)
  = spawned (Level.spawnX (Game.level g)) (Level.spawnY (Game.level g)) /\
  Camera.x (Game.camera (Game.spawnPlayer g)) = Level.spawnX (Game.level g) /\
  Camera.y (Game.camera (Game.spawnPlayer g)) = Level.spawnY (Game.level g) /\
  Camera.shakeTimer (Game.camera (Game.spawnPlayer g))
  = Camera.shakeTimer (Game.camera g) /\
  Camera.shakeAmount (Game.camera (Game.spawnPlayer g))
  = Camera.shakeAmount (Game.camera g).
Proof. repeat split. Qed.

(** X25.  Death and respawn.  [killPlayer] arms the respawn timer with
    0.5 and the camera shake with 0.3.  A Dead session whose timer, less
    the time step, is still positive stays Dead with the player where it
    died; otherwise the update respawns: the session is Playing, the player
    is a reset player at the level's spawn point and the camera is on it.
    In neither case does the camera shake run: its timer is what
    [killPlayer] left, so the death shake plays after the respawn. *)
Theorem dead_then_respawn (rt : Runtime.t) (input : Input.t) (dt : Q)
    (g : Game.t) :
  (Game.deathTimer (Game.killPlayer rt g) = Game.DEATH_RESPAWN_TIME /\
   Camera.shakeTimer (Game.camera (Game.killPlayer rt g)) = 3 # 10) /\
  (Game.state g = DEAD ->
   let g' := Game.update rt input dt g in
   Camera.shakeTimer (Game.camera g') = Camera.shakeTimer (Game.camera g) /\
   (0 < Game.deathTimer g - dt ->
      Game.state g' = DEAD /\ Game.player g' = Game.player g /\
      Game.deathTimer g' = Game.deathTimer g - dt) /\
   (Game.deathTimer g - dt <= 0 ->
      Game.state g' = PLAYING /\
      Game.player g'
      = spawned (Level.spawnX (Game.level g)) (Level.spawnY (Game.level g)) /\
      Camera.x (Game.camera g') = Level.spawnX (Game.level g) /\
      Camera.y (Game.camera g') = Level.spawnY (Game.level g))).
Proof.
  split.
  - unfold Game.killPlayer, Game.spawnDeathParticles.
    destruct (Game.pushParticles _ _ _ _ _ _). split; reflexivity.
  - intros Hst g'. subst g'. unfold Game.update. rewrite Hst.
    destruct (updateDead_cases dt g) as [[Hle ->] | [Hgt ->]].
    + repeat split; try reflexivity; exfalso; lra.
    + repeat split; try reflexivity; try exact Hst; exfalso; lra.
Qed.

Lemma dead_then_respawn_witness :
  let g := Game.killPlayer sampleRuntime (startPlaying tinyLevel) in
  Game.state (Game.update sampleRuntime noInput (1 # 10) g) = DEAD /\
  Game.state (Game.update sampleRuntime noInput (1 # 2) g) = PLAYING.
Proof.
  intros g.
  destruct (dead_then_respawn sampleRuntime noInput (1 # 10) g) as [_ H1].
  destruct (dead_then_respawn sampleRuntime noInput (1 # 2) g) as [_ H2].
  specialize (H1 eq_refl). specialize (H2 eq_refl). cbv zeta in H1, H2.
  destruct H1 as [_ [H1 _]]. destruct H2 as [_ [_ H2]].
  split; [apply H1; reflexivity | apply H2; discriminate].
Defined.

Lemma tryLoad_holds (rt : Runtime.t) (path content : string) :
  fileHolds rt path content ->
  Game.tryLoad rt path = Some (loadLevel (Runtime.JSON_parse rt) content).
Proof.
  intros [E Hne]. unfold Game.tryLoad. rewrite E.
  destruct (String.eqb_spec content ""); [contradiction | reflexivity].
Qed.

Lemma tryLoad_missing (rt : Runtime.t) (path : string) :
  fileMissing rt path -> Game.tryLoad rt path = None.
Proof. intros [E | E]; unfold Game.tryLoad; rewrite E; reflexivity. Qed.

(** X26.  Advancing from LevelComplete on a jump or start press.  The
    session is Playing with [levelTime] zero and a reset player at the spawn
    point of the level then installed.  If the next level's file is there
    and loads, that level is installed and the index grows by one; if it is
    there but does not load, the old level is kept although the index has
    grown; if it is missing, the index wraps to 0 and level 1 is installed
    when its file is there and loads, the old level kept otherwise. *)
Theorem level_complete_advance (rt : Runtime.t) (input : Input.t)
    (g : Game.t) :
  Input.jumpPressed input || Input.startPressed input = true ->
  let g' := Game.updateLevelComplete rt input g in
  let next := nextLevelPath (Game.currentLevelIndex g) in
  let first := "assets/levels/level1.json"%string in
  (Game.state g' = PLAYING /\ Game.levelTime g' = 0 /\
   Game.player g'
   = spawned (Level.spawnX (Game.level g')) (Level.spawnY (Game.level g'))) /\
  (forall content : string,
     fileHolds rt next content ->
     Game.currentLevelIndex g' = (Game.currentLevelIndex g + 1)%Z /\
     Game.level g'
     = match loadLevel (Runtime.JSON_parse rt) content with
       | Some lvl => lvl
       | None => Game.level g
       end) /\
  (fileMissing rt next ->
   Game.currentLevelIndex g' = 0%Z /\
   (forall content : string,
      fileHolds rt first content ->
      Game.level g'
      = match loadLevel (Runtime.JSON_parse rt) content with
        | Some lvl => lvl
        | None => Game.level g
        end) /\
   (fileMissing rt first -> Game.level g' = Game.level g)).
Proof.
  intros Hp g' next first.
  destruct (updateLevelComplete_cases rt input g)
    as [[Hn _] | [_ [Hs [Hl [_ [_ [_ Hpl]]]]]]]; [congruence|].
  fold g' in Hs, Hl, Hpl.
  split; [repeat split; assumption|].
  subst g'. unfold Game.updateLevelComplete. rewrite Hp.
  cbn [Game.currentLevelIndex Game.set_currentLevelIndex].
  fold (nextLevelPath (Game.currentLevelIndex g)). fold next.
  split.
  - intros content Hc. rewrite (tryLoad_holds rt next content Hc).
    destruct (loadLevel (Runtime.JSON_parse rt) content); split; reflexivity.
  - intros Hm. rewrite (tryLoad_missing rt next Hm).
    split; [|split].
    + destruct (Game.tryLoad rt "assets/levels/level1.json") as [[l|]|];
        reflexivity.
    + intros content Hc. fold first. rewrite (tryLoad_holds rt first content Hc).
      destruct (loadLevel (Runtime.JSON_parse rt) content); reflexivity.
    + intros Hm1. fold first. rewrite (tryLoad_missing rt first Hm1).
      reflexivity.
Qed.

Lemma level_complete_advance_witness :
  let press :=
    {| Input.moveX := 0; Input.moveY := 0; Input.jumpPressed := true;
       Input.jumpHeld := true; Input.pausePressed := false;
       Input.startPressed := false |} in
  let g := Game.completeLevel (startPlaying (loaded (openLevelData [] (tileRect 36 3 2 3)))) in
  let g1 := Game.updateLevelComplete twoLevelRuntime press g in
  let g2 := Game.updateLevelComplete twoLevelRuntime press
              (Game.completeLevel g1) in
  (Game.currentLevelIndex g1 = 1%Z /\ Game.level g1 = loaded raggedData) /\
  Game.currentLevelIndex g2 = 0%Z.
Proof.
  intros press g g1 g2.
  destruct (level_complete_advance twoLevelRuntime press g eq_refl)
    as [_ [H1 _]].
  destruct (level_complete_advance twoLevelRuntime press
              (Game.completeLevel g1) eq_refl) as [_ [_ H2]].
  split.
  - apply (H1 "two"%string). split; [reflexivity | discriminate].
  - apply H2. left. reflexivity.
Defined.

(** ** The camera *)




(** ** Polling the pad *)

Lemma axis_range (negative positive : bool) (stick : Z) :
  (0 <= stick <= 255)%Z ->
  let m := Controller.axis negative positive stick in
  - (1) <= m <= 1 /\ (m == 0 \/ 31 # 128 <= Qabs m).
Proof.
  intros Hs m. subst m. unfold Controller.axis, Controller.DEAD_ZONE.
  destruct negative; [cbn; split; [split; discriminate | right; discriminate]|].
  destruct positive; [cbn; split; [split; discriminate | right; discriminate]|].
  cbn [Qeq_bool]. change (Qeq_bool 0 0) with true. cbv iota.
  destruct (Z.gtb_spec (Z.abs (stick - 128)) 30) as [Hg|Hg];
    [|split; [split; discriminate | left; reflexivity]].
  assert (E : inject_Z (stick - 128) / 128 == inject_Z (stick - 128) * (1 # 128))
    by reflexivity.
  split.
  - rewrite E.
    assert (H1 : inject_Z (-128) <= inject_Z (stick - 128))
      by (rewrite <- Zle_Qle; lia).
    assert (H2 : inject_Z (stick - 128) <= inject_Z 127)
      by (rewrite <- Zle_Qle; lia).
    change (inject_Z (-128)) with (- (128)) in H1.
    change (inject_Z 127) with 127 in H2. split; lra.
  - right. rewrite E.
    apply Qabs_case; intros Hsg.
    + destruct (Z.le_ge_cases 0 (stick - 128)) as [Hp|Hn].
      * assert (H1 : inject_Z 31 <= inject_Z (stick - 128))
          by (rewrite <- Zle_Qle; lia).
        change (inject_Z 31) with 31 in H1. lra.
      * exfalso.
        assert (H1 : inject_Z (stick - 128) <= inject_Z (-31))
          by (rewrite <- Zle_Qle; lia).
        change (inject_Z (-31)) with (- (31)) in H1.
        lra.
    + destruct (Z.le_ge_cases 0 (stick - 128)) as [Hp|Hn].
      * exfalso.
        assert (H1 : inject_Z 31 <= inject_Z (stick - 128))
          by (rewrite <- Zle_Qle; lia).
        change (inject_Z 31) with 31 in H1.
        lra.
      * assert (H1 : inject_Z (stick - 128) <= inject_Z (-31))
          by (rewrite <- Zle_Qle; lia).
        change (inject_Z (-31)) with (- (31)) in H1. lra.
Qed.

Lemma Controller_update_fields (pad : Pad.t) (c : Controller.t) :
  let c' := Controller.update pad c in
  Controller.jumpHeld c'
  = Pad.pressed pad CROSS || Pad.pressed pad R1 || Pad.pressed pad R2 /\
  Controller.jumpPressed c'
  = Controller.jumpHeld c' && negb (Controller.jumpHeld c) /\
  Controller.startPressed c'
  = Pad.pressed pad START && negb (Controller.startPressed c) /\
  Controller.pausePressed c'
  = Controller.startPressed c'
    || Pad.pressed pad SELECT && negb (Controller.pausePressed c).
Proof. repeat split. Qed.

(** X28.  With the stick axes in 0..255, [Input.update] gives [moveX] and
    [moveY] within [-1, 1]; each is either 0 or at least 31/128 in
    magnitude (the dead zone), and a D-pad direction overrides the stick,
    left and up winning over right and down. *)
Theorem Controller_update_axes (pad : Pad.t) (c : Controller.t) :
  (0 <= Pad.lx pad <= 255)%Z -> (0 <= Pad.ly pad <= 255)%Z ->
  let c' := Controller.update pad c in
  (- (1) <= Controller.moveX c' <= 1 /\
   (Controller.moveX c' == 0 \/ 31 # 128 <= Qabs (Controller.moveX c'))) /\
  (- (1) <= Controller.moveY c' <= 1 /\
   (Controller.moveY c' == 0 \/ 31 # 128 <= Qabs (Controller.moveY c'))) /\
  (Pad.pressed pad LEFT = true -> Controller.moveX c' = - (1)) /\
  (Pad.pressed pad UP = true -> Controller.moveY c' = - (1)) /\
  (Pad.pressed pad LEFT = false -> Pad.pressed pad RIGHT = true ->
     Controller.moveX c' = 1).
Proof.
  intros Hx Hy c'. subst c'. cbn [Controller.update Controller.moveX Controller.moveY].
  split; [apply axis_range; exact Hx|]. split; [apply axis_range; exact Hy|].
  unfold Controller.axis. repeat split.
  - intros ->. reflexivity.
  - intros ->. reflexivity.
  - intros -> ->. reflexivity.
Qed.

Lemma Controller_update_axes_witness :
  let pad := {| Pad.pressed := fun _ => false; Pad.lx := 255; Pad.ly := 140 |} in
  let c' := Controller.update pad Controller.new in
  - (1) <= Controller.moveX c' <= 1 /\ Controller.moveY c' == 0.
Proof.
  intros pad c'.
  destruct (Controller_update_axes pad Controller.new) as [[Hx _] _].
  - simpl. lia.
  - simpl. lia.
  - split; [exact Hx | reflexivity].
Defined.

(** X29.  The jump press is an edge: after a poll [jumpPressed] holds
    exactly when a jump button is down now and none was at the poll before;
    so a press always comes with [jumpHeld], and two polls in a row never
    both report one. *)
Theorem Controller_jump_edge (pad1 pad2 : Pad.t) (c : Controller.t) :
  let c1 := Controller.update pad1 c in
  let c2 := Controller.update pad2 c1 in
  (Controller.jumpPressed c2 = true <->
   Controller.jumpHeld c2 = true /\ Controller.jumpHeld c1 = false) /\
  (Controller.jumpPressed c1 = true -> Controller.jumpHeld c1 = true) /\
  (Controller.jumpPressed c1 = true -> Controller.jumpPressed c2 = false).
Proof.
  intros c1 c2.
  destruct (Controller_update_fields pad1 c) as [_ [P1 _]].
  destruct (Controller_update_fields pad2 c1) as [_ [P2 _]].
  fold c1 in P1. fold c1 c2 in P2. cbv zeta in P1, P2.
  rewrite P2, P1.
  destruct (Controller.jumpHeld c2), (Controller.jumpHeld c1),
    (Controller.jumpHeld c); cbn; intuition congruence.
Qed.

Lemma Controller_jump_edge_witness :
  let cross := padWith (fun b => match b with CROSS => true | _ => false end) in
  Controller.jumpPressed (Controller.update cross Controller.new) = true /\
  Controller.jumpPressed
    (Controller.update cross (Controller.update cross Controller.new)) = false.
Proof.
  intros cross.
  destruct (Controller_jump_edge cross cross Controller.new) as [_ [_ H]].
  split; [reflexivity | apply H; reflexivity].
Defined.

(** X30.  START is not an edge: [update] compares it with the last poll's
    [startPressed], not with whether START was down.  While START stays
    down [startPressed] flips at every poll, so holding it over three polls
    reports two presses; with SELECT up, a Playing session fed those three
    polls is paused by the first, left paused by the second and resumed by
    the third. *)
Theorem start_held_repeats (rt : Runtime.t) (pad1 pad2 pad3 : Pad.t)
    (c : Controller.t) (dt1 dt2 dt3 : Q) (g : Game.t) :
  Pad.pressed pad1 START = true -> Pad.pressed pad2 START = true ->
  Pad.pressed pad3 START = true ->
  Pad.pressed pad1 SELECT = false -> Pad.pressed pad2 SELECT = false ->
  Pad.pressed pad3 SELECT = false ->
  Controller.startPressed c = false ->
  Game.state g = PLAYING ->
  let c1 := Controller.update pad1 c in
  let c2 := Controller.update pad2 c1 in
  let c3 := Controller.update pad3 c2 in
  let g1 := Game.update rt (Controller.intent c1) dt1 g in
  let g2 := Game.update rt (Controller.intent c2) dt2 g1 in
  let g3 := Game.update rt (Controller.intent c3) dt3 g2 in
  (Controller.startPressed c1 = true /\ Controller.startPressed c2 = false /\
   Controller.startPressed c3 = true) /\
  (Game.state g1 = PAUSED /\ Game.state g2 = PAUSED /\
   Game.state g3 = PLAYING) /\
  Game.player g3 = Game.player g.
Proof.
  intros S1 S2 S3 T1 T2 T3 Hc Hst c1 c2 c3 g1 g2 g3.
  assert (E1 : Controller.startPressed c1 = true /\
               Controller.pausePressed c1 = true).
  { unfold c1. cbn. rewrite S1, Hc. split; reflexivity. }
  destruct E1 as [E1 P1].
  assert (E2 : Controller.startPressed c2 = false /\
               Controller.pausePressed c2 = false).
  { unfold c2. cbn [Controller.update Controller.startPressed
                    Controller.pausePressed].
    rewrite S2, T2, E1. split; reflexivity. }
  destruct E2 as [E2 P2].
  assert (E3 : Controller.startPressed c3 = true /\
               Controller.pausePressed c3 = true).
  { unfold c3. cbn [Controller.update Controller.startPressed
                    Controller.pausePressed].
    rewrite S3, E2. split; reflexivity. }
  destruct E3 as [E3 P3].
  assert (G1 : g1 = Game.updateParticles dt1 (Game.set_state PAUSED g)).
  { unfold g1, Game.update. rewrite Hst. unfold Game.updatePlaying.
    cbn [Controller.intent Input.pausePressed]. now rewrite P1. }
  assert (G2 : g2 = Game.updateParticles dt2 g1).
  { unfold g2, Game.update. rewrite G1 at 1.
    cbn [Game.state Game.updateParticles Game.set_particles Game.set_state].
    cbn [Controller.intent Input.pausePressed]. now rewrite P2. }
  assert (G3 : g3 = Game.updateParticles dt3 (Game.set_state PLAYING g2)).
  { unfold g3, Game.update. rewrite G2 at 1. rewrite G1 at 1.
    cbn [Game.state Game.updateParticles Game.set_particles Game.set_state].
    cbn [Controller.intent Input.pausePressed]. now rewrite P3. }
  split; [repeat split; assumption|].
  split; [|rewrite G3, G2, G1; reflexivity].
  rewrite G3, G2, G1. repeat split.
Qed.

Lemma start_held_repeats_witness :
  let g := startPlaying tinyLevel in
  let c1 := Controller.update (padWith onlyStart) Controller.new in
  let c2 := Controller.update (padWith onlyStart) c1 in
  let c3 := Controller.update (padWith onlyStart) c2 in
  Game.state
    (Game.update sampleRuntime (Controller.intent c3) (1 # 60)
       (Game.update sampleRuntime (Controller.intent c2) (1 # 60)
          (Game.update sampleRuntime (Controller.intent c1) (1 # 60) g)))
  = PLAYING.
Proof.
  intros g c1 c2 c3.
  apply (start_held_repeats sampleRuntime (padWith onlyStart)
           (padWith onlyStart) (padWith onlyStart) Controller.new
           (1 # 60) (1 # 60) (1 # 60) g); reflexivity.
Defined.

(** ** Landing on a single tile *)

Lemma range_NoDup (lo hi : Z) : NoDup (range lo hi).
Proof.
  unfold range. generalize (seq_NoDup (Z.to_nat (hi - lo + 1)) 0).
  induction (seq 0 (Z.to_nat (hi - lo + 1))) as [|i l IH]; intros Hnd;
    cbn [map]; [constructor|].
  inversion Hnd as [|? ? Hnot Hnd']; subst. constructor; [|now apply IH].
  intros Hin. apply in_map_iff in Hin. destruct Hin as [j [E Hj]].
  assert (j = i) by lia. subst j. contradiction.
Qed.

Lemma fold_left_skip (A : Type) (f : Player.t -> A -> Player.t)
    (l : list A) (p : Player.t) :
  (forall b q, In b l -> f q b = q) -> fold_left f l p = p.
Proof.
  revert p. induction l as [|b l IH]; intros p Hid; [reflexivity|].
  cbn [fold_left]. rewrite Hid by now left.
  apply IH. intros b' q Hb'. apply Hid. now right.
Qed.

Lemma fold_left_only (A : Type) (f : Player.t -> A -> Player.t)
    (a : A) (l : list A) (p : Player.t) :
  NoDup l -> In a l ->
  (forall b q, In b l -> b <> a -> f q b = q) ->
  fold_left f l p = f p a.
Proof.
  revert p. induction l as [|b l IH]; intros p Hnd Hin Hid; [destruct Hin|].
  inversion Hnd as [|? ? Hnot Hnd']; subst. cbn [fold_left].
  destruct Hin as [-> | Hin].
  - apply fold_left_skip. intros b q Hb. apply Hid; [now right|].
    intros ->. contradiction.
  - rewrite Hid; [|now left | intros ->; contradiction].
    apply IH; [exact Hnd' | exact Hin|].
    intros b' q' Hb'. apply Hid. now right.
Qed.

Lemma scanned_bottom_positive (b : Player.Bounds) (tx ty : Z) :
  scanned b tx ty ->
  0 < inject_Z ty * TILE_SIZE + TILE_SIZE - Player.top b.
Proof.
  intros [_ [Hlo _]].
  pose proof (Qlt_floor (Player.top b / TILE_SIZE)) as Hf.
  assert (Hle : inject_Z (Qfloor (Player.top b / TILE_SIZE) + 1)
                <= inject_Z (ty + 1))
    by (rewrite <- Zle_Qle; lia).
  rewrite (inject_Z_plus ty 1) in Hle. change (inject_Z 1) with 1 in Hle.
  unfold TILE_SIZE, Qdiv in *. change (/ 16) with (1 # 16) in *.
  set (fl := inject_Z (Qfloor (Player.top b * (1 # 16)) + 1)) in *.
  lra.
Qed.

(** X14.  Landing on one tile.  When exactly one of the tiles the resolver
    visits is Solid and the player's penetration into it resolves upward,
    the whole pass is that one push: the player is raised by its
    penetration depth, the distance from the tile's top edge down to the
    player's bottom edge, and by nothing else; [x] and [vx] are untouched,
    [vy] is zero, the player is grounded and the coyote timer is full. *)
Theorem landing_on_one_tile (level : Level.t) (p : Player.t) (tx ty : Z) :
  scanned (Player.bounds p) tx ty ->
  resolvesUpward level (Player.bounds p) tx ty ->
  (forall tx' ty' : Z,
     scanned (Player.bounds p) tx' ty' ->
     isSolidTile level tx' ty' = true -> tx' = tx /\ ty' = ty) ->
  let p' := Player.resolveCollisions level p in
  let depth := Player.bottom (Player.bounds p) - inject_Z ty * TILE_SIZE in
  (Player.y p' = Player.y p + - depth /\ 0 < depth /\
   Player.y p' <= Player.y p) /\
  Player.x p' = Player.x p /\ Player.vx p' = Player.vx p /\
  Player.vy p' = 0 /\ Player.grounded p' = true /\
  Player.coyoteTimer p' = COYOTE_TIME.
Proof.
  intros Hsc Hup Honly p' depth.
  pose proof (scanned_bottom_positive _ _ _ Hsc) as Hpos.
  subst depth.
  set (b := Player.bounds p) in *.
  assert (Hclear : forall tx' ty', scanned b tx' ty' ->
            (tx' <> tx \/ ty' <> ty) -> isSolidTile level tx' ty' = false).
  { intros tx' ty' Hs Hne.
    destruct (isSolidTile level tx' ty') eqn:E; [|reflexivity].
    destruct (Honly tx' ty' Hs E) as [-> ->]. destruct Hne; contradiction. }
  pose proof Hsc as [Hx Hy].
  assert (Hp' : p' = Player.resolveTile level b ty
                       (Player.set_grounded false p) tx).
  { subst p'. unfold Player.resolveCollisions.
    change (Player.bounds (Player.set_grounded false p)) with b.
    rewrite (fold_left_only Z _ ty).
    - apply (fold_left_only Z _ tx); [apply range_NoDup | now apply In_range|].
      intros tx' q Hin Hne. unfold Player.resolveTile.
      rewrite Hclear; [reflexivity | | now left].
      split; [now apply In_range | exact Hy].
    - apply range_NoDup.
    - now apply In_range.
    - intros ty' q Hin Hne. apply resolveRow_clear.
      intros tx' Hin'. apply Hclear; [|now right].
      split; now apply In_range. }
  destruct Hup as [Hsolid [Haxis Hneg]].
  rewrite Hp'. unfold Player.resolveTile. rewrite Hsolid.
  simpl negb. cbv iota.
  unfold Player.minOverlap in *. cbn [fst snd] in Haxis, Hneg.
  match goal with
  | |- context [Num.ltb (Qabs ?mx) (Qabs ?my)] =>
      destruct (ltbP (Qabs mx) (Qabs my)); [contradiction|]
  end.
  match goal with
  | |- context [if Num.ltb ?my 0 then _ else _] =>
      destruct (ltbP my 0); [|contradiction]
  end.
  cbn [Player.y Player.x Player.vx Player.vy Player.grounded Player.height
       Player.coyoteTimer
       Player.set_vy Player.set_coyoteTimer Player.set_grounded Player.set_y].
  split; [|repeat split].
  revert Hneg.
  destruct (ltbP (Player.bottom b - inject_Z ty * TILE_SIZE)
              (inject_Z ty * TILE_SIZE + TILE_SIZE - Player.top b))
    as [Hlt|Hge]; intros Hneg.
  - split; [reflexivity|]. split; lra.
  - exfalso. lra.
Qed.

Lemma landing_on_one_tile_witness :
  let p := Player.set_y 30 (Player.set_x 8 (Player.set_vy 120 Player.reset)) in
  let p' := Player.resolveCollisions (Level.setTile (Level.setTile (Level.setTile
              tinyLevel 1 2 0) 2 2 0) 3 2 0) p in
  Player.y p' = 30 + - (Player.bottom (Player.bounds p) - inject_Z 2 * TILE_SIZE) /\
  Player.y p' == 24 /\ Player.grounded p' = true.
Proof.
  intros p.
  destruct (landing_on_one_tile
              (Level.setTile (Level.setTile (Level.setTile tinyLevel 1 2 0)
                 2 2 0) 3 2 0) p 0 2) as [[H1 _] [_ [_ [_ [H5 _]]]]].
  - split; split; vm_compute; discriminate.
  - split; [reflexivity|]. split; [vm_compute; discriminate | reflexivity].
  - intros tx' ty' [Hx Hy] Hs.
    assert (Hx' : (0 <= tx' <= 1)%Z) by exact Hx.
    assert (Hy' : (1 <= ty' <= 2)%Z) by exact Hy.
    assert (Ex : (tx' = 0 \/ tx' = 1)%Z) by lia.
    assert (Ey : (ty' = 1 \/ ty' = 2)%Z) by lia.
    destruct Ex as [-> | ->]; destruct Ey as [-> | ->];
      try (split; reflexivity); vm_compute in Hs; discriminate.
  - split; [exact H1|]. split; [|exact H5]. rewrite H1. reflexivity.
Defined.
